(** * githubAnalyzer: a shallow embedding of [src/lib/githubAnalyzer.ts]

    The analyzer harvests the files of a GitHub repository over all of its
    branches, classifies commit messages as machine- or human-written,
    estimates work hours and rolls the commits up per contributor and per
    day.  This development embeds the functions of that file and states
    the properties its specification claims about them.

    Conventions of the embedding:
    - a JavaScript string is the list of its UTF-16 code units ([jsstring]);
    - a JavaScript number that the code computes with is an IEEE-754
      binary64 value ([float], the kernel's primitive floats); counters
      that the code only increments are [nat], byte sizes are [N];
    - [async] functions that talk to the network are state-passing
      functions over an abstract [World] that may throw;
    - [console] output and the optional [onProgress] callback are
      observations without effect on the results and are left out. *)

From Stdlib Require Import List Bool Arith NArith ZArith Lia String Ascii.
From Stdlib Require Import Permutation Sorted Floats Uint63.
Import ListNotations.

Set Warnings "-inexact-float".
Open Scope string_scope.
Open Scope list_scope.
Set Implicit Arguments.

(** ** The JavaScript fragment the analyzer relies on *)

Module JS.

(** *** Strings *)

Definition jsstring := list N.

Definition js (s : string) : jsstring :=
  map N_of_ascii (list_ascii_of_string s).

Fixpoint String_eqb (a b : jsstring) : bool :=
  match a, b with
  | [], [] => true
  | x :: a', y :: b' => N.eqb x y && String_eqb a' b'
  | _, _ => false
  end.

Fixpoint String_startsWith (s prefix : jsstring) : bool :=
  match prefix, s with
  | [], _ => true
  | p :: prefix', c :: s' => N.eqb c p && String_startsWith s' prefix'
  | _ :: _, [] => false
  end.

Fixpoint String_includes (s sub : jsstring) : bool :=
  String_startsWith s sub ||
  match s with
  | [] => false
  | _ :: s' => String_includes s' sub
  end.

Definition Array_includes (l : list jsstring) (s : jsstring) : bool :=
  existsb (String_eqb s) l.

(** [<] on strings, as the default [Array.prototype.sort] uses it: code
    units compared lexicographically. *)
Fixpoint String_ltb (a b : jsstring) : bool :=
  match a, b with
  | _, [] => false
  | [], _ :: _ => true
  | x :: a', y :: b' => N.ltb x y || (N.eqb x y && String_ltb a' b')
  end.

(** [String.prototype.toLowerCase].  The results are only ever compared
    with ASCII text, so the mapping is given on the code units whose
    lower-case image is ASCII: [A-Z] and the Kelvin sign U+212A. *)
Definition toLowerCaseUnit (c : N) : N :=
  if (65 <=? c)%N && (c <=? 90)%N then (c + 32)%N
  else if (c =? 8490)%N then 107%N
  else c.

Definition String_toLowerCase (s : jsstring) : jsstring :=
  map toLowerCaseUnit s.

(** [s.split(sep)[0]] for a one-unit separator: the text before its first
    occurrence, the whole string when there is none. *)
Fixpoint String_split_head (sep : N) (s : jsstring) : jsstring :=
  match s with
  | [] => []
  | c :: s' => if N.eqb c sep then [] else c :: String_split_head sep s'
  end.

(** Decimal rendering of a natural number in a template literal (the
    numbers rendered are byte sizes and page numbers, far below the 10^21
    from which JavaScript writes an exponent). *)
Fixpoint digitsOfPos (fuel : nat) (n : N) (acc : jsstring) : jsstring :=
  match fuel with
  | O => acc
  | S fuel' =>
      let acc' := (48 + n mod 10)%N :: acc in
      if (n <? 10)%N then acc' else digitsOfPos fuel' (n / 10)%N acc'
  end.

Definition Number_toString (n : N) : jsstring :=
  digitsOfPos (S (N.to_nat (N.log2 n))) n [].

(** White space and line terminators ([\s], [String.prototype.trim]). *)
Definition isLineTerminator (c : N) : bool :=
  (c =? 10)%N || (c =? 13)%N || (c =? 8232)%N || (c =? 8233)%N.

Definition isWhiteSpace (c : N) : bool :=
  ((9 <=? c)%N && (c <=? 13)%N) || (c =? 32)%N || (c =? 160)%N ||
  (c =? 5760)%N || ((8192 <=? c)%N && (c <=? 8202)%N) ||
  (c =? 8232)%N || (c =? 8233)%N || (c =? 8239)%N || (c =? 8287)%N ||
  (c =? 12288)%N || (c =? 65279)%N.

Definition isWordChar (c : N) : bool :=
  ((48 <=? c)%N && (c <=? 57)%N) || ((65 <=? c)%N && (c <=? 90)%N) ||
  (c =? 95)%N || ((97 <=? c)%N && (c <=? 122)%N).

(** [!s.trim()] *)
Definition String_isBlank (s : jsstring) : bool := forallb isWhiteSpace s.

(** The code points of a string, as a [/u] regular expression reads it:
    a high surrogate followed by a low one is one code point. *)
Fixpoint codePoints (s : jsstring) : list N :=
  match s with
  | [] => []
  | hi :: rest =>
      match rest with
      | lo :: rest' =>
          if (55296 <=? hi)%N && (hi <=? 56319)%N &&
             (56320 <=? lo)%N && (lo <=? 57343)%N
          then (65536 + (hi - 55296) * 1024 + (lo - 56320))%N ::
               codePoints rest'
          else hi :: codePoints rest
      | [] => [hi]
      end
  end.

(** *** Numbers *)

Definition Number_ofZ (z : Z) : float :=
  match z with
  | Z0 => 0%float
  | Zpos _ => PrimFloat.of_uint63 (Uint63.of_Z z)
  | Zneg p => PrimFloat.opp (PrimFloat.of_uint63 (Uint63.of_Z (Zpos p)))
  end.

Definition Number_ofNat (n : nat) : float := Number_ofZ (Z.of_nat n).

Definition isNegZero (x : float) : bool :=
  match PrimFloat.classify x with
  | NZero => true
  | _ => false
  end.

Definition Math_max (a b : float) : float :=
  if PrimFloat.is_nan a || PrimFloat.is_nan b then PrimFloat.nan
  else if PrimFloat.ltb a b then b
  else if PrimFloat.ltb b a then a
  else if isNegZero a then b else a.

Definition Math_min (a b : float) : float :=
  if PrimFloat.is_nan a || PrimFloat.is_nan b then PrimFloat.nan
  else if PrimFloat.ltb a b then a
  else if PrimFloat.ltb b a then b
  else if isNegZero a then a else b.

(** [Math.round]: the integer closest to [x], ties towards +infinity;
    NaN, the infinities and the zeros are returned as they are, and a
    result that rounds to zero keeps the sign of [x]. *)
Definition Math_round (x : float) : float :=
  match Prim2SF x with
  | S754_finite sign m e =>
      match e with
      | Zneg k =>
          let num := if sign then Zneg m else Zpos m in
          let n := ((2 * num + 2 ^ Zpos k) / 2 ^ (Zpos k + 1))%Z in
          if (n =? 0)%Z then (if sign then (-0)%float else 0%float)
          else Number_ofZ n
      | _ => x
      end
  | _ => x
  end.

(** [Array.prototype.sort(compare)], a stable sort; [after a b] reads
    [compare(a, b) > 0], that is, [a] has to come after [b]. *)
Section Sort.
Variable A : Type.
Variable after : A -> A -> bool.

Fixpoint Array_insert (x : A) (l : list A) : list A :=
  match l with
  | [] => [x]
  | y :: l' => if after y x then x :: l else y :: Array_insert x l'
  end.

Definition Array_sort (l : list A) : list A :=
  fold_left (fun acc x => Array_insert x acc) l [].
End Sort.

(** *** Regular expressions

    Only [RegExp.prototype.test] is used on the expressions below (none
    has the [g] or [y] flag, none has a back-reference or a look-around),
    so a match is a yes/no search for a substring the expression accepts.
    The matcher is a backtracking one in continuation-passing style over
    the remaining input; [prev] is the unit before the current position,
    which [^] and [\b] look at. *)

Inductive regex : Type :=
| Empty : regex
| Lit (c : N) : regex
| Dot : regex
| Class (negated : bool) (ranges : list (N * N)) : regex
| Space : regex
| Word : regex
| Bol : regex
| Eol : regex
| WordBoundary : regex
| Seq (r1 r2 : regex) : regex
| Alt (r1 r2 : regex) : regex
| Star (r : regex) : regex.

Definition Plus (r : regex) : regex := Seq r (Star r).
Definition Opt (r : regex) : regex := Alt r Empty.

Definition text (s : string) : regex :=
  fold_right (fun a r => Seq (Lit (N_of_ascii a)) r) Empty
             (list_ascii_of_string s).

Definition oneOf (rs : list regex) : regex :=
  match rs with
  | [] => Class false []
  | r :: rs' => fold_left Alt rs' r
  end.

Definition words (ws : list string) : regex := oneOf (map text ws).

Definition seq (rs : list regex) : regex := fold_right Seq Empty rs.

(** The code unit of a one-character literal. *)
Definition ch (s : string) : N :=
  match s with
  | String a _ => N_of_ascii a
  | EmptyString => 0%N
  end.

Definition anyOf (s : string) : list (N * N) :=
  map (fun a => (N_of_ascii a, N_of_ascii a)) (list_ascii_of_string s).

Definition inRanges (ranges : list (N * N)) (c : N) : bool :=
  existsb (fun r => (fst r <=? c)%N && (c <=? snd r)%N) ranges.

(** Canonicalize of the [i] flag without [u]: a unit outside ASCII is
    never identified with an ASCII one, so for the ASCII literals of the
    patterns it is upper-casing of [a-z]. *)
Definition canonicalize (c : N) : N :=
  if (97 <=? c)%N && (c <=? 122)%N then (c - 32)%N else c.

Definition atWordBoundary (prev : option N) (s : list N) : bool :=
  xorb (match prev with Some c => isWordChar c | None => false end)
       (match s with c :: _ => isWordChar c | [] => false end).

Section Matcher.
Variable ignoreCase : bool.

Definition litMatches (p c : N) : bool :=
  if ignoreCase then N.eqb (canonicalize p) (canonicalize c) else N.eqb p c.

Definition step (test : N -> bool) (s : list N)
    (k : option N -> list N -> bool) : bool :=
  match s with
  | c :: s' => test c && k (Some c) s'
  | [] => false
  end.

Fixpoint matchAt (r : regex) (prev : option N) (s : list N)
    (k : option N -> list N -> bool) {struct r} : bool :=
  match r with
  | Empty => k prev s
  | Lit p => step (litMatches p) s k
  | Dot => step (fun c => negb (isLineTerminator c)) s k
  | Class negated ranges =>
      step (fun c => xorb negated (inRanges ranges c)) s k
  | Space => step isWhiteSpace s k
  | Word => step isWordChar s k
  | Bol => match prev with None => k prev s | Some _ => false end
  | Eol => match s with [] => k prev s | _ :: _ => false end
  | WordBoundary => atWordBoundary prev s && k prev s
  | Seq r1 r2 => matchAt r1 prev s (fun prev' s' => matchAt r2 prev' s' k)
  | Alt r1 r2 => matchAt r1 prev s k || matchAt r2 prev s k
  | Star r1 =>
      (fix iterate (fuel : nat) (prev : option N) (s : list N) : bool :=
         match fuel with
         | O => k prev s
         | S fuel' =>
             matchAt r1 prev s
               (fun prev' s' =>
                  (List.length s' <? List.length s)%nat && iterate fuel' prev' s')
             || k prev s
         end) (List.length s) prev s
  end.

(** The search of [test]: a match may start at any position. *)
Fixpoint searchFrom (r : regex) (prev : option N) (s : list N) : bool :=
  matchAt r prev s (fun _ _ => true) ||
  match s with
  | [] => false
  | c :: s' => searchFrom r (Some c) s'
  end.
End Matcher.

Record RegExp : Type := {
  source : string;
  pattern : regex;
  flag_i : bool;
  flag_u : bool
}.

Definition RegExp_test (re : RegExp) (s : jsstring) : bool :=
  searchFrom (flag_i re) (pattern re) None
             (if flag_u re then codePoints s else s).

End JS.

Import JS.

(** ** CommitClassifier: [analyzeCommitMessage] *)

Module Classifier.

Record Verdict : Type := {
  isAI : bool;
  confidence : float;
  reasons : list jsstring
}.

(** The character class of the invisible units: U+200B to U+200D, U+FEFF,
    U+2060, U+180E and U+2061 to U+2064. *)
Definition invisibleChars : RegExp :=
  {| source := "[\u200B-\u200D\uFEFF\u2060\u180E\u2061-\u2064]";
     pattern := Class false [(0x200B, 0x200D); (0xFEFF, 0xFEFF);
                             (0x2060, 0x2060); (0x180E, 0x180E);
                             (0x2061, 0x2064)]%N;
     flag_i := false; flag_u := false |}.

Definition emojiRegex : RegExp :=
  {| source := "[\u{1F600}-\u{1F64F}]|[\u{1F300}-\u{1F5FF}]|[\u{1F680}-\u{1F6FF}]|[\u{1F1E0}-\u{1F1FF}]|[\u{2600}-\u{26FF}]|[\u{2700}-\u{27BF}]";
     pattern := oneOf [Class false [(0x1F600, 0x1F64F)%N];
                       Class false [(0x1F300, 0x1F5FF)%N];
                       Class false [(0x1F680, 0x1F6FF)%N];
                       Class false [(0x1F1E0, 0x1F1FF)%N];
                       Class false [(0x2600, 0x26FF)%N];
                       Class false [(0x2700, 0x27BF)%N]];
     flag_i := false; flag_u := true |}.

Definition ci (src : string) (r : regex) : RegExp :=
  {| source := src; pattern := r; flag_i := true; flag_u := false |}.

Definition aiPatterns : list RegExp :=
  [ (* Perfect formatting patterns *)
    ci "^(feat|fix|docs|style|refactor|test|chore|ci|build|perf)(\(.+\))?\:\s.+$"
       (seq [Bol;
             words ["feat"; "fix"; "docs"; "style"; "refactor"; "test";
                    "chore"; "ci"; "build"; "perf"];
             Opt (seq [Lit (ch "("); Plus Dot; Lit (ch ")")]);
             Lit (ch ":"); Space; Plus Dot; Eol]);
    ci "^(add|update|implement|create|fix|remove|delete|improve)\s"
       (seq [Bol;
             words ["add"; "update"; "implement"; "create"; "fix"; "remove";
                    "delete"; "improve"];
             Space]);
    (* Too formal/structured patterns *)
    ci "^(initial commit|first commit)$"
       (seq [Bol; words ["initial commit"; "first commit"]; Eol]);
    ci "update\s+(readme|documentation)"
       (seq [text "update"; Plus Space; words ["readme"; "documentation"]]);
    ci "^(resolve|address)\s+issue"
       (seq [Bol; words ["resolve"; "address"]; Plus Space; text "issue"]);
    (* Generic AI phrases *)
    ci "minor\s+(changes|updates|fixes)"
       (seq [text "minor"; Plus Space; words ["changes"; "updates"; "fixes"]]);
    ci "code\s+(cleanup|optimization|refactoring)"
       (seq [text "code"; Plus Space;
             words ["cleanup"; "optimization"; "refactoring"]]);
    ci "improve\s+(performance|functionality|user\s+experience)"
       (seq [text "improve"; Plus Space;
             oneOf [text "performance"; text "functionality";
                    seq [text "user"; Plus Space; text "experience"]]]);
    ci "enhance\s+(feature|component|ui)"
       (seq [text "enhance"; Plus Space; words ["feature"; "component"; "ui"]]);
    ci "update\s+(dependencies|packages)"
       (seq [text "update"; Plus Space; words ["dependencies"; "packages"]])
  ].

Definition perfectGrammarIndicators : list RegExp :=
  [ (* Starts with capital, ends with punctuation *)
    {| source := "^\w[^.!?]*[.!?]$";
       pattern := seq [Bol; Word; Star (Class true (anyOf ".!?"));
                       Class false (anyOf ".!?"); Eol];
       flag_i := false; flag_u := false |};
    ci "\b(implement|establish|utilize|facilitate|optimize)\b"
       (seq [WordBoundary;
             words ["implement"; "establish"; "utilize"; "facilitate";
                    "optimize"];
             WordBoundary]);
    ci "\b(furthermore|additionally|moreover|consequently)\b"
       (seq [WordBoundary;
             words ["furthermore"; "additionally"; "moreover"; "consequently"];
             WordBoundary])
  ].

(** The two [for ... of] loops: count the expressions that match and push
    one reason per match. *)
Definition countMatches (message : jsstring) (reason : RegExp -> jsstring)
    (patterns : list RegExp) (st : nat * list jsstring)
    : nat * list jsstring :=
  fold_left
    (fun st pattern =>
       if RegExp_test pattern message
       then (S (fst st), snd st ++ [reason pattern])
       else st)
    patterns st.

Definition analyzeCommitMessage (message : jsstring) : Verdict :=
  let reasons := [] in
  let confidence := 0%float in
  (* Check for invisible Unicode characters *)
  if RegExp_test invisibleChars message then
    {| isAI := true; confidence := 1.0;
       reasons := reasons ++ [js "Contains invisible Unicode characters"] |}
  else
  (* Check for emojis *)
  let '(reasons, confidence) :=
    if RegExp_test emojiRegex message
    then (reasons ++ [js "Contains emojis"], Math_max confidence 0.9)
    else (reasons, confidence) in
  (* AI-generated commit message patterns *)
  let '(patternMatches, reasons) :=
    countMatches message
      (fun pattern => js ("Matches AI pattern: " ++ source pattern)%string)
      aiPatterns (O, reasons) in
  let confidence :=
    if (0 <? patternMatches)%nat
    then Math_max confidence
           (Math_min 0.8 (0.3 + Number_ofNat patternMatches * 0.15))
    else confidence in
  (* Length patterns *)
  let '(reasons, confidence) :=
    if (100 <? List.length message)%nat
    then (reasons ++ [js "Unusually long commit message"],
          Math_max confidence 0.6)
    else (reasons, confidence) in
  (* Perfect grammar indicators *)
  let '(grammarScore, reasons) :=
    countMatches message
      (fun _ => js "Perfect grammar/formal language")
      perfectGrammarIndicators (O, reasons) in
  let confidence :=
    if (0 <? grammarScore)%nat
    then Math_max confidence (0.5 + Number_ofNat grammarScore * 0.1)
    else confidence in
  {| isAI := PrimFloat.ltb 0.5 confidence;
     confidence := confidence;
     reasons := reasons |}.

End Classifier.

(** ** The data model *)

Record Person : Type := {
  name : jsstring;
  email : jsstring;
  date : jsstring
}.

Record Stats : Type := {
  additions : float;
  deletions : float;
  total : float
}.

Definition noStats : Stats :=
  {| additions := 0; deletions := 0; total := 0 |}.

Record CommitAnalysis : Type := {
  sha : jsstring;
  message : jsstring;
  author : Person;
  committer : Person;
  stats : Stats;
  isAI : bool;
  confidence : float;
  reasons : list jsstring;
  url : jsstring
}.

Module ContributorStats.
Record t : Type := {
  name : jsstring;
  email : jsstring;
  totalCommits : nat;
  totalAdditions : float;
  totalDeletions : float;
  estimatedHours : float;
  aiCommitPercentage : float;
  firstCommit : jsstring;
  lastCommit : jsstring;
  commitDays : list jsstring
}.
End ContributorStats.

Module TimelineStats.
Record t : Type := {
  date : jsstring;
  commits : nat;
  additions : float;
  deletions : float;
  aiCommits : nat;
  estimatedHours : float;
  contributors : list jsstring
}.
End TimelineStats.

Module CommitHistory.
Record t : Type := {
  totalCommits : nat;
  commits : list CommitAnalysis;
  contributors : list ContributorStats.t;
  timeline : list TimelineStats.t;
  totalEstimatedHours : float;
  aiCommitPercentage : float;
  projectStartDate : jsstring;
  projectEndDate : jsstring
}.
End CommitHistory.

(** A JavaScript [Map] with string keys: the entries in insertion order. *)
Module JsMap.
Section Ops.
Variable V : Type.

Definition t := list (jsstring * V).

Fixpoint get (key : jsstring) (m : t) : option V :=
  match m with
  | [] => None
  | (k, v) :: m' => if String_eqb k key then Some v else get key m'
  end.

Definition has (key : jsstring) (m : t) : bool :=
  match get key m with Some _ => true | None => false end.

Fixpoint set (key : jsstring) (v : V) (m : t) : t :=
  match m with
  | [] => [(key, v)]
  | (k, v') :: m' =>
      if String_eqb k key then (k, v) :: m' else (k, v') :: set key v m'
  end.

(** Mutation of the object stored under [key] ([map.get(key)!] followed
    by assignments to its fields). *)
Fixpoint update (key : jsstring) (f : V -> V) (m : t) : t :=
  match m with
  | [] => []
  | (k, v) :: m' =>
      if String_eqb k key then (k, f v) :: m' else (k, v) :: update key f m'
  end.

Definition values (m : t) : list V := map snd m.
End Ops.
End JsMap.

(** ** WorkHourEstimator: [estimateWorkHours] *)

Section Estimator.
(** [new Date(s).getTime()]: the time value of a date string in
    milliseconds, NaN when the engine cannot parse it. *)
Variable Date_getTime : jsstring -> float.

Definition byDateAscending (a b : CommitAnalysis) : bool :=
  PrimFloat.ltb 0 (Date_getTime (date (author a)) -
                   Date_getTime (date (author b))).

(** One turn of the loop over the sorted commits; the state is
    [totalHours] and [lastCommitTime]. *)
Definition sessionStep (timeWindow : float)
    (st : float * option float) (commit : CommitAnalysis)
    : float * option float :=
  let '(totalHours, lastCommitTime) := st in
  let commitTime := Date_getTime (date (author commit)) in
  let totalHours :=
    match lastCommitTime with
    | Some lastTime =>
        let timeDiff := ((commitTime - lastTime) / (1000 * 60 * 60))%float in
        if PrimFloat.leb timeDiff timeWindow
        then (totalHours + timeDiff)%float
        else (totalHours + 0.5)%float
    | None => (totalHours + 0.5)%float
    end in
  let commitComplexity := Math_min (total (stats commit) / 10) 2 in
  ((totalHours + commitComplexity)%float, Some commitTime).

Definition estimateWorkHours (commits : list CommitAnalysis)
    (timeWindow : float) : float :=
  if (List.length commits =? 0)%nat then 0%float
  else
    let sortedCommits := Array_sort byDateAscending commits in
    let '(totalHours, _) :=
      fold_left (sessionStep timeWindow) sortedCommits (0%float, None) in
    (Math_round (totalHours * 10) / 10)%float.

(** The default value of the parameter [timeWindow]. *)
Definition defaultTimeWindow : float := 4.
End Estimator.

(** ** AggregationEngine: the roll-up of [analyzeCommitHistory] *)

Section Aggregation.
Variable Date_getTime : jsstring -> float.

Definition contributorKey (commit : CommitAnalysis) : jsstring :=
  name (author commit) ++ js "-" ++ email (author commit).

Definition commitDay (commit : CommitAnalysis) : jsstring :=
  String_split_head (ch "T") (date (author commit)).

Definition newContributor (commit : CommitAnalysis) : ContributorStats.t :=
  {| ContributorStats.name := name (author commit);
     ContributorStats.email := email (author commit);
     ContributorStats.totalCommits := 0;
     ContributorStats.totalAdditions := 0;
     ContributorStats.totalDeletions := 0;
     ContributorStats.estimatedHours := 0;
     ContributorStats.aiCommitPercentage := 0;
     ContributorStats.firstCommit := date (author commit);
     ContributorStats.lastCommit := date (author commit);
     ContributorStats.commitDays := [] |}.

Definition countCommit (commit : CommitAnalysis)
    (st : ContributorStats.t) : ContributorStats.t :=
  let commitDate := commitDay commit in
  let when := date (author commit) in
  {| ContributorStats.name := ContributorStats.name st;
     ContributorStats.email := ContributorStats.email st;
     ContributorStats.totalCommits := S (ContributorStats.totalCommits st);
     ContributorStats.totalAdditions :=
       (ContributorStats.totalAdditions st + additions (stats commit))%float;
     ContributorStats.totalDeletions :=
       (ContributorStats.totalDeletions st + deletions (stats commit))%float;
     ContributorStats.estimatedHours := ContributorStats.estimatedHours st;
     ContributorStats.aiCommitPercentage :=
       ContributorStats.aiCommitPercentage st;
     ContributorStats.firstCommit :=
       if PrimFloat.ltb (Date_getTime when)
                        (Date_getTime (ContributorStats.firstCommit st))
       then when else ContributorStats.firstCommit st;
     ContributorStats.lastCommit :=
       if PrimFloat.ltb (Date_getTime (ContributorStats.lastCommit st))
                        (Date_getTime when)
       then when else ContributorStats.lastCommit st;
     ContributorStats.commitDays :=
       if negb (Array_includes (ContributorStats.commitDays st) commitDate)
       then ContributorStats.commitDays st ++ [commitDate]
       else ContributorStats.commitDays st |}.

(** One turn of the loop "Calculate contributor stats". *)
Definition foldContributor (contributorMap : JsMap.t ContributorStats.t)
    (commit : CommitAnalysis) : JsMap.t ContributorStats.t :=
  let key := contributorKey commit in
  let contributorMap :=
    if negb (JsMap.has key contributorMap)
    then JsMap.set key (newContributor commit) contributorMap
    else contributorMap in
  JsMap.update key (countCommit commit) contributorMap.

Definition countAI (commits : list CommitAnalysis) : nat :=
  List.length (filter isAI commits).

Definition percentage (part whole : nat) : float :=
  if (0 <? whole)%nat
  then (Number_ofNat part / Number_ofNat whole * 100)%float
  else 0%float.

(** One turn of the loop "Calculate hours and AI percentages". *)
Definition finishContributor (commits : list CommitAnalysis)
    (entry : jsstring * ContributorStats.t) : jsstring * ContributorStats.t :=
  let '(key, st) := entry in
  let contributorCommits :=
    filter (fun c => String_eqb (contributorKey c) key) commits in
  let aiCommits := countAI contributorCommits in
  (key,
   {| ContributorStats.name := ContributorStats.name st;
      ContributorStats.email := ContributorStats.email st;
      ContributorStats.totalCommits := ContributorStats.totalCommits st;
      ContributorStats.totalAdditions := ContributorStats.totalAdditions st;
      ContributorStats.totalDeletions := ContributorStats.totalDeletions st;
      ContributorStats.estimatedHours :=
        estimateWorkHours Date_getTime contributorCommits defaultTimeWindow;
      ContributorStats.aiCommitPercentage :=
        percentage aiCommits (ContributorStats.totalCommits st);
      ContributorStats.firstCommit := ContributorStats.firstCommit st;
      ContributorStats.lastCommit := ContributorStats.lastCommit st;
      ContributorStats.commitDays := ContributorStats.commitDays st |}).

Definition contributorMapOf (commits : list CommitAnalysis)
    : JsMap.t ContributorStats.t :=
  map (finishContributor commits)
      (fold_left foldContributor commits []).

Definition newDay (day : jsstring) : TimelineStats.t :=
  {| TimelineStats.date := day;
     TimelineStats.commits := 0;
     TimelineStats.additions := 0;
     TimelineStats.deletions := 0;
     TimelineStats.aiCommits := 0;
     TimelineStats.estimatedHours := 0;
     TimelineStats.contributors := [] |}.

Definition countOnDay (commit : CommitAnalysis)
    (tl : TimelineStats.t) : TimelineStats.t :=
  {| TimelineStats.date := TimelineStats.date tl;
     TimelineStats.commits := S (TimelineStats.commits tl);
     TimelineStats.additions :=
       (TimelineStats.additions tl + additions (stats commit))%float;
     TimelineStats.deletions :=
       (TimelineStats.deletions tl + deletions (stats commit))%float;
     TimelineStats.aiCommits :=
       if isAI commit then S (TimelineStats.aiCommits tl)
       else TimelineStats.aiCommits tl;
     TimelineStats.estimatedHours := TimelineStats.estimatedHours tl;
     TimelineStats.contributors :=
       if negb (Array_includes (TimelineStats.contributors tl)
                               (name (author commit)))
       then TimelineStats.contributors tl ++ [name (author commit)]
       else TimelineStats.contributors tl |}.

(** One turn of the loop "Create timeline data". *)
Definition foldTimeline (timelineMap : JsMap.t TimelineStats.t)
    (commit : CommitAnalysis) : JsMap.t TimelineStats.t :=
  let day := commitDay commit in
  let timelineMap :=
    if negb (JsMap.has day timelineMap)
    then JsMap.set day (newDay day) timelineMap
    else timelineMap in
  JsMap.update day (countOnDay commit) timelineMap.

(** One turn of the loop "Calculate daily hours". *)
Definition finishDay (commits : list CommitAnalysis)
    (entry : jsstring * TimelineStats.t) : jsstring * TimelineStats.t :=
  let '(day, tl) := entry in
  let dayCommits := filter (fun c => String_eqb (commitDay c) day) commits in
  (day,
   {| TimelineStats.date := TimelineStats.date tl;
      TimelineStats.commits := TimelineStats.commits tl;
      TimelineStats.additions := TimelineStats.additions tl;
      TimelineStats.deletions := TimelineStats.deletions tl;
      TimelineStats.aiCommits := TimelineStats.aiCommits tl;
      TimelineStats.estimatedHours :=
        estimateWorkHours Date_getTime dayCommits defaultTimeWindow;
      TimelineStats.contributors := TimelineStats.contributors tl |}).

Definition timelineMapOf (commits : list CommitAnalysis)
    : JsMap.t TimelineStats.t :=
  map (finishDay commits) (fold_left foldTimeline commits []).

Definition byTotalCommitsDescending (a b : ContributorStats.t) : bool :=
  (ContributorStats.totalCommits a <? ContributorStats.totalCommits b)%nat.

Definition byDayAscending (a b : TimelineStats.t) : bool :=
  PrimFloat.ltb 0 (Date_getTime (TimelineStats.date a) -
                   Date_getTime (TimelineStats.date b)).

Definition byDateDescending (a b : CommitAnalysis) : bool :=
  PrimFloat.ltb 0 (Date_getTime (date (author b)) -
                   Date_getTime (date (author a))).

(** Everything of [analyzeCommitHistory] after the commits have been
    classified. *)
Definition summarize (commits : list CommitAnalysis) : CommitHistory.t :=
  let contributors :=
    Array_sort byTotalCommitsDescending
               (JsMap.values (contributorMapOf commits)) in
  let timeline :=
    Array_sort byDayAscending (JsMap.values (timelineMapOf commits)) in
  let totalEstimatedHours :=
    fold_left (fun sum c => (sum + ContributorStats.estimatedHours c)%float)
              contributors 0%float in
  let aiCommits := countAI commits in
  let sortedDates :=
    Array_sort (fun a b => String_ltb b a)
               (map (fun c => date (author c)) commits) in
  {| CommitHistory.totalCommits := List.length commits;
     CommitHistory.commits := Array_sort byDateDescending commits;
     CommitHistory.contributors := contributors;
     CommitHistory.timeline := timeline;
     CommitHistory.totalEstimatedHours := totalEstimatedHours;
     CommitHistory.aiCommitPercentage :=
       percentage aiCommits (List.length commits);
     CommitHistory.projectStartDate := hd [] sortedDates;
     CommitHistory.projectEndDate := last sortedDates [] |}.

Definition emptyHistory : CommitHistory.t :=
  {| CommitHistory.totalCommits := 0;
     CommitHistory.commits := [];
     CommitHistory.contributors := [];
     CommitHistory.timeline := [];
     CommitHistory.totalEstimatedHours := 0;
     CommitHistory.aiCommitPercentage := 0;
     CommitHistory.projectStartDate := [];
     CommitHistory.projectEndDate := [] |}.
End Aggregation.

(** ** Asynchronous code

    An [async] function is a function of the state of the outside world
    (the repository host) that completes normally or throws. *)

Inductive JsError : Type :=
| Error (message : jsstring)
| Rejection (reason : jsstring).

Inductive Completion (A : Type) : Type :=
| Normal (a : A)
| Throw (e : JsError).

Arguments Normal {A} a.
Arguments Throw {A} e.

Definition Async (World A : Type) : Type := World -> Completion A * World.

Section AsyncOps.
Variable World : Type.

Definition ret {A} (a : A) : Async World A := fun w => (Normal a, w).

Definition throw {A} (e : JsError) : Async World A := fun w => (Throw e, w).

Definition bind {A B} (m : Async World A) (k : A -> Async World B)
    : Async World B :=
  fun w =>
    match m w with
    | (Normal a, w') => k a w'
    | (Throw e, w') => (Throw e, w')
    end.

(** [try { m } catch (error) { handler }] *)
Definition tryCatch {A} (m : Async World A) (handler : JsError -> Async World A)
    : Async World A :=
  fun w =>
    match m w with
    | (Normal a, w') => (Normal a, w')
    | (Throw e, w') => handler e w'
    end.

(** [for (const x of xs) { acc = body(acc, x) }] *)
Fixpoint forEach {A S} (xs : list A) (acc : S)
    (body : S -> A -> Async World S) : Async World S :=
  match xs with
  | [] => ret acc
  | x :: xs' => bind (body acc x) (fun acc' => forEach xs' acc' body)
  end.

(** The requests of [Promise.all(xs.map(f))], answered in list order. *)
Fixpoint mapAll {A B} (f : A -> Async World B) (xs : list A)
    : Async World (list B) :=
  match xs with
  | [] => ret []
  | x :: xs' =>
      bind (f x) (fun y => bind (mapAll f xs') (fun ys => ret (y :: ys)))
  end.

(** [m] completes normally in every state of the world. *)
Definition settles {A} (m : Async World A) : Prop :=
  forall w, exists a w', m w = (Normal a, w').
End AsyncOps.

Declare Scope async_scope.
Delimit Scope async_scope with async.
Notation "x <- m ;; k" := (bind m (fun x => k))
  (at level 100, m at next level, right associativity) : async_scope.
Notation "' pat <- m ;; k" := (bind m (fun x => match x with pat => k end))
  (at level 100, pat pattern, m at next level, right associativity)
  : async_scope.

(** ** The repository host *)

Inductive FileType : Type := file | dir.

Module GitHubFile.
Record t : Type := {
  name : jsstring;
  path : jsstring;
  type : FileType;
  download_url : option jsstring;
  size : N;
  branch : option jsstring
}.
End GitHubFile.

Record GitHubBranch : Type := {
  branch_name : jsstring;
  commit_sha : jsstring
}.

Record GitHubParent : Type := {
  full_name : jsstring;
  html_url : jsstring
}.

Record GitHubRepo : Type := {
  fork : bool;
  parent : option GitHubParent
}.

Record GitCommit : Type := {
  commit_message : jsstring;
  commit_author : Person;
  commit_committer : Person
}.

Record GitHubCommit : Type := {
  gh_sha : jsstring;
  gh_commit : GitCommit;
  gh_html_url : jsstring;
  gh_stats : option Stats
}.

(** What the contents endpoint answers: a listing, or a single entry when
    the path names a file ([Array.isArray(data) ? data : [data]]). *)
Inductive ContentsData : Type :=
| Listing (entries : list GitHubFile.t)
| Single (entry : GitHubFile.t).

(** The body of the single-commit endpoint, of which only [stats] is read. *)
Record CommitDetail : Type := {
  detail_stats : option Stats
}.

(** Modelled from the spec: the result type of the external line
    classifier [analyzeCode] of [./aiDetection], which is not part of this
    file.  The fields are those the analyzer reads: the line counts, the
    confidence and AI percentage of the file, and per line the [isAI] flag
    and the list of reason strings. *)
Record LineAnalysis : Type := {
  line_isAI : bool;
  line_reasons : list jsstring
}.

Record AnalysisResult : Type := {
  totalLines : float;
  aiLines : float;
  humanLines : float;
  aiPercentage : float;
  overallConfidence : float;
  lineAnalysis : list LineAnalysis
}.

(** A response of [fetch]: [ok] is derived from the status as the Fetch
    standard defines it; [body] is what [response.json()] (or
    [response.text()]) settles to, already of the type the code reads it
    at. *)
Record Response (B : Type) : Type := {
  status : N;
  statusText : jsstring;
  body : Completion B
}.

Definition ok {B} (response : Response B) : bool :=
  (200 <=? status response)%N && (status response <=? 299)%N.

(** The capabilities the analyzer consumes: [fetch] at the endpoints it
    calls, each taking the URL, and the external classifier.  A call
    throws when the promise of [fetch] rejects. *)
Record Remote (World : Type) : Type := {
  fetch_repo : jsstring -> Async World (Response GitHubRepo);
  fetch_branches : jsstring -> Async World (Response (list GitHubBranch));
  fetch_contents : jsstring -> Async World (Response ContentsData);
  fetch_text : jsstring -> Async World (Response jsstring);
  fetch_commits : jsstring -> Async World (Response (list GitHubCommit));
  fetch_commit : jsstring -> Async World (Response CommitDetail);
  analyzeCode : jsstring -> jsstring -> Async World AnalysisResult
}.

(** ** Paths: language table and filters *)

Definition LANGUAGE_MAP : list (jsstring * jsstring) :=
  map (fun kv => (js (fst kv), js (snd kv)))
    [ (".js", "javascript"); (".jsx", "jsx"); (".ts", "typescript");
      (".tsx", "tsx"); (".py", "python"); (".java", "java"); (".cpp", "cpp");
      (".cc", "cpp"); (".cxx", "cpp"); (".c++", "cpp"); (".cs", "csharp");
      (".go", "go"); (".rs", "rust"); (".php", "php"); (".rb", "ruby");
      (".swift", "swift"); (".kt", "kotlin"); (".scala", "scala");
      (".sh", "bash"); (".sql", "sql"); (".html", "html"); (".css", "css");
      (".scss", "scss"); (".sass", "sass"); (".json", "json");
      (".yaml", "yaml"); (".yml", "yaml"); (".xml", "xml");
      (".md", "markdown") ].

(** [s.match(/\.[^.]*$/)?.[0]]: the text from the last dot on. *)
Fixpoint matchExtension (s : jsstring) : option jsstring :=
  match s with
  | [] => None
  | c :: s' =>
      match matchExtension s' with
      | Some ext => Some ext
      | None => if N.eqb c (ch ".") then Some s else None
      end
  end.

Definition getLanguageFromPath (filePath : jsstring) : jsstring :=
  match matchExtension (String_toLowerCase filePath) with
  | Some ext =>
      match JsMap.get ext LANGUAGE_MAP with
      | Some language => language
      | None => js "text"
      end
  | None => js "text"
  end.

Definition textExtensions : list jsstring :=
  map js
    [ ".js"; ".jsx"; ".ts"; ".tsx"; ".py"; ".java"; ".cpp"; ".cc"; ".cxx";
      ".c++";
      ".cs"; ".go"; ".rs"; ".php"; ".rb"; ".swift"; ".kt"; ".scala"; ".vue";
      ".svelte";
      ".html"; ".css"; ".scss"; ".sass"; ".md"; ".mdx"; ".txt"; ".json";
      ".yaml"; ".yml";
      ".xml"; ".sh"; ".bash"; ".zsh"; ".fish"; ".ps1"; ".bat"; ".cmd"; ".sql";
      ".r";
      ".dart"; ".lua"; ".perl"; ".pl"; ".clj"; ".cljs"; ".elm"; ".ex"; ".exs";
      ".fs";
      ".fsx"; ".fsi"; ".ml"; ".mli"; ".hs"; ".lhs"; ".jl"; ".nim"; ".cr"; ".d";
      ".pas";
      ".pp"; ".dpr"; ".dfm"; ".inc"; ".asm"; ".s"; ".S"; ".dockerfile";
      ".cmake";
      ".mk"; ".makefile"; ".gradle"; ".sbt"; ".pom"; ".csproj"; ".fsproj";
      ".vbproj";
      ".vcxproj"; ".pbxproj"; ".xcconfig"; ".plist"; ".ini"; ".cfg"; ".conf";
      ".config";
      ".toml"; ".lock"; ".env"; ".gitignore"; ".gitattributes";
      ".editorconfig" ].

Definition re (src : string) (r : regex) : RegExp :=
  {| source := src; pattern := r; flag_i := false; flag_u := false |}.

Definition scriptSuffix : regex := words ["js"; "ts"; "jsx"; "tsx"].

Definition mainOrIndex : RegExp :=
  re "\/(main|index)\.(js|ts|jsx|tsx)$"
     (seq [text "/"; words ["main"; "index"]; text "."; scriptSuffix; Eol]).

Definition appFile : RegExp :=
  re "App\.(js|ts|jsx|tsx)$" (seq [text "App."; scriptSuffix; Eol]).

Definition configFile (tool : string) : RegExp :=
  re (tool ++ "\.config\.")%string (text (tool ++ ".config.")%string).

Definition excludePatterns : list RegExp :=
  [ (* Framework UI components (shadcn/ui, etc.) *)
    re "\/components\/ui\/" (text "/components/ui/");
    re "\/ui\/" (text "/ui/");
    re "\.shadcn\/" (text ".shadcn/");
    (* Build and dependency folders *)
    re "node_modules\/" (text "node_modules/");
    re "dist\/" (text "dist/");
    re "build\/" (text "build/");
    re "\.next\/" (text ".next/");
    re "\.nuxt\/" (text ".nuxt/");
    re "coverage\/" (text "coverage/");
    (* Generated files *)
    re "\.generated\." (text ".generated.");
    re "\.gen\." (text ".gen.");
    re "\.d\.ts$" (seq [text ".d.ts"; Eol]);
    re "types\.ts$" (seq [text "types.ts"; Eol]);
    re "index\.d\.ts$" (seq [text "index.d.ts"; Eol]);
    (* Configuration files (usually auto-generated or boilerplate) *)
    configFile "tailwind"; configFile "vite"; configFile "webpack";
    configFile "next"; configFile "nuxt"; configFile "rollup";
    configFile "babel"; configFile "jest"; configFile "vitest";
    configFile "postcss"; configFile "eslint"; configFile "prettier";
    (* Package files *)
    re "package\.json$" (seq [text "package.json"; Eol]);
    re "package-lock\.json$" (seq [text "package-lock.json"; Eol]);
    re "yarn\.lock$" (seq [text "yarn.lock"; Eol]);
    re "pnpm-lock\.yaml$" (seq [text "pnpm-lock.yaml"; Eol]);
    re "bun\.lockb$" (seq [text "bun.lockb"; Eol]);
    (* Common boilerplate files *)
    mainOrIndex;
    appFile;
    (* Test files (unless specifically requested) *)
    re "\.(test|spec)\.(js|ts|jsx|tsx)$"
       (seq [text "."; words ["test"; "spec"]; text "."; scriptSuffix; Eol]);
    re "__tests__\/" (text "__tests__/");
    re "\.test\/" (text ".test/");
    (* Hidden and config folders *)
    re "\/\." (text "/.");
    re "\.git\/" (text ".git/");
    re "\.vscode\/" (text ".vscode/");
    re "\.idea\/" (text ".idea/") ].

Definition shouldAnalyzeFile (filePath : jsstring) : bool :=
  (* Skip files in node_modules *)
  if String_includes filePath (js "node_modules/") then false else
  match matchExtension (String_toLowerCase filePath) with
  | None => false
  | Some ext =>
      if negb (Array_includes textExtensions ext) then false else
      (* Check if file should be excluded *)
      if existsb (fun pattern => RegExp_test pattern filePath) excludePatterns
      then false else
      (* Additional checks for boilerplate files in src folder *)
      if String_includes filePath (js "src/") &&
         (RegExp_test mainOrIndex filePath || RegExp_test appFile filePath)
      then false
      else true
  end.

Definition skipPatterns : list jsstring :=
  map js
    [ (* Dependencies and build outputs *)
      "node_modules"; "dist"; "build"; ".next"; ".nuxt"; "coverage";
      ".nyc_output"; "public"; "static"; "assets";
      (* Framework generated folders *)
      "components/ui"; ".generated"; ".gen";
      (* Version control and IDE *)
      ".git"; ".svn"; ".hg"; ".vscode"; ".idea"; ".vs";
      (* Config folders *)
      ".husky"; ".github"; ".gitlab";
      (* Temp folders *)
      "tmp"; "temp"; ".cache"; ".temp" ].

Definition shouldSkipDirectory (dirPath dirName : jsstring) : bool :=
  (* Check exact matches *)
  if Array_includes skipPatterns dirName then true
  (* Check path patterns *)
  else if String_includes dirPath (js "/node_modules/") ||
          String_includes dirPath (js "/components/ui/") ||
          String_includes dirPath (js "/.") ||
          String_includes dirPath (js "/dist/") ||
          String_includes dirPath (js "/build/")
  then true
  else false.

(** The filter "files we can analyze" of [analyzeGitHubRepository]. *)
Definition truthy (s : option jsstring) : bool :=
  match s with
  | Some (_ :: _) => true
  | _ => false
  end.

Definition analyzeable (f : GitHubFile.t) : bool :=
  shouldAnalyzeFile (GitHubFile.path f) &&
  negb (GitHubFile.size f =? 0)%N &&
  (GitHubFile.size f <? 1024 * 1024)%N &&
  truthy (GitHubFile.download_url f).

(** [s.match(/([^\/]+)\/([^\/]+)/)] tried at the start of [s] only: the
    longest run without a slash, a slash, and again the longest run
    without a slash, both runs not empty. *)
Fixpoint segment (s : jsstring) : jsstring * jsstring :=
  match s with
  | [] => ([], [])
  | c :: s' =>
      if N.eqb c (ch "/") then ([], s)
      else let '(run, rest) := segment s' in (c :: run, rest)
  end.

Definition ownerRepoAt (s : jsstring) : option (jsstring * jsstring) :=
  match segment s with
  | ((_ :: _) as owner, _ :: rest) =>
      match segment rest with
      | ((_ :: _) as repo, _) => Some (owner, repo)
      | _ => None
      end
  | _ => None
  end.

(** [parent.full_name.match(/([^\/]+)\/([^\/]+)/)]: the leftmost match. *)
Fixpoint matchOwnerRepo (s : jsstring) : option (jsstring * jsstring) :=
  match ownerRepoAt s with
  | Some r => Some r
  | None => match s with [] => None | _ :: s' => matchOwnerRepo s' end
  end.

(** [repositoryUrl.match(/github\.com\/([^\/]+)\/([^\/]+)/)] *)
Fixpoint matchRepositoryUrl (s : jsstring) : option (jsstring * jsstring) :=
  match
    (if String_startsWith s (js "github.com/")
     then ownerRepoAt (skipn 11 s) else None)
  with
  | Some r => Some r
  | None => match s with [] => None | _ :: s' => matchRepositoryUrl s' end
  end.

(** ** The report *)

Record FileAnalysis : Type := {
  fa_path : jsstring;
  language : jsstring;
  analysis : AnalysisResult;
  fa_size : N
}.

Record OverallStats : Type := {
  os_totalLines : float;
  os_aiLines : float;
  os_humanLines : float;
  os_aiPercentage : float;
  os_humanPercentage : float;
  os_overallConfidence : float
}.

Record RepositoryAnalysis : Type := {
  repositoryUrl : jsstring;
  originalRepositoryUrl : option jsstring;
  isForked : bool;
  totalFiles : nat;
  analyzedFiles : nat;
  totalBranches : nat;
  files : list FileAnalysis;
  overallStats : OverallStats;
  hasLovableLabel : bool;
  commitAnalysis : option CommitHistory.t
}.

(** ** FileHarvester, commit fetching and the orchestrator *)

Section Pipeline.
Variable World : Type.
Variable remote : Remote World.
Variable Date_getTime : jsstring -> float.
(** [String.prototype.localeCompare], which depends on the locale of
    the engine. *)
Variable localeCompare : jsstring -> jsstring -> float.

Local Open Scope async_scope.

Definition json {B} (response : Response B) : Async World B :=
  fun w => (body response, w).

Definition apiError {B} (response : Response B) : JsError :=
  Error (js "GitHub API error: " ++ Number_toString (status response) ++
         js " " ++ statusText response).

Definition repos (owner repo : jsstring) : jsstring :=
  js "https://api.github.com/repos/" ++ owner ++ js "/" ++ repo.

Definition setBranch (b : jsstring) (f : GitHubFile.t) : GitHubFile.t :=
  {| GitHubFile.name := GitHubFile.name f;
     GitHubFile.path := GitHubFile.path f;
     GitHubFile.type := GitHubFile.type f;
     GitHubFile.download_url := GitHubFile.download_url f;
     GitHubFile.size := GitHubFile.size f;
     GitHubFile.branch := Some b |}.

Definition contentsUrl (owner repo path branch : jsstring) : jsstring :=
  repos owner repo ++ js "/contents/" ++ path ++ js "?ref=" ++ branch.

(** The body of [fetchGitHubContents]; [again] is the function itself
    at its recursive call.  A [catch] that logs and rethrows is the
    identity and is left out here and below. *)
Definition fetchGitHubContentsBody
    (again : jsstring -> Async World (list GitHubFile.t))
    (owner repo path branch : jsstring) : Async World (list GitHubFile.t) :=
  response <- fetch_contents remote (contentsUrl owner repo path branch) ;;
  if negb (ok response) then
    (* Try 'master' branch if 'main' fails *)
    if String_eqb branch (js "main") then again (js "master")
    else throw (apiError response)
  else
    data <- json response ;;
    let files :=
      match data with
      | Listing entries => entries
      | Single entry => [entry]
      end in
    ret (map (setBranch branch) files).

(** The recursion is at most one call deep, since the recursive call is
    on ['master'], which is not ['main']: see
    [fetchGitHubContents_unfold]. *)
Definition fetchGitHubContents (owner repo path branch : jsstring)
    : Async World (list GitHubFile.t) :=
  fetchGitHubContentsBody
    (fetchGitHubContentsBody
       (fun _ => throw (Error (js "unreachable"))) owner repo path)
    owner repo path branch.

Definition fetchGitHubRepo (owner repo : jsstring) : Async World GitHubRepo :=
  response <- fetch_repo remote (repos owner repo) ;;
  if negb (ok response) then throw (apiError response)
  else json response.

Definition fetchGitHubBranches (owner repo : jsstring)
    : Async World (list GitHubBranch) :=
  tryCatch
    (response <- fetch_branches remote (repos owner repo ++ js "/branches") ;;
     if negb (ok response) then throw (apiError response)
     else json response)
    (fun _ => ret []).

Definition fetchFileContent (downloadUrl : jsstring) : Async World jsstring :=
  response <- fetch_text remote downloadUrl ;;
  if negb (ok response)
  then throw (Error (js "Failed to fetch file: " ++
                     Number_toString (status response)))
  else json response.

Fixpoint getAllFiles (maxDepth : nat) (owner repo path branch : jsstring)
    : Async World (list GitHubFile.t) :=
  match maxDepth with
  | O => ret []
  | S depth =>
      contents <- fetchGitHubContents owner repo path branch ;;
      forEach contents []
        (fun allFiles item =>
           match GitHubFile.type item with
           | file => ret (allFiles ++ [item])
           | dir =>
               if negb (shouldSkipDirectory (GitHubFile.path item)
                                            (GitHubFile.name item))
               then
                 (* Recursively fetch directory contents *)
                 tryCatch
                   (subFiles <- getAllFiles depth owner repo
                                  (GitHubFile.path item) branch ;;
                    ret (allFiles ++ subFiles))
                   (fun _ => ret allFiles)
               else ret allFiles
           end)
  end.

Definition isMainOrMaster (b : GitHubBranch) : bool :=
  String_eqb (branch_name b) (js "main") ||
  String_eqb (branch_name b) (js "master").

(** The comparison function of "Prioritize main/master branch".  It is
    not an order when both branches are [main] or [master]; where the two
    then end up is up to the sorting algorithm of the engine, here that
    of [Array_sort], and nothing below depends on it. *)
Definition branchAfter (a b : GitHubBranch) : bool :=
  if isMainOrMaster a then false
  else if isMainOrMaster b then true
  else PrimFloat.ltb 0 (localeCompare (branch_name a) (branch_name b)).

Definition fileKey (f : GitHubFile.t) : jsstring :=
  GitHubFile.path f ++ js "-" ++ Number_toString (GitHubFile.size f).

(** One turn of the inner loop of [getAllFilesFromAllBranches]; the
    state is [seenFiles] and [allFiles]. *)
Definition keepUnseen (st : list jsstring * list GitHubFile.t)
    (f : GitHubFile.t) : list jsstring * list GitHubFile.t :=
  let '(seenFiles, allFiles) := st in
  (* Only add if we haven't seen this exact file before *)
  if negb (Array_includes seenFiles (fileKey f))
  then (seenFiles ++ [fileKey f], allFiles ++ [f])
  else st.

Definition getAllFilesFromAllBranches (owner repo : jsstring)
    : Async World (list GitHubFile.t * nat) :=
  branches <- fetchGitHubBranches owner repo ;;
  (* Prioritize main/master branch *)
  let sortedBranches := Array_sort branchAfter branches in
  st <- forEach sortedBranches ([], [])
          (fun st b =>
             tryCatch
               (branchFiles <- getAllFiles 4 owner repo [] (branch_name b) ;;
                ret (fold_left keepUnseen branchFiles st))
               (fun _ => ret st)) ;;
  ret (snd st, List.length branches).

Definition mentionsLovable (f : GitHubFile.t) : Async World bool :=
  match GitHubFile.download_url f with
  | Some ((_ :: _) as downloadUrl) =>
      tryCatch
        (content <- fetchFileContent downloadUrl ;;
         ret (String_includes (String_toLowerCase content) (js "lovable")))
        (fun _ => ret false)
  | _ => ret false
  end.

(** The loops of [checkForLovableKeyword] return [true] at the first
    hit: once [found], no further file is fetched. *)
Definition checkForLovableKeyword (owner repo : jsstring)
    (allFiles : list GitHubFile.t) : Async World bool :=
  (* Check index.html and package.json in root *)
  let specialFiles := [js "index.html"; js "package.json"] in
  found <- forEach specialFiles false
             (fun found fileName =>
                if found : bool then ret true
                else
                  match find (fun f => String_eqb (GitHubFile.name f) fileName &&
                                       String_eqb (GitHubFile.path f) fileName)
                             allFiles with
                  | Some f => mentionsLovable f
                  | None => ret false
                  end) ;;
  if found : bool then ret true
  else
    (* Check src folder files *)
    let srcFiles :=
      filter (fun f => String_startsWith (GitHubFile.path f) (js "src/"))
             allFiles in
    forEach srcFiles false
      (fun found f => if found : bool then ret true else mentionsLovable f).

Definition setStats (st : Stats) (c : GitHubCommit) : GitHubCommit :=
  {| gh_sha := gh_sha c; gh_commit := gh_commit c;
     gh_html_url := gh_html_url c; gh_stats := Some st |}.

(** The function mapped over a page of commits: "Fetch detailed stats
    for each commit". *)
Definition withStats (owner repo : jsstring) (c : GitHubCommit)
    : Async World GitHubCommit :=
  tryCatch
    (statsResponse <- fetch_commit remote
                        (repos owner repo ++ js "/commits/" ++ gh_sha c) ;;
     statsData <- json statsResponse ;;
     ret (setStats (match detail_stats statsData with
                    | Some st => st
                    | None => noStats
                    end) c))
    (fun _ => ret (setStats noStats c)).

Definition perPage : nat := 100.

(** The loop [while (page <= 10)] with [remaining] turns left. *)
Fixpoint commitPages (remaining : nat) (page : N)
    (owner repo : jsstring) (commits : list GitHubCommit)
    : Async World (list GitHubCommit) :=
  match remaining with
  | O => ret commits
  | S remaining' =>
      response <- fetch_commits remote
                    (repos owner repo ++ js "/commits?page=" ++
                     Number_toString page ++ js "&per_page=" ++
                     Number_toString (N.of_nat perPage)) ;;
      if negb (ok response) then throw (apiError response)
      else
        data <- json response ;;
        if (List.length data =? 0)%nat then ret commits
        else
          commitsWithStats <- mapAll (withStats owner repo) data ;;
          let commits := commits ++ commitsWithStats in
          if (List.length data <? perPage)%nat then ret commits
          else commitPages remaining' (page + 1)%N owner repo commits
  end.

Definition fetchGitHubCommits (owner repo : jsstring)
    : Async World (list GitHubCommit) :=
  commitPages 10 1%N owner repo [].

(** "Analyze each commit" *)
Definition classify (githubCommit : GitHubCommit) : CommitAnalysis :=
  let verdict :=
    Classifier.analyzeCommitMessage
      (commit_message (gh_commit githubCommit)) in
  {| sha := gh_sha githubCommit;
     message := commit_message (gh_commit githubCommit);
     author := commit_author (gh_commit githubCommit);
     committer := commit_committer (gh_commit githubCommit);
     stats := match gh_stats githubCommit with
              | Some st => st
              | None => noStats
              end;
     isAI := Classifier.isAI verdict;
     confidence := Classifier.confidence verdict;
     reasons := Classifier.reasons verdict;
     url := gh_html_url githubCommit |}.

Definition analyzeCommitHistory (owner repo : jsstring)
    : Async World CommitHistory.t :=
  githubCommits <- fetchGitHubCommits owner repo ;;
  if (List.length githubCommits =? 0)%nat then ret emptyHistory
  else ret (summarize Date_getTime (map classify githubCommits)).

(** *** [analyzeGitHubRepository] *)

(** The working identity after "Check if repository is a fork". *)
Record Identity : Type := {
  id_owner : jsstring;
  id_repo : jsstring;
  id_originalRepositoryUrl : option jsstring;
  id_isForked : bool
}.

Definition resolveFork (owner repo : jsstring) : Async World Identity :=
  let unchanged :=
    {| id_owner := owner; id_repo := repo;
       id_originalRepositoryUrl := None; id_isForked := false |} in
  tryCatch
    (repoInfo <- fetchGitHubRepo owner repo ;;
     match fork repoInfo, parent repoInfo with
     | true, Some p =>
         (* This is a fork, analyze the original repository instead *)
         let '(owner', repo') :=
           match matchOwnerRepo (full_name p) with
           | Some parentMatch => parentMatch
           | None => (owner, repo)
           end in
         ret {| id_owner := owner'; id_repo := repo';
                id_originalRepositoryUrl := Some (html_url p);
                id_isForked := true |}
     | _, _ => ret unchanged
     end)
    (fun _ => ret unchanged).

(** The accumulators of the loop "Analyze each file". *)
Record Totals : Type := {
  fileAnalyses : list FileAnalysis;
  sumLines : float;
  sumAiLines : float;
  sumHumanLines : float;
  sumConfidence : float;
  analyzedCount : nat
}.

Definition noTotals : Totals :=
  {| fileAnalyses := []; sumLines := 0; sumAiLines := 0;
     sumHumanLines := 0; sumConfidence := 0; analyzedCount := 0 |}.

(** One turn of that loop.  The filter before it leaves only files with
    a [download_url]. *)
Definition analyzeFile (acc : Totals) (f : GitHubFile.t)
    : Async World Totals :=
  tryCatch
    (content <- fetchFileContent
                  (match GitHubFile.download_url f with
                   | Some downloadUrl => downloadUrl
                   | None => js "undefined"
                   end) ;;
     let language := getLanguageFromPath (GitHubFile.path f) in
     (* Skip empty files *)
     if String_isBlank content then ret acc
     else
       analysis <- analyzeCode remote content language ;;
       ret {| fileAnalyses :=
                fileAnalyses acc ++
                [{| fa_path := GitHubFile.path f;
                    language := language;
                    analysis := analysis;
                    fa_size := GitHubFile.size f |}];
              sumLines := (sumLines acc + totalLines analysis)%float;
              sumAiLines := (sumAiLines acc + aiLines analysis)%float;
              sumHumanLines :=
                (sumHumanLines acc + humanLines analysis)%float;
              sumConfidence :=
                (sumConfidence acc + overallConfidence analysis)%float;
              analyzedCount := S (analyzedCount acc) |})
    (fun _ => ret acc).

Definition hasEvidence (evidence : string) (a : FileAnalysis) : bool :=
  existsb
    (fun line =>
       line_isAI line &&
       existsb (fun r => String_includes r (js evidence)) (line_reasons line))
    (lineAnalysis (analysis a)).

(** The comparison function of "Sort files to prioritize those with
    emoji/invisible character detections". *)
Definition reportAfter (a b : FileAnalysis) : bool :=
  let aHasInvisible := hasEvidence "invisible Unicode" a in
  let bHasInvisible := hasEvidence "invisible Unicode" b in
  if aHasInvisible && negb bHasInvisible then false
  else if negb aHasInvisible && bHasInvisible then true
  else
    let aHasEmoji := hasEvidence "emojis" a in
    let bHasEmoji := hasEvidence "emojis" b in
    if aHasEmoji && negb bHasEmoji then false
    else if negb aHasEmoji && bHasEmoji then true
    else PrimFloat.ltb 0 (aiPercentage (analysis b) -
                          aiPercentage (analysis a)).

Definition overallStatsOf (acc : Totals) : OverallStats :=
  {| os_totalLines := sumLines acc;
     os_aiLines := sumAiLines acc;
     os_humanLines := sumHumanLines acc;
     os_aiPercentage :=
       if PrimFloat.ltb 0 (sumLines acc)
       then (sumAiLines acc / sumLines acc * 100)%float else 0%float;
     os_humanPercentage :=
       if PrimFloat.ltb 0 (sumLines acc)
       then (sumHumanLines acc / sumLines acc * 100)%float else 0%float;
     os_overallConfidence :=
       if (0 <? analyzedCount acc)%nat
       then (sumConfidence acc / Number_ofNat (analyzedCount acc))%float
       else 0%float |}.

Definition invalidUrl : JsError :=
  Error (js "Invalid GitHub repository URL. Please use format: https://github.com/owner/repo").

Definition nothingToAnalyze : JsError :=
  Error (js "No analyzeable code files found in this repository").

Definition analyzeGitHubRepository (repositoryUrl : jsstring)
    (includeCommitHistory : bool) : Async World RepositoryAnalysis :=
  (* Parse GitHub URL *)
  match matchRepositoryUrl repositoryUrl with
  | None => throw invalidUrl
  | Some (owner, repo) =>
      (* Check if repository is a fork *)
      identity <- resolveFork owner repo ;;
      let owner := id_owner identity in
      let repo := id_repo identity in
      (* Fetch all files from all branches in the repository *)
      '(allFiles, totalBranches) <- getAllFilesFromAllBranches owner repo ;;
      (* Check for lovable keyword in src files, index.html, and
         package.json *)
      hasLovableLabel <- checkForLovableKeyword owner repo allFiles ;;
      (* Filter files we can analyze *)
      let analyzeableFiles := filter analyzeable allFiles in
      if (List.length analyzeableFiles =? 0)%nat then throw nothingToAnalyze
      else
        (* Analyze each file *)
        acc <- forEach analyzeableFiles noTotals analyzeFile ;;
        let overallStats := overallStatsOf acc in
        let sortedFiles := Array_sort reportAfter (fileAnalyses acc) in
        (* Analyze commit history if requested *)
        commitAnalysis <-
          (if includeCommitHistory
           then tryCatch
                  (history <- analyzeCommitHistory owner repo ;;
                   ret (Some history))
                  (fun _ => ret None)
           else ret None) ;;
        ret {| repositoryUrl :=
                 if id_isForked identity
                 then match id_originalRepositoryUrl identity with
                      | Some original => original
                      | None => repositoryUrl
                      end
                 else repositoryUrl;
               originalRepositoryUrl :=
                 if id_isForked identity
                 then id_originalRepositoryUrl identity else None;
               isForked := id_isForked identity;
               totalFiles := List.length allFiles;
               analyzedFiles := List.length (fileAnalyses acc);
               totalBranches := totalBranches;
               files := sortedFiles;
               overallStats := overallStats;
               hasLovableLabel := hasLovableLabel;
               commitAnalysis := commitAnalysis |}
  end.

(** The first stages of a run on their own: the files harvested for the
    repository the URL resolves to. *)
Definition harvestedFiles (repositoryUrl : jsstring)
    : Async World (list GitHubFile.t) :=
  match matchRepositoryUrl repositoryUrl with
  | None => throw invalidUrl
  | Some (owner, repo) =>
      identity <- resolveFork owner repo ;;
      '(allFiles, _) <-
        getAllFilesFromAllBranches (id_owner identity) (id_repo identity) ;;
      ret allFiles
  end.

(** The request for the branch list fails: it is rejected, answered
    with a status that is not OK, or its body cannot be read. *)
Definition branchListingFails (owner repo : jsstring) (w : World) : bool :=
  match fetch_branches remote (repos owner repo ++ js "/branches") w with
  | (Throw _, _) => true
  | (Normal response, _) =>
      negb (ok response) ||
      match body response with
      | Throw _ => true
      | Normal _ => false
      end
  end.
End Pipeline.

(** ** A concrete engine and concrete hosts, for the scenarios *)

(** [Date_getTime] on the timestamps the GitHub API emits,
    [YYYY-MM-DDTHH:MM:SSZ], and on the calendar dates [YYYY-MM-DD] cut
    from them (both UTC); NaN on any other text. *)
Module IsoDate.

Definition digit (c : N) : option Z :=
  if (48 <=? c)%N && (c <=? 57)%N then Some (Z.of_N c - 48)%Z else None.

Fixpoint number (ds : jsstring) (acc : Z) : option Z :=
  match ds with
  | [] => Some acc
  | c :: ds' =>
      match digit c with
      | Some d => number ds' (10 * acc + d)%Z
      | None => None
      end
  end.

Definition isLeap (y : Z) : bool :=
  ((y mod 4 =? 0) && negb (y mod 100 =? 0) || (y mod 400 =? 0))%Z.

Definition daysInMonth (y m : Z) : Z :=
  if (m =? 2)%Z then (if isLeap y then 29 else 28)%Z
  else if ((m =? 4) || (m =? 6) || (m =? 9) || (m =? 11))%Z then 30%Z
  else 31%Z.

(** Days from 1970-01-01 to the civil date [y-m-d]. *)
Definition daysFromCivil (y m d : Z) : Z :=
  let y' := (if m <=? 2 then y - 1 else y)%Z in
  let era := (y' / 400)%Z in
  let yoe := (y' - era * 400)%Z in
  let doy := ((153 * (if 2 <? m then m - 3 else m + 9) + 2) / 5 + d - 1)%Z in
  let doe := (yoe * 365 + yoe / 4 - yoe / 100 + doy)%Z in
  (era * 146097 + doe - 719468)%Z.

Definition field (s : jsstring) (from len : nat) : option Z :=
  number (firstn len (skipn from s)) 0%Z.

Definition unitIs (s : jsstring) (at_ : nat) (c : string) : bool :=
  match nth_error s at_ with
  | Some u => N.eqb u (ch c)
  | None => false
  end.

Definition calendarDay (s : jsstring) : option Z :=
  match field s 0 4, field s 5 2, field s 8 2 with
  | Some y, Some m, Some d =>
      if unitIs s 4 "-" && unitIs s 7 "-" &&
         ((1 <=? m) && (m <=? 12) && (1 <=? d) && (d <=? daysInMonth y m))%Z
      then Some (daysFromCivil y m d) else None
  | _, _, _ => None
  end.

Definition timeOfDay (s : jsstring) : option Z :=
  match field s 11 2, field s 14 2, field s 17 2 with
  | Some h, Some mi, Some sec =>
      if unitIs s 10 "T" && unitIs s 13 ":" && unitIs s 16 ":" && unitIs s 19 "Z" &&
         ((h <? 24) && (mi <? 60) && (sec <? 60))%Z
      then Some ((h * 60 + mi) * 60 + sec)%Z else None
  | _, _, _ => None
  end.

Definition getTime (s : jsstring) : float :=
  match List.length s, calendarDay s with
  | 10%nat, Some days => Number_ofZ (days * 86400000)
  | 20%nat, Some days =>
      match timeOfDay s with
      | Some seconds => Number_ofZ ((days * 86400 + seconds) * 1000)
      | None => PrimFloat.nan
      end
  | _, _ => PrimFloat.nan
  end.

End IsoDate.

(** [localeCompare] of a locale that orders by code unit. *)
Definition compareUnits (a b : jsstring) : float :=
  if String_ltb a b then (-1)%float
  else if String_ltb b a then 1%float else 0%float.

(** Hosts without state: the answer depends on the URL only. *)
Definition offline {B} : jsstring -> Async unit (Response B) :=
  fun _ => throw (Rejection (js "Failed to fetch")).

Definition answer {B} (code : N) (phrase : string) (b : Completion B)
    : Async unit (Response B) :=
  ret {| status := code; statusText := js phrase; body := b |}.

Definition readme (b : option jsstring) : GitHubFile.t :=
  {| GitHubFile.name := js "README.md";
     GitHubFile.path := js "README.md";
     GitHubFile.type := file;
     GitHubFile.download_url := Some (js "https://raw.example/README.md");
     GitHubFile.size := 120;
     GitHubFile.branch := b |}.

Definition plainAnalysis : AnalysisResult :=
  {| totalLines := 3; aiLines := 0; humanLines := 3; aiPercentage := 0;
     overallConfidence := 0.5; lineAnalysis := [] |}.

(** A repository whose root holds one README.md of 120 bytes on every
    branch; [branches] is what the branch endpoint answers. *)
Definition readmeHost
    (branches : jsstring -> Async unit (Response (list GitHubBranch)))
    : Remote unit :=
  {| fetch_repo := fun _ =>
       answer 200 "OK" (Normal {| fork := false; parent := None |});
     fetch_branches := branches;
     fetch_contents := fun _ => answer 200 "OK" (Normal (Listing [readme None]));
     fetch_text := fun _ => answer 200 "OK" (Normal (js "# Title"));
     fetch_commits := fun _ => answer 200 "OK" (Normal []);
     fetch_commit := fun _ => offline (js "");
     analyzeCode := fun _ _ => ret plainAnalysis |}.

Definition twoBranches : Remote unit :=
  readmeHost (fun _ =>
    answer 200 "OK"
      (Normal [ {| branch_name := js "main"; commit_sha := js "a1" |};
                {| branch_name := js "dev"; commit_sha := js "b2" |} ])).

(** The same repository when the branch endpoint is rate limited, and
    when the request to it is rejected. *)
Definition branchesForbidden : Remote unit :=
  readmeHost (fun _ => answer 403 "rate limit exceeded" (Normal [])).

Definition branchesUnreachable : Remote unit := readmeHost offline.

(** A host whose contents endpoint answers 500 for [main] and lists the
    README for any other branch. *)
Definition mainUnavailable : Remote unit :=
  {| fetch_repo := offline;
     fetch_branches := offline;
     fetch_contents := fun url =>
       if String_includes url (js "?ref=main")
       then answer 500 "Internal Server Error" (Throw (Rejection (js "no body")))
       else answer 200 "OK" (Normal (Listing [readme None]));
     fetch_text := offline;
     fetch_commits := offline;
     fetch_commit := offline;
     analyzeCode := fun _ _ => throw (Rejection (js "unavailable")) |}.

(** ** What the claims speak of *)

(** The invisible units, one by one: the zero-width space, non-joiner and
    joiner, the byte-order mark, the word joiner, the Mongolian vowel
    separator and the invisible operators. *)
Definition invisibleUnit (c : N) : bool :=
  ((0x200B <=? c) && (c <=? 0x200D) || (c =? 0xFEFF) || (c =? 0x2060) ||
   (c =? 0x180E) || (0x2061 <=? c) && (c <=? 0x2064))%N.

Definition zeroWidthSpace : N := 0x200B.

(** U+200E LEFT-TO-RIGHT MARK: invisible and of zero width, but not a
    unit of the class that [invisibleChars] tests. *)
Definition leftToRightMark : N := 0x200E.

Definition matching (patterns : list RegExp) (message : jsstring) : nat :=
  List.length (filter (fun pattern => RegExp_test pattern message) patterns).

(** The confidence candidates of the signals that a message triggers, in
    the order of the signals. *)
Definition candidates (message : jsstring) : list float :=
  if existsb invisibleUnit message then [1%float]
  else
    (if RegExp_test Classifier.emojiRegex message then [0.9%float] else []) ++
    (let m := matching Classifier.aiPatterns message in
     if (0 <? m)%nat
     then [Math_min 0.8 (0.3 + Number_ofNat m * 0.15)] else []) ++
    (if (100 <? List.length message)%nat then [0.6%float] else []) ++
    (let g := matching Classifier.perfectGrammarIndicators message in
     if (0 <? g)%nat then [(0.5 + Number_ofNat g * 0.1)%float] else []).

Definition maximum (xs : list float) : float := fold_left Math_max xs 0%float.

(** The confidence as a function of the five signals. *)
Definition score (emoji : bool) (m : nat) (long : bool) (g : nat) : float :=
  let confidence := if emoji then Math_max 0 0.9 else 0%float in
  let confidence :=
    if (0 <? m)%nat
    then Math_max confidence (Math_min 0.8 (0.3 + Number_ofNat m * 0.15))
    else confidence in
  let confidence := if long then Math_max confidence 0.6 else confidence in
  if (0 <? g)%nat
  then Math_max confidence (0.5 + Number_ofNat g * 0.1)
  else confidence.

(** The scenario of two commits by one author. *)
Definition ada (when : string) : Person :=
  {| name := js "Ada"; email := js "ada@example.org"; date := js when |}.

Definition loginCommit (id when : string) (lines : float) : GitHubCommit :=
  {| gh_sha := js id;
     gh_commit := {| commit_message := js "feat: add login";
                     commit_author := ada when;
                     commit_committer := ada when |};
     gh_html_url := js "https://github.com/owner/repo/commit/" ++ js id;
     gh_stats := Some {| additions := lines; deletions := 0;
                         total := lines |} |}.

Definition loginCommits : list CommitAnalysis :=
  map classify [ loginCommit "c1" "2024-01-01T10:00:00Z" 20;
                 loginCommit "c2" "2024-01-01T11:00:00Z" 5 ].

Definition featPattern : jsstring :=
  js "Matches AI pattern: ^(feat|fix|docs|style|refactor|test|chore|ci|build|perf)(\(.+\))?\:\s.+$".

(** Two authors whose name and e-mail differ but join to the same text. *)
Definition commitBy (who mail : string) : CommitAnalysis :=
  {| sha := js "0"; message := js "wip";
     author := {| name := js who; email := js mail;
                  date := js "2024-01-01T10:00:00Z" |};
     committer := {| name := js who; email := js mail;
                     date := js "2024-01-01T10:00:00Z" |};
     stats := noStats; isAI := false; confidence := 0; reasons := [];
     url := js "" |}.

Definition sumTotalCommits (cs : list ContributorStats.t) : nat :=
  fold_right (fun c n => (ContributorStats.totalCommits c + n)%nat) O cs.

(** The two nested loops of [getAllFilesFromAllBranches] over the file
    lists of the branches, in the order in which the branches are walked. *)
Definition harvest (branchFiles : list (list GitHubFile.t))
    : list GitHubFile.t :=
  snd (fold_left (fun st files => fold_left keepUnseen files st)
                 branchFiles ([], [])).

Definition samePathSize (f g : GitHubFile.t) : bool :=
  String_eqb (GitHubFile.path g) (GitHubFile.path f) &&
  (GitHubFile.size g =? GitHubFile.size f)%N.

(** The files of a walk that are the first with their key, given the keys
    seen before. *)
Fixpoint firstSeen (seen : list jsstring) (files : list GitHubFile.t)
    : list GitHubFile.t :=
  match files with
  | [] => []
  | f :: files' =>
      if Array_includes seen (fileKey f) then firstSeen seen files'
      else f :: firstSeen (seen ++ [fileKey f]) files'
  end.

(** The number a decimal numeral denotes. *)
Definition valueOf (ds : jsstring) : N :=
  fold_left (fun v d => (10 * v + (d - 48))%N) ds 0%N.

Definition isDigit (c : N) : bool := (48 <=? c)%N && (c <=? 57)%N.

(** A host that serves the two commits of the scenario: the listing
    carries no stats, the single-commit endpoint adds them. *)
Definition withoutStats (c : GitHubCommit) : GitHubCommit :=
  {| gh_sha := gh_sha c; gh_commit := gh_commit c;
     gh_html_url := gh_html_url c; gh_stats := None |}.

Definition loginHost : Remote unit :=
  {| fetch_repo := offline;
     fetch_branches := offline;
     fetch_contents := offline;
     fetch_text := offline;
     fetch_commits := fun _ =>
       answer 200 "OK"
         (Normal [ withoutStats (loginCommit "c1" "2024-01-01T10:00:00Z" 20);
                   withoutStats (loginCommit "c2" "2024-01-01T11:00:00Z" 5) ]);
     fetch_commit := fun url =>
       answer 200 "OK"
         (Normal {| detail_stats :=
                      Some (if String_includes url (js "/commits/c1")
                            then {| additions := 20; deletions := 0;
                                    total := 20 |}
                            else {| additions := 5; deletions := 0;
                                    total := 5 |}) |});
     analyzeCode := fun _ _ => throw (Rejection (js "unavailable")) |}.

(** ** Further definitions for the properties of the remaining code *)

Definition b2n (b : bool) : nat := if b then 1%nat else 0%nat.

(** The plain-text members of [excludePatterns]: a path that contains
    one of these texts matches the pattern. *)
Definition excludedTexts : list string :=
  [ "/components/ui/"; "/ui/"; ".shadcn/"; "node_modules/"; "dist/";
    "build/"; ".next/"; ".nuxt/"; "coverage/"; ".generated."; ".gen.";
    "tailwind.config."; "vite.config."; "webpack.config."; "next.config.";
    "nuxt.config."; "rollup.config."; "babel.config."; "jest.config.";
    "vitest.config."; "postcss.config."; "eslint.config.";
    "prettier.config."; "__tests__/"; ".test/"; "/."; ".git/"; ".vscode/";
    ".idea/" ].

(** The branch tag that [fetchGitHubContents] puts on the entries it
    returns for [branch]: the branch itself, or ['master'] when the
    request was for ['main'] and fell back. *)
Definition taggedFor (b : jsstring) (f : GitHubFile.t) : Prop :=
  GitHubFile.branch f = Some b \/
  (b = js "main" /\ GitHubFile.branch f = Some (js "master")).

Definition pathAndSize (f : GitHubFile.t) : jsstring * N :=
  (GitHubFile.path f, GitHubFile.size f).

(** The files whose content [checkForLovableKeyword] may request:
    index.html and package.json in the root and everything under [src/],
    if they have a download URL. *)
Definition scanned (f : GitHubFile.t) : bool :=
  ((String_eqb (GitHubFile.name f) (js "index.html") &&
    String_eqb (GitHubFile.path f) (js "index.html")) ||
   (String_eqb (GitHubFile.name f) (js "package.json") &&
    String_eqb (GitHubFile.path f) (js "package.json")) ||
   String_startsWith (GitHubFile.path f) (js "src/")) &&
  truthy (GitHubFile.download_url f).

(** The commits that are folded into the aggregate with a given key,
    and the key an aggregate stands for. *)
Definition commitsOf (key : jsstring) (commits : list CommitAnalysis)
    : list CommitAnalysis :=
  filter (fun c => String_eqb (contributorKey c) key) commits.

Definition aggregateKey (st : ContributorStats.t) : jsstring :=
  ContributorStats.name st ++ js "-" ++ ContributorStats.email st.

Definition commitsOn (day : jsstring) (commits : list CommitAnalysis)
    : list CommitAnalysis :=
  filter (fun c => String_eqb (commitDay c) day) commits.

(** The shape both folds of [analyzeCommitHistory] have: create the entry
    of the key on first sight, then update it. *)
Definition upsert {C V : Type} (keyOf : C -> jsstring) (init : C -> V)
    (step : C -> V -> V) (m : JsMap.t V) (c : C) : JsMap.t V :=
  JsMap.update (keyOf c) (step c)
    (if negb (JsMap.has (keyOf c) m)
     then JsMap.set (keyOf c) (init c) m else m).

(** What the entry of a key adds up over the commits with that key, and
    the invariant of the map that [upsert] builds: the keys are distinct,
    a key has an entry exactly when some commit has it, and the entry
    holds the total of its commits. *)
Definition weightTotal {C : Type} (keyOf : C -> jsstring) (weight : C -> nat)
    (k : jsstring) (cs : list C) : nat :=
  list_sum (map weight (filter (fun c => String_eqb (keyOf c) k) cs)).

Definition upsertCounts {C V : Type} (keyOf : C -> jsstring)
    (weight : C -> nat) (measure : V -> nat) (good : jsstring -> V -> Prop)
    (m : JsMap.t V) (cs : list C) : Prop :=
  NoDup (map fst m) /\
  forall k,
    match JsMap.get k m with
    | Some v =>
        measure v = weightTotal keyOf weight k cs /\
        In k (map keyOf cs) /\ good k v
    | None => ~ In k (map keyOf cs)
    end.

(** The distinct texts of a list in the order of their first occurrence,
    as the loops build [commitDays] and the [contributors] of a day. *)
Definition pushNew (seen : list jsstring) (s : jsstring) : list jsstring :=
  if negb (Array_includes seen s) then seen ++ [s] else seen.

Definition distinct (l : list jsstring) : list jsstring :=
  fold_left pushNew l [].

(** The entry of every key is what a property [P] says of the commits
    with that key, and a key without entry has no commit. *)
Definition upsertOwn {C V : Type} (keyOf : C -> jsstring)
    (P : list C -> V -> Prop) (m : JsMap.t V) (cs : list C) : Prop :=
  forall k,
    match JsMap.get k m with
    | Some v => P (filter (fun c => String_eqb (keyOf c) k) cs) v
    | None => filter (fun c => String_eqb (keyOf c) k) cs = []
    end.

(** The [repositoryUrl] field of a report, under a name that a parameter
    called [repositoryUrl] does not hide. *)
Definition reportUrl (report : RepositoryAnalysis) : jsstring :=
  repositoryUrl report.

(** The priority class of a file of the report: invisible-character
    evidence comes first, within it and after it emoji evidence. *)
Definition tier (a : FileAnalysis) : nat :=
  ((if hasEvidence "invisible Unicode" a then 0 else 2) +
   (if hasEvidence "emojis" a then 0 else 1))%nat.

Definition isFile (f : GitHubFile.t) : bool :=
  match GitHubFile.type f with
  | file => true
  | dir => false
  end.

(** A fork: the host of [twoBranches] when the metadata name
    [upstream/tool] as the parent. *)
Definition upstream : GitHubParent :=
  {| full_name := js "upstream/tool";
     html_url := js "https://github.com/upstream/tool" |}.

Definition forkHost : Remote unit :=
  {| fetch_repo := fun _ =>
       answer 200 "OK" (Normal {| fork := true; parent := Some upstream |});
     fetch_branches := fetch_branches twoBranches;
     fetch_contents := fetch_contents twoBranches;
     fetch_text := fetch_text twoBranches;
     fetch_commits := fetch_commits twoBranches;
     fetch_commit := fetch_commit twoBranches;
     analyzeCode := analyzeCode twoBranches |}.

(** The sum of one figure over the analyses of a list of files, added up
    from the left as the loop "Analyze each file" does. *)
Definition sumOver (figure : AnalysisResult -> float)
    (analysed : list FileAnalysis) : float :=
  fold_left (fun sum fa => (sum + figure (analysis fa))%float) analysed
            0%float.

(** The accumulators agree with the list of analyses next to them. *)
Definition totalsAgree (acc : Totals) : Prop :=
  sumLines acc = sumOver totalLines (fileAnalyses acc) /\
  sumAiLines acc = sumOver aiLines (fileAnalyses acc) /\
  sumHumanLines acc = sumOver humanLines (fileAnalyses acc) /\
  sumConfidence acc = sumOver overallConfidence (fileAnalyses acc) /\
  analyzedCount acc = List.length (fileAnalyses acc).

(** ** Hosts that keep a log

    The world of these hosts is the list of the URLs requested so far,
    the oldest first, so that what a call requested can be read off the
    world it leaves. *)

Definition Log : Type := list jsstring.

Definition logged {B} (respond : jsstring -> Response B)
    : jsstring -> Async Log (Response B) :=
  fun url log => (Normal (respond url), log ++ [url]).

Definition unanswered {B} : jsstring -> Async Log (Response B) :=
  fun url log => (Throw (Rejection (js "Failed to fetch")), log ++ [url]).

(** A host whose contents endpoint answers every request with [respond];
    no other endpoint answers. *)
Definition contentsHost (respond : jsstring -> Response ContentsData)
    : Remote Log :=
  {| fetch_repo := unanswered;
     fetch_branches := unanswered;
     fetch_contents := logged respond;
     fetch_text := unanswered;
     fetch_commits := unanswered;
     fetch_commit := unanswered;
     analyzeCode := fun _ _ => throw (Rejection (js "unavailable")) |}.

(** The contents endpoint answers 200 OK with a body that is not JSON. *)
Definition unreadableContents : Remote Log :=
  contentsHost (fun _ =>
    {| status := 200; statusText := js "OK";
       body := Throw (Rejection (js "Unexpected token < in JSON")) |}).

(** The contents endpoint answers 404 for [main] and lists the README
    for any other branch. *)
Definition mainNotFound : Remote Log :=
  contentsHost (fun url =>
    if String_includes url (js "?ref=main")
    then {| status := 404; statusText := js "Not Found";
            body := Throw (Rejection (js "no body")) |}
    else {| status := 200; statusText := js "OK";
            body := Normal (Listing [readme None]) |}).

(** The contents endpoint does not answer at all. *)
Definition contentsUnreachable : Remote Log :=
  {| fetch_repo := unanswered;
     fetch_branches := unanswered;
     fetch_contents := unanswered;
     fetch_text := unanswered;
     fetch_commits := unanswered;
     fetch_commit := unanswered;
     analyzeCode := fun _ _ => throw (Rejection (js "unavailable")) |}.

(** The entries of an answer of the contents endpoint
    ([Array.isArray(data) ? data : [data]]). *)
Definition entriesOf (data : ContentsData) : list GitHubFile.t :=
  match data with
  | Listing entries => entries
  | Single entry => [entry]
  end.

(** A host on which most requests fail: the metadata are not answered,
    the contents of [dev] are answered 500, no file can be downloaded,
    the classifier and the commit endpoints fail.  The branch list and
    the listing of [main], with its README, are answered. *)
Definition flakyHost : Remote unit :=
  {| fetch_repo := offline;
     fetch_branches := fetch_branches twoBranches;
     fetch_contents := fun url =>
       if String_includes url (js "?ref=dev")
       then answer 500 "Internal Server Error" (Throw (Rejection (js "no body")))
       else answer 200 "OK" (Normal (Listing [readme None]));
     fetch_text := offline;
     fetch_commits := offline;
     fetch_commit := offline;
     analyzeCode := fun _ _ => throw (Rejection (js "unavailable")) |}.


(** The file lists that the loop over the branches of
    [getAllFilesFromAllBranches] obtains from [getAllFiles], branch by
    branch in the order given, each walk starting in the world that the
    one before it left; a branch whose walk throws gives no file. *)
Fixpoint branchWalks {World : Type} (remote : Remote World)
    (owner repo : jsstring) (branches : list GitHubBranch) (w : World)
    : list (list GitHubFile.t) * World :=
  match branches with
  | [] => ([], w)
  | b :: rest =>
      let '(outcome, w1) :=
        getAllFiles remote 4 owner repo [] (branch_name b) w in
      let '(walks, w') := branchWalks remote owner repo rest w1 in
      (match outcome with
       | Normal branchFiles => branchFiles
       | Throw _ => []
       end :: walks, w')
  end.

(** A source file and a directory of a listing. *)
Definition sourceFile (name : string) : GitHubFile.t :=
  {| GitHubFile.name := js name;
     GitHubFile.path := js name;
     GitHubFile.type := file;
     GitHubFile.download_url := Some (js "https://raw.example/" ++ js name);
     GitHubFile.size := 64;
     GitHubFile.branch := None |}.

Definition directory (name : string) : GitHubFile.t :=
  {| GitHubFile.name := js name;
     GitHubFile.path := js name;
     GitHubFile.type := dir;
     GitHubFile.download_url := None;
     GitHubFile.size := 0;
     GitHubFile.branch := None |}.

(** A host that answers every request for contents with the same
    listing and logs it. *)
Definition listingHost (entries : list GitHubFile.t) : Remote Log :=
  contentsHost (fun _ =>
    {| status := 200; statusText := js "OK";
       body := Normal (Listing entries) |}).

(** A repository with three source files on its one branch.  The text
    of a file is its URL; the classifier flags a line of [hidden.ts] for
    invisible characters and a line of [emoji.ts] for emojis, and finds
    nothing in [plain.ts], which is listed first. *)
Definition flagged (reason : string) : AnalysisResult :=
  {| totalLines := 3; aiLines := 1; humanLines := 2; aiPercentage := 33;
     overallConfidence := 0.9;
     lineAnalysis := [ {| line_isAI := true;
                          line_reasons := [js reason] |} ] |}.

Definition evidenceHost : Remote unit :=
  {| fetch_repo := fun _ =>
       answer 200 "OK" (Normal {| fork := false; parent := None |});
     fetch_branches := fun _ =>
       answer 200 "OK"
         (Normal [ {| branch_name := js "main"; commit_sha := js "a1" |} ]);
     fetch_contents := fun _ =>
       answer 200 "OK"
         (Normal (Listing [ sourceFile "plain.ts"; sourceFile "emoji.ts";
                            sourceFile "hidden.ts" ]));
     fetch_text := fun url => answer 200 "OK" (Normal url);
     fetch_commits := fun _ => answer 200 "OK" (Normal []);
     fetch_commit := fun _ => offline (js "");
     analyzeCode := fun content _ =>
       if String_includes content (js "hidden")
       then ret (flagged "Contains invisible Unicode characters")
       else if String_includes content (js "emoji")
            then ret (flagged "Contains emojis")
            else ret plainAnalysis |}.

(** * Properties *)

(** ** The matcher on a single character class *)

Lemma searchFrom_class (i negated : bool) (ranges : list (N * N)) :
  forall (s : list N) (prev : option N),
    searchFrom i (Class negated ranges) prev s =
    existsb (fun c => xorb negated (inRanges ranges c)) s.
Proof.
  induction s as [|c s IH]; intros prev; simpl.
  - reflexivity.
  - rewrite IH, andb_true_r. reflexivity.
Qed.

(** A pattern that is plain text, without the [i] flag, is found exactly
    where [String.prototype.includes] finds the text. *)
Lemma matchAt_text (t : string) :
  forall (s : list N) (prev : option N),
    matchAt false (text t) prev s (fun _ _ => true) =
    String_startsWith s (js t).
Proof.
  unfold text, js.
  induction (list_ascii_of_string t) as [|a l IH]; intros s prev.
  - destruct s; reflexivity.
  - destruct s as [|c s];
      cbn [fold_right map matchAt String_startsWith step]; [reflexivity|].
    unfold litMatches. rewrite IH, (N.eqb_sym c). reflexivity.
Qed.

Lemma searchFrom_text (t : string) :
  forall (s : list N) (prev : option N),
    searchFrom false (text t) prev s = String_includes s (js t).
Proof.
  induction s as [|c s IH]; intros prev; cbn [searchFrom String_includes];
    rewrite matchAt_text; [reflexivity|].
  rewrite IH. reflexivity.
Qed.

Lemma excludePattern_components (filePath : jsstring) :
  RegExp_test (re "\/components\/ui\/" (text "/components/ui/")) filePath =
  String_includes filePath (js "/components/ui/").
Proof. apply searchFrom_text. Qed.

(** The matcher on the expressions of the classifier. *)
Example conventional_commit_matches :
  map (fun m => RegExp_test (hd Classifier.invisibleChars Classifier.aiPatterns)
                            (js m))
      ["feat: add login"; "Fix(parser): handle empty input"; "feat:add login";
       "feature: add login"; " feat: add login"; "docs(): x"] =
  [true; true; false; false; false; false].
Proof. vm_compute. reflexivity. Qed.

Example imperative_verb_matches :
  map (fun m => RegExp_test (nth 1 Classifier.aiPatterns Classifier.invisibleChars)
                            (js m))
      ["Add tests"; "update README"; "Added tests"; "add"; "re-add tests"] =
  [true; true; false; false; false].
Proof. vm_compute. reflexivity. Qed.

Example grammar_indicators_match :
  map (fun m => map (fun indicator => RegExp_test indicator (js m))
                    Classifier.perfectGrammarIndicators)
      ["Fixed it."; "fixed. it."; "we implement it"; "reimplemented";
       "Moreover, it works!"; "?"] =
  [ [true; false; false]; [false; false; false]; [false; true; false];
    [false; false; false]; [true; false; true]; [false; false; false] ].
Proof. vm_compute. reflexivity. Qed.

(** U+1F389 as the surrogate pair D83C DF89, U+2728 and a lone
    surrogate. *)
Example emoji_matches :
  map (RegExp_test Classifier.emojiRegex)
      [ [0xD83C; 0xDF89]%N ++ js " release"; js "sparkles " ++ [0x2728%N];
        [0xD83C%N] ++ js "x"; js "plain" ] =
  [true; true; false; false].
Proof. vm_compute. reflexivity. Qed.

Lemma invisibleUnit_class (c : N) :
  inRanges [(0x200B, 0x200D); (0xFEFF, 0xFEFF); (0x2060, 0x2060);
            (0x180E, 0x180E); (0x2061, 0x2064)]%N c = invisibleUnit c.
Proof.
  unfold inRanges, invisibleUnit; simpl.
  rewrite orb_false_r.
  replace ((65279 <=? c) && (c <=? 65279))%N with (c =? 65279)%N
    by (destruct (N.eqb_spec c 65279), (N.leb_spec 65279 c),
          (N.leb_spec c 65279); simpl; try reflexivity; lia).
  replace ((8288 <=? c) && (c <=? 8288))%N with (c =? 8288)%N
    by (destruct (N.eqb_spec c 8288), (N.leb_spec 8288 c),
          (N.leb_spec c 8288); simpl; try reflexivity; lia).
  replace ((6158 <=? c) && (c <=? 6158))%N with (c =? 6158)%N
    by (destruct (N.eqb_spec c 6158), (N.leb_spec 6158 c),
          (N.leb_spec c 6158); simpl; try reflexivity; lia).
  rewrite !orb_assoc. reflexivity.
Qed.

Lemma invisibleChars_test (message : jsstring) :
  RegExp_test Classifier.invisibleChars message = existsb invisibleUnit message.
Proof.
  unfold RegExp_test, Classifier.invisibleChars; cbn [flag_i flag_u pattern].
  rewrite searchFrom_class.
  induction message as [|c s IH]; cbn [existsb]; [reflexivity|].
  rewrite IH, invisibleUnit_class. reflexivity.
Qed.

Lemma analyzeCommitMessage_invisible (message : jsstring) :
  existsb invisibleUnit message = true ->
  Classifier.analyzeCommitMessage message =
  {| Classifier.isAI := true;
     Classifier.confidence := 1;
     Classifier.reasons := [js "Contains invisible Unicode characters"] |}.
Proof.
  intros H. unfold Classifier.analyzeCommitMessage.
  rewrite invisibleChars_test, H. reflexivity.
Qed.

(** ** C1 and C2 *)

Lemma countMatches_spec (message : jsstring) (reason : RegExp -> jsstring)
    (patterns : list RegExp) :
  forall (n : nat) (rs : list jsstring),
    Classifier.countMatches message reason patterns (n, rs) =
    ((n + matching patterns message)%nat,
     rs ++ map reason
             (filter (fun pattern => RegExp_test pattern message) patterns)).
Proof.
  unfold Classifier.countMatches, matching.
  induction patterns as [|p ps IH]; intros n rs; cbn [fold_left filter].
  - cbn. rewrite Nat.add_0_r, app_nil_r. reflexivity.
  - destruct (RegExp_test p message); cbn [fst snd].
    + rewrite IH. cbn [List.length map].
      rewrite <- app_assoc, Nat.add_succ_r. reflexivity.
    + apply IH.
Qed.

Lemma matching_le (patterns : list RegExp) (message : jsstring) :
  (matching patterns message <= List.length patterns)%nat.
Proof. unfold matching. apply filter_length_le. Qed.

Lemma analyzeCommitMessage_score (message : jsstring) :
  existsb invisibleUnit message = false ->
  let v := Classifier.analyzeCommitMessage message in
  let c := score (RegExp_test Classifier.emojiRegex message)
                 (matching Classifier.aiPatterns message)
                 (100 <? List.length message)%nat
                 (matching Classifier.perfectGrammarIndicators message) in
  Classifier.confidence v = c /\ Classifier.isAI v = PrimFloat.ltb 0.5 c.
Proof.
  intros Hinv.
  unfold Classifier.analyzeCommitMessage.
  rewrite invisibleChars_test, Hinv.
  unfold score.
  destruct (RegExp_test Classifier.emojiRegex message);
    rewrite countMatches_spec; cbn [Nat.add];
    destruct (100 <? List.length message)%nat;
    rewrite countMatches_spec; cbn [Nat.add];
    destruct (0 <? matching Classifier.aiPatterns message)%nat;
    destruct (0 <? matching Classifier.perfectGrammarIndicators message)%nat;
    split; reflexivity.
Qed.

Lemma score_facts (emoji long : bool) (m g : nat) :
  (m <= 10)%nat -> (g <= 3)%nat ->
  let c := score emoji m long g in
  PrimFloat.leb 0 c = true /\ PrimFloat.leb c 1 = true /\
  c = maximum
        ((if emoji then [0.9%float] else []) ++
         (if (0 <? m)%nat
          then [Math_min 0.8 (0.3 + Number_ofNat m * 0.15)] else []) ++
         (if long then [0.6%float] else []) ++
         (if (0 <? g)%nat then [(0.5 + Number_ofNat g * 0.1)%float] else [])).
Proof.
  intros Hm Hg.
  destruct m as [|[|[|[|[|[|[|[|[|[|[|m]]]]]]]]]]]; [..|exfalso; lia];
    (destruct g as [|[|[|[|g]]]]; [..|exfalso; lia]);
    destruct emoji, long; vm_compute; repeat split; reflexivity.
Qed.

(** *** C1 *)

Lemma score_below_one (emoji long : bool) (m g : nat) :
  (m <= 10)%nat -> (g <= 3)%nat ->
  PrimFloat.ltb (score emoji m long g) 1 = true.
Proof.
  intros Hm Hg.
  destruct m as [|[|[|[|[|[|[|[|[|[|[|m]]]]]]]]]]]; [..|exfalso; lia];
    (destruct g as [|[|[|[|g]]]]; [..|exfalso; lia]);
    destruct emoji, long; vm_compute; reflexivity.
Qed.

(** C1, amended.  A commit message that contains a unit of the class
    the code tests (U+200B to U+200D, U+FEFF, U+2060, U+180E, U+2061 to
    U+2064; the zero-width space is one of them) is classified with
    confidence exactly [1.0] and [isAI = true], and the list of reasons
    has the single entry of the invisible-character signal, whatever
    else the message contains.  A message without a unit of that class
    is scored by the other signals and its confidence is below [1.0],
    whatever other invisible characters it holds. *)
Theorem invisible_character_short_circuit (message : jsstring) :
  let verdict := Classifier.analyzeCommitMessage message in
  (forall c, In c message -> invisibleUnit c = true ->
     verdict =
     {| Classifier.isAI := true;
        Classifier.confidence := 1;
        Classifier.reasons := [js "Contains invisible Unicode characters"] |}) /\
  ((forall c, In c message -> invisibleUnit c = false) ->
   PrimFloat.ltb (Classifier.confidence verdict) 1 = true).
Proof.
  cbv zeta. split.
  - intros c Hin Hc. apply analyzeCommitMessage_invisible.
    apply existsb_exists. exists c. split; assumption.
  - intros Hnone.
    assert (existsb invisibleUnit message = false) as Hinv.
    { destruct (existsb invisibleUnit message) eqn:H; [|reflexivity].
      apply existsb_exists in H. destruct H as (c & Hin & Hc).
      rewrite (Hnone c Hin) in Hc. discriminate. }
    destruct (analyzeCommitMessage_score _ Hinv) as [-> _].
    pose proof (matching_le Classifier.aiPatterns message) as Hm.
    pose proof (matching_le Classifier.perfectGrammarIndicators message) as Hg.
    change (List.length Classifier.aiPatterns) with 10%nat in Hm.
    change (List.length Classifier.perfectGrammarIndicators) with 3%nat in Hg.
    apply score_below_one; assumption.
Qed.

Lemma invisible_character_short_circuit_witness :
  Classifier.analyzeCommitMessage
    (js "fix: typo " ++ [zeroWidthSpace] ++ js "in README") =
  {| Classifier.isAI := true;
     Classifier.confidence := 1;
     Classifier.reasons := [js "Contains invisible Unicode characters"] |}.
Proof.
  apply (proj1 (invisible_character_short_circuit
                  (js "fix: typo " ++ [zeroWidthSpace] ++ js "in README"))
               zeroWidthSpace).
  - apply in_or_app. right. left. reflexivity.
  - reflexivity.
Defined.

(** C1, as stated: every message with a zero-width or invisible control
    character is short-circuited.  It is not: the left-to-right mark
    U+200E is no unit of the class, and a message that holds it is
    scored like the same message without it, here by its one matching
    pattern, below the threshold. *)
Lemma left_to_right_mark_is_not_short_circuited :
  let message := js "fix: typo " ++ [leftToRightMark] ++ js "in README" in
  let verdict := Classifier.analyzeCommitMessage message in
  In leftToRightMark message /\
  Classifier.isAI verdict = false /\
  Classifier.confidence verdict = (0.3 + 1 * 0.15)%float /\
  PrimFloat.ltb (Classifier.confidence verdict) 1 = true /\
  ~ In (js "Contains invisible Unicode characters")
       (Classifier.reasons verdict).
Proof.
  cbv zeta. split; [apply in_or_app; right; left; reflexivity|].
  repeat split; try (vm_compute; reflexivity).
  vm_compute. intros [H|[]]. discriminate H.
Qed.

(** *** C2 *)

(** C2. For every commit message the confidence lies in the closed
    interval from 0 to 1, it is the maximum of the candidates of the
    signals the message triggers (0 when none is triggered), and [isAI]
    is true exactly when the confidence is strictly greater than 0.5. *)
Theorem confidence_range_and_threshold (message : jsstring) :
  let v := Classifier.analyzeCommitMessage message in
  PrimFloat.leb 0 (Classifier.confidence v) = true /\
  PrimFloat.leb (Classifier.confidence v) 1 = true /\
  Classifier.confidence v = maximum (candidates message) /\
  (Classifier.isAI v = true <->
   PrimFloat.ltb 0.5 (Classifier.confidence v) = true).
Proof.
  cbv zeta. unfold candidates.
  destruct (existsb invisibleUnit message) eqn:Hinv.
  - rewrite (analyzeCommitMessage_invisible _ Hinv).
    cbn [Classifier.confidence Classifier.isAI].
    repeat split; vm_compute; reflexivity.
  - destruct (analyzeCommitMessage_score _ Hinv) as [Hc Hai].
    rewrite Hai, Hc.
    pose proof (matching_le Classifier.aiPatterns message) as Hm.
    pose proof (matching_le Classifier.perfectGrammarIndicators message) as Hg.
    change (List.length Classifier.aiPatterns) with 10%nat in Hm.
    change (List.length Classifier.perfectGrammarIndicators) with 3%nat in Hg.
    destruct (score_facts (RegExp_test Classifier.emojiRegex message)
                          (100 <? List.length message)%nat Hm Hg)
      as (H0 & H1 & Hmax).
    repeat split; try assumption; intros H; exact H.
Qed.

(** ** C9 *)

(** C9. The estimate for an empty list of commits is 0, and the estimate
    for a single commit whose [stats.total] is 0 is exactly 0.5: the base
    time of a session start and no size term. *)
Theorem estimateWorkHours_empty_and_single
    (Date_getTime : jsstring -> float) (timeWindow : float)
    (commit : CommitAnalysis) :
  total (stats commit) = 0%float ->
  estimateWorkHours Date_getTime [] timeWindow = 0%float /\
  estimateWorkHours Date_getTime [commit] timeWindow = 0.5%float.
Proof.
  intros Htotal. split; [reflexivity|].
  unfold estimateWorkHours, Array_sort, sessionStep.
  cbn [List.length Nat.eqb fold_left Array_insert].
  rewrite Htotal. reflexivity.
Qed.

Lemma estimateWorkHours_empty_and_single_witness :
  estimateWorkHours IsoDate.getTime [] defaultTimeWindow = 0%float /\
  estimateWorkHours IsoDate.getTime [commitBy "Ada" "ada@example.org"]
                    defaultTimeWindow = 0.5%float.
Proof.
  apply estimateWorkHours_empty_and_single. reflexivity.
Defined.

(** ** C10 *)

(** C10, as stated: both commits have confidence 0.45.  They do not: the
    code adds 0.3 and 0.15 in binary64, whose sum is not the number
    nearest to 0.45. *)
Lemma login_confidence_is_not_0_45 :
  ~ (forall c, In c loginCommits -> confidence c = 0.45%float).
Proof.
  intros H.
  specialize (H (classify (loginCommit "c1" "2024-01-01T10:00:00Z" 20))
                (or_introl eq_refl)).
  apply (f_equal (fun x => PrimFloat.eqb x 0.45)) in H.
  vm_compute in H. discriminate H.
Qed.

(** C10, amended.  On the list of the two commits ["feat: add login"]
    (totals 20 and 5, one hour apart, one author) each message triggers
    the structural-pattern signal with exactly one matching pattern and no
    other signal; the confidence of each is the binary64 sum
    [0.3 + 1 * 0.15], which is 0.44999999999999996, strictly below 0.45
    and below the threshold 0.5, so [isAI] is false for both; the one
    contributor aggregate has [totalCommits = 2] and
    [aiCommitPercentage = 0]. *)
Theorem login_scenario :
  map (fun c => (reasons c, confidence c, isAI c)) loginCommits =
    [ ([featPattern], (0.3 + 1 * 0.15)%float, false);
      ([featPattern], (0.3 + 1 * 0.15)%float, false) ] /\
  (0.3 + 1 * 0.15)%float = 0.44999999999999996%float /\
  PrimFloat.ltb (0.3 + 1 * 0.15) 0.45 = true /\
  map (fun c => (ContributorStats.name c, ContributorStats.email c,
                 ContributorStats.totalCommits c,
                 ContributorStats.aiCommitPercentage c))
      (CommitHistory.contributors (summarize IsoDate.getTime loginCommits)) =
    [ (js "Ada", js "ada@example.org", 2%nat, 0%float) ].
Proof. repeat split; vm_compute; reflexivity. Qed.

(** ** Strings, maps and sorting *)

Lemma String_eqb_eq (a b : jsstring) : String_eqb a b = true <-> a = b.
Proof.
  revert b. induction a as [|x a IH]; intros [|y b]; simpl;
    try (split; intro; (reflexivity || discriminate)).
  rewrite andb_true_iff, N.eqb_eq, IH.
  split; [intros [-> ->]; reflexivity | intros H; inversion H; auto].
Qed.

Lemma String_eqb_refl (a : jsstring) : String_eqb a a = true.
Proof. apply String_eqb_eq. reflexivity. Qed.

Lemma String_eqb_neq (a b : jsstring) : String_eqb a b = false <-> a <> b.
Proof.
  rewrite <- String_eqb_eq. destruct (String_eqb a b); split; congruence.
Qed.

Lemma Array_includes_In (l : list jsstring) (s : jsstring) :
  Array_includes l s = true <-> In s l.
Proof.
  unfold Array_includes. rewrite existsb_exists. split.
  - intros (x & Hin & Heq). apply String_eqb_eq in Heq. subst. assumption.
  - intros Hin. exists s. split; [assumption | apply String_eqb_refl].
Qed.

Section SortFacts.
Variable A : Type.
Variable after : A -> A -> bool.

Lemma Array_insert_perm (x : A) (l : list A) :
  Permutation (Array_insert after x l) (x :: l).
Proof.
  induction l as [|y l IH]; simpl; [reflexivity|].
  destruct (after y x); [reflexivity|].
  rewrite IH. apply perm_swap.
Qed.

Lemma Array_sort_perm (l : list A) : Permutation (Array_sort after l) l.
Proof.
  unfold Array_sort.
  enough (forall acc,
             Permutation (fold_left (fun acc x => Array_insert after x acc)
                                    l acc) (acc ++ l)) as H by apply (H []).
  induction l as [|x l IH]; intros acc; simpl.
  - rewrite app_nil_r. reflexivity.
  - rewrite IH, Array_insert_perm. simpl. apply Permutation_middle.
Qed.
End SortFacts.

Section MapFacts.
Variable V : Type.

Lemma JsMap_get_set (key : jsstring) (v : V) (m : JsMap.t V) :
  JsMap.has key (JsMap.set key v m) = true.
Proof.
  unfold JsMap.has.
  induction m as [|[k v'] m IH]; simpl.
  - rewrite String_eqb_refl. reflexivity.
  - destruct (String_eqb k key) eqn:Hk; simpl; rewrite Hk; auto.
Qed.

Lemma JsMap_set_absent (key : jsstring) (v : V) (m : JsMap.t V) :
  JsMap.has key m = false -> JsMap.set key v m = m ++ [(key, v)].
Proof.
  unfold JsMap.has.
  induction m as [|[k v'] m IH]; simpl; [reflexivity|].
  destruct (String_eqb k key); [discriminate|].
  intros H. rewrite IH by assumption. reflexivity.
Qed.
End MapFacts.

(** ** C4 *)

(** C4, at the failing input.  The key of the contributor map is the text
    [name-email].  The authors ("dev-ops", "x@y.io") and
    ("dev", "ops-x@y.io") differ in name and in e-mail, yet both have the
    key "dev-ops-x@y.io": their commits are folded into one aggregate,
    which carries the name and e-mail of the first and counts both. *)
Theorem joined_contributor_key_collides :
  let c1 := commitBy "dev-ops" "x@y.io" in
  let c2 := commitBy "dev" "ops-x@y.io" in
  name (author c1) <> name (author c2) /\
  email (author c1) <> email (author c2) /\
  contributorKey c1 = contributorKey c2 /\
  map (fun c => (ContributorStats.name c, ContributorStats.email c,
                 ContributorStats.totalCommits c))
      (CommitHistory.contributors (summarize IsoDate.getTime [c1; c2])) =
    [ (js "dev-ops", js "x@y.io", 2%nat) ].
Proof.
  cbv zeta. repeat split; try (vm_compute; reflexivity);
    apply String_eqb_neq; vm_compute; reflexivity.
Qed.

(** What does hold of the key: commits of one author share it, and under
    one display name different e-mails give different keys. *)
Lemma contributorKey_same_name (a b : CommitAnalysis) :
  name (author a) = name (author b) ->
  (contributorKey a = contributorKey b <-> email (author a) = email (author b)).
Proof.
  unfold contributorKey. intros ->. split.
  - intros H. apply app_inv_head in H. apply app_inv_head in H. assumption.
  - intros ->. reflexivity.
Qed.

(** ** C6 *)

Lemma sumTotalCommits_app (l1 l2 : list ContributorStats.t) :
  sumTotalCommits (l1 ++ l2) = (sumTotalCommits l1 + sumTotalCommits l2)%nat.
Proof.
  induction l1 as [|c l1 IH]; simpl; [reflexivity|]. rewrite IH. lia.
Qed.

Lemma sumTotalCommits_perm (l1 l2 : list ContributorStats.t) :
  Permutation l1 l2 -> sumTotalCommits l1 = sumTotalCommits l2.
Proof.
  induction 1; simpl; lia.
Qed.

Lemma sum_update (key : jsstring) (commit : CommitAnalysis)
    (Date_getTime : jsstring -> float) (m : JsMap.t ContributorStats.t) :
  JsMap.has key m = true ->
  sumTotalCommits (JsMap.values (JsMap.update key (countCommit Date_getTime commit) m)) =
  S (sumTotalCommits (JsMap.values m)).
Proof.
  unfold JsMap.has, JsMap.values.
  induction m as [|[k v] m IH]; simpl; [discriminate|].
  destruct (String_eqb k key); simpl.
  - reflexivity.
  - intros H. rewrite IH by assumption. lia.
Qed.

Lemma sum_foldContributor (Date_getTime : jsstring -> float)
    (m : JsMap.t ContributorStats.t) (commit : CommitAnalysis) :
  sumTotalCommits (JsMap.values (foldContributor Date_getTime m commit)) =
  S (sumTotalCommits (JsMap.values m)).
Proof.
  unfold foldContributor.
  destruct (JsMap.has (contributorKey commit) m) eqn:Hhas; simpl.
  - apply sum_update. assumption.
  - rewrite sum_update by apply JsMap_get_set.
    rewrite JsMap_set_absent by assumption.
    unfold JsMap.values. rewrite map_app, sumTotalCommits_app. simpl. lia.
Qed.

Lemma sum_fold (Date_getTime : jsstring -> float)
    (commits : list CommitAnalysis) :
  forall m : JsMap.t ContributorStats.t,
    sumTotalCommits
      (JsMap.values (fold_left (foldContributor Date_getTime) commits m)) =
    (sumTotalCommits (JsMap.values m) + List.length commits)%nat.
Proof.
  induction commits as [|c commits IH]; intros m; simpl.
  - lia.
  - rewrite IH, sum_foldContributor. lia.
Qed.

Lemma sum_finish (Date_getTime : jsstring -> float)
    (commits : list CommitAnalysis) (m : JsMap.t ContributorStats.t) :
  sumTotalCommits
    (JsMap.values (map (finishContributor Date_getTime commits) m)) =
  sumTotalCommits (JsMap.values m).
Proof.
  unfold JsMap.values.
  induction m as [|[k v] m IH]; simpl; [reflexivity|].
  rewrite IH. reflexivity.
Qed.

(** C6. For every list of classified commits (the non-empty ones among
    them) the [totalCommits] of the contributor aggregates add up to the
    number of commits: each commit is counted in exactly one aggregate. *)
Theorem contributor_totals_add_up (Date_getTime : jsstring -> float)
    (commits : list CommitAnalysis) :
  sumTotalCommits
    (CommitHistory.contributors (summarize Date_getTime commits)) =
  List.length commits /\
  CommitHistory.totalCommits (summarize Date_getTime commits) =
  List.length commits.
Proof.
  split; [|reflexivity].
  unfold summarize; cbn [CommitHistory.contributors].
  rewrite (sumTotalCommits_perm (Array_sort_perm _ _)).
  unfold contributorMapOf. rewrite sum_finish, sum_fold. reflexivity.
Qed.

(** ** C5 *)

Lemma valueOf_snoc (ds : jsstring) (d : N) :
  valueOf (ds ++ [d]) = (10 * valueOf ds + (d - 48))%N.
Proof. unfold valueOf. rewrite fold_left_app. reflexivity. Qed.

Lemma isDigit_digit (d : N) : (d < 10)%N -> isDigit (48 + d) = true.
Proof.
  intros H. unfold isDigit. rewrite andb_true_iff, !N.leb_le. lia.
Qed.

Lemma valueOf_digit (d : N) : valueOf [(48 + d)%N] = d.
Proof. unfold valueOf. cbn [fold_left]. lia. Qed.

Lemma digitsOfPos_spec (fuel : nat) :
  forall (n : N) (acc : jsstring),
    (n < 2 ^ N.of_nat (S fuel))%N ->
    exists ds,
      digitsOfPos (S fuel) n acc = ds ++ acc /\
      forallb isDigit ds = true /\ valueOf ds = n.
Proof.
  induction fuel as [|fuel IH]; intros n acc Hn.
  - exists [(48 + n mod 10)%N].
    assert (n < 2)%N as Hlt by exact Hn.
    cbn [digitsOfPos forallb].
    rewrite (N.mod_small n 10), isDigit_digit, valueOf_digit by lia.
    destruct (n <? 10)%N; repeat split.
  - cbn [digitsOfPos].
    destruct (N.ltb_spec n 10) as [Hsmall|Hbig].
    + exists [(48 + n mod 10)%N].
      rewrite (N.mod_small n 10) by lia.
      cbn [forallb]. rewrite isDigit_digit, valueOf_digit by lia.
      repeat split.
    + assert (n mod 10 < 10)%N as Hmod by (apply N.mod_lt; lia).
      assert (n / 10 < 2 ^ N.of_nat (S fuel))%N as Hdiv.
      { apply N.Div0.div_lt_upper_bound.
        replace (N.of_nat (S (S fuel))) with (N.succ (N.of_nat (S fuel)))
          in Hn by lia.
        rewrite N.pow_succ_r' in Hn. lia. }
      destruct (IH (n / 10)%N ((48 + n mod 10)%N :: acc) Hdiv)
        as (ds & Heq & Hdig & Hval).
      exists (ds ++ [(48 + n mod 10)%N]).
      rewrite <- app_assoc. split; [exact Heq|]. split.
      * rewrite forallb_app, Hdig. cbn [forallb].
        rewrite isDigit_digit by assumption. reflexivity.
      * rewrite valueOf_snoc, Hval.
        pose proof (N.Div0.div_mod n 10) as Hdm.
        replace (48 + n mod 10 - 48)%N with (n mod 10)%N
          by (generalize (n mod 10)%N; intros; lia).
        symmetry; exact Hdm.
Qed.

Lemma Number_toString_spec (n : N) :
  forallb isDigit (Number_toString n) = true /\
  valueOf (Number_toString n) = n.
Proof.
  unfold Number_toString.
  destruct (@digitsOfPos_spec (N.to_nat (N.log2 n)) n []) as (ds & Heq & H).
  - destruct n as [|p]; [reflexivity|].
    replace (N.of_nat (S (N.to_nat (N.log2 (N.pos p)))))
      with (N.succ (N.log2 (N.pos p))) by lia.
    apply N.log2_spec. lia.
  - rewrite Heq, app_nil_r. exact H.
Qed.

Lemma split_at_last (x : N) (l1 l2 r1 r2 : list N) :
  ~ In x r1 -> ~ In x r2 ->
  l1 ++ x :: r1 = l2 ++ x :: r2 -> l1 = l2 /\ r1 = r2.
Proof.
  intros H1 H2. revert l2.
  induction l1 as [|a l1 IH]; intros [|b l2] Heq; simpl in Heq.
  - inversion Heq. auto.
  - inversion Heq; subst. exfalso. apply H1.
    apply in_or_app. right. left. reflexivity.
  - inversion Heq; subst. exfalso. apply H2.
    apply in_or_app. right. left. reflexivity.
  - inversion Heq; subst. destruct (IH _ H3) as [-> ->]. auto.
Qed.

Lemma digits_have_no_dash (ds : jsstring) :
  forallb isDigit ds = true -> ~ In (ch "-") ds.
Proof.
  rewrite forallb_forall. intros H Hin. specialize (H _ Hin).
  vm_compute in H. discriminate.
Qed.

(** The key [path-size] determines the path and the size. *)
Lemma fileKey_inj (f g : GitHubFile.t) :
  fileKey f = fileKey g <->
  GitHubFile.path f = GitHubFile.path g /\
  GitHubFile.size f = GitHubFile.size g.
Proof.
  unfold fileKey. split.
  - intros H.
    destruct (Number_toString_spec (GitHubFile.size f)) as [Hdf Hvf].
    destruct (Number_toString_spec (GitHubFile.size g)) as [Hdg Hvg].
    apply split_at_last in H; try (apply digits_have_no_dash; assumption).
    destruct H as [Hp Hs]. split; [assumption|].
    rewrite <- Hvf, <- Hvg, Hs. reflexivity.
  - intros [-> ->]. reflexivity.
Qed.

Lemma samePathSize_key (f g : GitHubFile.t) :
  samePathSize f g = String_eqb (fileKey g) (fileKey f).
Proof.
  unfold samePathSize.
  destruct (String_eqb (fileKey g) (fileKey f)) eqn:Hk.
  - apply String_eqb_eq, fileKey_inj in Hk. destruct Hk as [-> ->].
    rewrite String_eqb_refl, N.eqb_refl. reflexivity.
  - apply String_eqb_neq in Hk. rewrite fileKey_inj in Hk.
    destruct (String_eqb (GitHubFile.path g) (GitHubFile.path f)) eqn:Hp;
      [|reflexivity].
    destruct (N.eqb_spec (GitHubFile.size g) (GitHubFile.size f));
      [|reflexivity].
    apply String_eqb_eq in Hp. exfalso. apply Hk. split; assumption.
Qed.

Lemma keepUnseen_fold (files : list GitHubFile.t) :
  forall (seen : list jsstring) (all : list GitHubFile.t),
    fold_left keepUnseen files (seen, all) =
    (seen ++ map fileKey (firstSeen seen files), all ++ firstSeen seen files).
Proof.
  induction files as [|f files IH]; intros seen all; cbn [fold_left firstSeen].
  - cbn. rewrite !app_nil_r. reflexivity.
  - unfold keepUnseen at 2.
    destruct (Array_includes seen (fileKey f)); cbn [negb].
    + apply IH.
    + rewrite IH. cbn [map]. rewrite <- !app_assoc. reflexivity.
Qed.

Lemma firstSeen_app (l1 l2 : list GitHubFile.t) :
  forall seen,
    firstSeen seen (l1 ++ l2) =
    firstSeen seen l1 ++
    firstSeen (seen ++ map fileKey (firstSeen seen l1)) l2.
Proof.
  induction l1 as [|f l1 IH]; intros seen; cbn [app firstSeen].
  - cbn. rewrite app_nil_r. reflexivity.
  - destruct (Array_includes seen (fileKey f)).
    + apply IH.
    + cbn [map app]. rewrite IH, <- app_assoc. reflexivity.
Qed.

Lemma harvest_fold (branchFiles : list (list GitHubFile.t)) :
  forall (seen : list jsstring) (all : list GitHubFile.t),
    fold_left (fun st files => fold_left keepUnseen files st)
              branchFiles (seen, all) =
    (seen ++ map fileKey (firstSeen seen (List.concat branchFiles)),
     all ++ firstSeen seen (List.concat branchFiles)).
Proof.
  induction branchFiles as [|b bs IH]; intros seen all; cbn [fold_left List.concat].
  - cbn. rewrite !app_nil_r. reflexivity.
  - rewrite keepUnseen_fold, IH, firstSeen_app, map_app, <- !app_assoc.
    reflexivity.
Qed.

Lemma harvest_firstSeen (branchFiles : list (list GitHubFile.t)) :
  harvest branchFiles = firstSeen [] (List.concat branchFiles).
Proof. unfold harvest. rewrite harvest_fold. reflexivity. Qed.

Lemma Array_includes_snoc (seen : list jsstring) (k k' : jsstring) :
  Array_includes (seen ++ [k]) k' =
  Array_includes seen k' || String_eqb k' k.
Proof.
  unfold Array_includes. rewrite existsb_app. cbn [existsb].
  rewrite orb_false_r. reflexivity.
Qed.

Lemma String_eqb_sym (a b : jsstring) : String_eqb a b = String_eqb b a.
Proof.
  destruct (String_eqb b a) eqn:H.
  - apply String_eqb_eq in H. subst. apply String_eqb_refl.
  - apply String_eqb_neq. apply String_eqb_neq in H. congruence.
Qed.

(** Of the files with the path and size of [f], the walk keeps the first,
    unless the key was seen before. *)
Lemma firstSeen_filter (f : GitHubFile.t) (files : list GitHubFile.t) :
  forall seen,
    filter (samePathSize f) (firstSeen seen files) =
    if Array_includes seen (fileKey f) then []
    else match find (samePathSize f) files with
         | Some first => [first]
         | None => []
         end.
Proof.
  induction files as [|g files IH]; intros seen; cbn [firstSeen filter find].
  - destruct (Array_includes seen (fileKey f)); reflexivity.
  - destruct (Array_includes seen (fileKey g)) eqn:Hg.
    + rewrite IH. destruct (Array_includes seen (fileKey f)) eqn:Hf;
        [reflexivity|].
      rewrite samePathSize_key.
      destruct (String_eqb (fileKey g) (fileKey f)) eqn:Hgf; [|reflexivity].
      apply String_eqb_eq in Hgf. congruence.
    + cbn [filter]. rewrite IH, Array_includes_snoc, String_eqb_sym.
      rewrite samePathSize_key.
      destruct (String_eqb (fileKey g) (fileKey f)) eqn:Hgf.
      * apply String_eqb_eq in Hgf. rewrite <- Hgf, Hg, orb_true_r.
        reflexivity.
      * rewrite orb_false_r. reflexivity.
Qed.

Lemma samePathSize_refl (f : GitHubFile.t) : samePathSize f f = true.
Proof. rewrite samePathSize_key. apply String_eqb_refl. Qed.

Lemma firstSeen_covers (files : list GitHubFile.t) :
  forall seen f,
    In f files -> In (fileKey f) (seen ++ map fileKey (firstSeen seen files)).
Proof.
  induction files as [|g files IH]; intros seen f Hin; [destruct Hin|].
  cbn [firstSeen].
  destruct (Array_includes seen (fileKey g)) eqn:Hg.
  - destruct Hin as [->|Hin]; [|apply IH; assumption].
    apply in_or_app. left. apply Array_includes_In. assumption.
  - cbn [map]. destruct Hin as [->|Hin].
    + apply in_or_app. right. left. reflexivity.
    + specialize (IH (seen ++ [fileKey g]) f Hin).
      rewrite <- app_assoc in IH. exact IH.
Qed.

Lemma firstSeen_all_seen (files : list GitHubFile.t) (seen : list jsstring) :
  (forall f, In f files -> In (fileKey f) seen) -> firstSeen seen files = [].
Proof.
  induction files as [|g files IH]; intros H; cbn [firstSeen]; [reflexivity|].
  replace (Array_includes seen (fileKey g)) with true.
  - apply IH. intros f Hf. apply H. right. assumption.
  - symmetry. apply Array_includes_In. apply H. left. reflexivity.
Qed.

Lemma harvest_again (bs more : list (list GitHubFile.t)) :
  (forall files, In files more -> In files bs) ->
  harvest (bs ++ more) = harvest bs.
Proof.
  intros Hsub. rewrite !harvest_firstSeen, concat_app.
  rewrite (firstSeen_app (List.concat bs) (List.concat more)).
  rewrite (@firstSeen_all_seen (List.concat more)); [apply app_nil_r|].
  intros f Hf. apply in_concat in Hf. destruct Hf as (files & Hfiles & Hf).
  apply firstSeen_covers. apply in_concat. exists files.
  split; [apply Hsub; assumption | assumption].
Qed.

Lemma harvest_keeps_first (branchFiles : list (list GitHubFile.t))
    (f : GitHubFile.t) :
  In f (List.concat branchFiles) ->
  exists first,
    find (samePathSize f) (List.concat branchFiles) = Some first /\
    filter (samePathSize f) (harvest branchFiles) = [first].
Proof.
  intros Hin. rewrite harvest_firstSeen, firstSeen_filter. cbn [Array_includes existsb].
  destruct (find (samePathSize f) (List.concat branchFiles)) as [first|] eqn:Hfind.
  - exists first. split; reflexivity.
  - exfalso. pose proof (find_none _ _ Hfind _ Hin) as H.
    rewrite samePathSize_refl in H. discriminate.
Qed.

(** The two loops on their own: the harvest over file lists keeps, of
    all the files with the path and the size of a file [f] of the lists,
    exactly one, the first; a file with the same path and another size
    has its own entry; and harvesting a list again (or all of them
    again) does not change the result. *)
Lemma harvest_by_path_and_size
    (branchFiles : list (list GitHubFile.t)) (f : GitHubFile.t) :
  In f (List.concat branchFiles) ->
  let kept := harvest branchFiles in
  (exists first,
      find (samePathSize f) (List.concat branchFiles) = Some first /\
      filter (samePathSize f) kept = [first]) /\
  (forall g,
      In g (List.concat branchFiles) ->
      GitHubFile.path g = GitHubFile.path f ->
      GitHubFile.size g <> GitHubFile.size f ->
      exists other,
        filter (samePathSize g) kept = [other] /\
        GitHubFile.path other = GitHubFile.path f /\
        GitHubFile.size other = GitHubFile.size g /\
        samePathSize f other = false) /\
  (forall files, In files branchFiles ->
                 harvest (branchFiles ++ [files]) = kept) /\
  harvest (branchFiles ++ branchFiles) = kept.
Proof.
  intros Hf kept. split; [|split; [|split]].
  - apply harvest_keeps_first. assumption.
  - intros g Hg Hpath Hsize.
    destruct (harvest_keeps_first branchFiles g Hg) as (other & Hfind & Hkept).
    exists other. split; [exact Hkept|].
    apply find_some in Hfind. destruct Hfind as [_ Hsame].
    unfold samePathSize in Hsame. apply andb_true_iff in Hsame.
    destruct Hsame as [Hp Hs].
    apply String_eqb_eq in Hp. apply N.eqb_eq in Hs.
    repeat split; try congruence.
    unfold samePathSize. apply andb_false_iff. right.
    apply N.eqb_neq. congruence.
  - intros files Hfiles. apply harvest_again.
    intros files' [<-|[]]. assumption.
  - apply harvest_again. intros files H. exact H.
Qed.

Example readme_on_two_branches_kept_once :
  harvest [[readme (Some (js "main"))]; [readme (Some (js "dev"))]] =
  [readme (Some (js "main"))].
Proof. vm_compute. reflexivity. Qed.

Example readme_of_another_size_kept_too :
  let longer :=
    {| GitHubFile.name := js "README.md"; GitHubFile.path := js "README.md";
       GitHubFile.type := file; GitHubFile.download_url := None;
       GitHubFile.size := 121; GitHubFile.branch := Some (js "dev") |} in
  harvest [[readme (Some (js "main"))]; [longer]] =
  [readme (Some (js "main")); longer].
Proof. vm_compute. reflexivity. Qed.

(** ** Asynchronous code that cannot throw *)

Section Settles.
Variable World : Type.

Lemma settles_ret {A} (a : A) : settles (ret (World := World) a).
Proof. intros w. exists a, w. reflexivity. Qed.

Lemma settles_bind {A B} (m : Async World A) (k : A -> Async World B) :
  settles m -> (forall a, settles (k a)) -> settles (bind m k).
Proof.
  intros Hm Hk w. unfold bind.
  destruct (Hm w) as (a & w' & ->). apply Hk.
Qed.

Lemma settles_tryCatch {A} (m : Async World A)
    (handler : JsError -> Async World A) :
  (forall e, settles (handler e)) -> settles (tryCatch m handler).
Proof.
  intros Hh w. unfold tryCatch.
  destruct (m w) as [[a|e] w'].
  - exists a, w'. reflexivity.
  - apply Hh.
Qed.

Lemma settles_forEach {A S} (xs : list A) (body : S -> A -> Async World S) :
  (forall acc x, settles (body acc x)) ->
  forall acc, settles (forEach xs acc body).
Proof.
  intros Hbody. induction xs as [|x xs IH]; intros acc; cbn [forEach].
  - apply settles_ret.
  - apply settles_bind; [apply Hbody | intros acc'; apply IH].
Qed.
End Settles.

Create HintDb settles.
#[local] Hint Resolve settles_ret settles_bind settles_tryCatch
  settles_forEach : settles.

(** ** C7 *)

Section Contents.
Variable World : Type.
Variable remote : Remote World.

Lemma String_main_master :
  String_eqb (js "master") (js "main") = false /\
  String_eqb (js "main") (js "main") = true.
Proof. split; vm_compute; reflexivity. Qed.

(** On ['master'] the recursive call is not reached. *)
Lemma fetchGitHubContentsBody_master
    (again again' : jsstring -> Async World (list GitHubFile.t))
    (owner repo path : jsstring) (w : World) :
  fetchGitHubContentsBody remote again owner repo path (js "master") w =
  fetchGitHubContentsBody remote again' owner repo path (js "master") w.
Proof.
  unfold fetchGitHubContentsBody, bind.
  destruct (fetch_contents remote _ w) as [[response|e] w'];
    [|reflexivity].
  rewrite (proj1 String_main_master). reflexivity.
Qed.

(** [fetchGitHubContents] satisfies the recursive equation of the
    source. *)
Lemma fetchGitHubContents_unfold (owner repo path branch : jsstring)
    (w : World) :
  fetchGitHubContents remote owner repo path branch w =
  fetchGitHubContentsBody remote (fetchGitHubContents remote owner repo path)
                          owner repo path branch w.
Proof.
  unfold fetchGitHubContents at 1.
  unfold fetchGitHubContentsBody at 1 3, bind.
  destruct (fetch_contents remote _ w) as [[response|e] w'];
    [|reflexivity].
  destruct (negb (ok response)); [|reflexivity].
  destruct (String_eqb branch (js "main")); [|reflexivity].
  unfold fetchGitHubContents. apply fetchGitHubContentsBody_master.
Qed.

Lemma fetchGitHubContents_main_answered (owner repo path : jsstring)
    (w w' : World) (response : Response ContentsData) :
  fetch_contents remote (contentsUrl owner repo path (js "main")) w =
    (Normal response, w') ->
  ok response = false ->
  fetchGitHubContents remote owner repo path (js "main") w =
  fetchGitHubContents remote owner repo path (js "master") w'.
Proof.
  intros Hfetch Hok. rewrite fetchGitHubContents_unfold.
  unfold fetchGitHubContentsBody at 1, bind.
  rewrite Hfetch, Hok, (proj2 String_main_master). reflexivity.
Qed.

Lemma fetchGitHubContents_rejected (owner repo path branch : jsstring)
    (w w' : World) (e : JsError) :
  fetch_contents remote (contentsUrl owner repo path branch) w =
    (Throw e, w') ->
  fetchGitHubContents remote owner repo path branch w = (Throw e, w').
Proof.
  intros Hfetch. rewrite fetchGitHubContents_unfold.
  unfold fetchGitHubContentsBody, bind. rewrite Hfetch. reflexivity.
Qed.

Lemma fetchGitHubContents_answered_ok (owner repo path branch : jsstring)
    (w w' : World) (response : Response ContentsData) :
  fetch_contents remote (contentsUrl owner repo path branch) w =
    (Normal response, w') ->
  ok response = true ->
  fetchGitHubContents remote owner repo path branch w =
  (match body response with
   | Normal data => Normal (map (setBranch branch) (entriesOf data))
   | Throw e => Throw e
   end, w').
Proof.
  intros Hfetch Hok. rewrite fetchGitHubContents_unfold.
  unfold fetchGitHubContentsBody, bind, json, ret.
  rewrite Hfetch, Hok. cbn [negb].
  destruct (body response) as [[entries|entry]|e]; reflexivity.
Qed.

(** C7, amended.  The fallback from [main] to [master] is applied
    exactly when the request for [main] is answered with a status that
    is not OK, be it 404 or any other, a transient 5xx included: the
    call then is the call for [master] in the world after that answer.
    In the two other cases no request for [master] is made: an answer
    with a status that is OK gives the entries of that answer tagged
    [main], or the error of reading its body, and a request that is
    rejected (no response at all) propagates as it is. *)
Theorem fallback_on_any_failed_response (owner repo path : jsstring)
    (w : World) :
  let url := contentsUrl owner repo path (js "main") in
  let forMain := fetchGitHubContents remote owner repo path (js "main") w in
  (forall response w',
      fetch_contents remote url w = (Normal response, w') ->
      ok response = false ->
      forMain = fetchGitHubContents remote owner repo path (js "master") w') /\
  (forall response w',
      fetch_contents remote url w = (Normal response, w') ->
      ok response = true ->
      forMain =
      (match body response with
       | Normal data => Normal (map (setBranch (js "main")) (entriesOf data))
       | Throw e => Throw e
       end, w')) /\
  (forall e w',
      fetch_contents remote url w = (Throw e, w') ->
      forMain = (Throw e, w')).
Proof.
  cbv zeta. split; [|split].
  - intros response w'. apply fetchGitHubContents_main_answered.
  - intros response w'. apply fetchGitHubContents_answered_ok.
  - intros e w'. apply fetchGitHubContents_rejected.
Qed.
End Contents.

(** C7, as stated: a failure of the request for [main] other than "not
    found" does not trigger the fallback.  It does: with a host that
    answers 500 for [main], the call returns the files of [master]. *)
Lemma transient_error_on_main_falls_back :
  exists response,
    fetch_contents mainUnavailable
      (contentsUrl (js "owner") (js "repo") [] (js "main")) tt =
      (Normal response, tt) /\
    status response = 500%N /\
    fetchGitHubContents mainUnavailable (js "owner") (js "repo") []
                        (js "main") tt =
      (Normal [readme (Some (js "master"))], tt).
Proof.
  eexists. split; [vm_compute; reflexivity|].
  split; vm_compute; reflexivity.
Qed.

(** The three cases on hosts that log their requests: a 404 for [main]
    is followed by the request for [master]; an answer 200 whose body
    cannot be read, and a request that is not answered, are followed by
    no request. *)
Lemma fallback_on_any_failed_response_witness :
  let main := contentsUrl (js "owner") (js "repo") [] (js "main") in
  let master := contentsUrl (js "owner") (js "repo") [] (js "master") in
  fetchGitHubContents mainNotFound (js "owner") (js "repo") [] (js "main") [] =
    (Normal [readme (Some (js "master"))], [main; master]) /\
  fetchGitHubContents unreadableContents (js "owner") (js "repo") []
                      (js "main") [] =
    (Throw (Rejection (js "Unexpected token < in JSON")), [main]) /\
  fetchGitHubContents contentsUnreachable (js "owner") (js "repo") []
                      (js "main") [] =
    (Throw (Rejection (js "Failed to fetch")), [main]).
Proof.
  cbv zeta. split; [|split].
  - rewrite (proj1 (fallback_on_any_failed_response mainNotFound
                      (js "owner") (js "repo") [] [])
                   {| status := 404; statusText := js "Not Found";
                      body := Throw (Rejection (js "no body")) |}
                   [contentsUrl (js "owner") (js "repo") [] (js "main")]);
      vm_compute; reflexivity.
  - rewrite (proj1 (proj2 (fallback_on_any_failed_response unreadableContents
                             (js "owner") (js "repo") [] []))
                   {| status := 200; statusText := js "OK";
                      body := Throw (Rejection
                                       (js "Unexpected token < in JSON")) |}
                   [contentsUrl (js "owner") (js "repo") [] (js "main")]);
      vm_compute; reflexivity.
  - rewrite (proj2 (proj2 (fallback_on_any_failed_response contentsUnreachable
                             (js "owner") (js "repo") [] []))
                   (Rejection (js "Failed to fetch"))
                   [contentsUrl (js "owner") (js "repo") [] (js "main")]);
      vm_compute; reflexivity.
Defined.

(** ** The stages of a run *)

Section Run.
Variable World : Type.
Variable remote : Remote World.
Variable Date_getTime : jsstring -> float.
Variable localeCompare : jsstring -> jsstring -> float.

Lemma settles_resolveFork (owner repo : jsstring) :
  settles (resolveFork remote owner repo).
Proof. unfold resolveFork. auto with settles. Qed.

Lemma settles_fetchGitHubBranches (owner repo : jsstring) :
  settles (fetchGitHubBranches remote owner repo).
Proof. unfold fetchGitHubBranches. auto with settles. Qed.

Lemma settles_getAllFilesFromAllBranches (owner repo : jsstring) :
  settles (getAllFilesFromAllBranches remote localeCompare owner repo).
Proof.
  unfold getAllFilesFromAllBranches.
  apply settles_bind; [apply settles_fetchGitHubBranches|]. intros branches.
  apply settles_bind; [|intros st; apply settles_ret].
  apply settles_forEach. intros acc b. auto with settles.
Qed.

Lemma settles_mentionsLovable (f : GitHubFile.t) :
  settles (mentionsLovable remote f).
Proof.
  unfold mentionsLovable.
  destruct (GitHubFile.download_url f) as [[|c u]|]; auto with settles.
Qed.

Lemma settles_checkForLovableKeyword (owner repo : jsstring)
    (allFiles : list GitHubFile.t) :
  settles (checkForLovableKeyword remote owner repo allFiles).
Proof.
  unfold checkForLovableKeyword.
  apply settles_bind.
  - apply settles_forEach. intros found fileName.
    destruct found; [apply settles_ret|].
    destruct (find _ allFiles);
      [apply settles_mentionsLovable | apply settles_ret].
  - intros found. destruct found; [apply settles_ret|].
    apply settles_forEach. intros found f.
    destruct found; [apply settles_ret | apply settles_mentionsLovable].
Qed.

Lemma settles_analyzeFile (acc : Totals) (f : GitHubFile.t) :
  settles (analyzeFile remote acc f).
Proof. unfold analyzeFile. auto with settles. Qed.

Lemma settles_commitStage (owner repo : jsstring) (flag : bool) :
  settles (if flag
           then tryCatch
                  (bind (analyzeCommitHistory remote Date_getTime owner repo)
                        (fun history => ret (Some history)))
                  (fun _ => ret None)
           else ret None).
Proof. destruct flag; auto with settles. Qed.

(** A run whose URL parses harvests some list of files, fails with
    [nothingToAnalyze] when none of them passes the filter, and
    completes with a report otherwise. *)
Lemma run_stages (repositoryUrl owner repo : jsstring) (flag : bool)
    (w : World) :
  matchRepositoryUrl repositoryUrl = Some (owner, repo) ->
  exists allFiles,
    fst (harvestedFiles remote localeCompare repositoryUrl w) =
      Normal allFiles /\
    (filter analyzeable allFiles = [] ->
     fst (analyzeGitHubRepository remote Date_getTime localeCompare
            repositoryUrl flag w) = Throw nothingToAnalyze) /\
    (filter analyzeable allFiles <> [] ->
     exists report,
       fst (analyzeGitHubRepository remote Date_getTime localeCompare
              repositoryUrl flag w) = Normal report).
Proof.
  intros Hurl.
  unfold harvestedFiles, analyzeGitHubRepository. rewrite Hurl.
  unfold bind.
  destruct (settles_resolveFork owner repo w) as (identity & w1 & H1).
  rewrite H1. cbv beta iota.
  destruct (settles_getAllFilesFromAllBranches
              (id_owner identity) (id_repo identity) w1)
    as ([allFiles n] & w2 & H2).
  rewrite H2. cbv beta iota.
  exists allFiles. split; [reflexivity|].
  destruct (settles_checkForLovableKeyword
              (id_owner identity) (id_repo identity) allFiles w2)
    as (has & w3 & H3).
  rewrite H3. cbv beta iota.
  destruct (filter analyzeable allFiles) as [|f0 fs] eqn:Hfilter.
  - split; [reflexivity|]. intros H. exfalso. apply H. reflexivity.
  - split; [discriminate|]. intros _.
    cbn [List.length Nat.eqb].
    destruct (settles_forEach (f0 :: fs) (analyzeFile remote)
                settles_analyzeFile noTotals w3) as (acc & w4 & H4).
    rewrite H4. cbv beta iota.
    destruct (settles_commitStage (id_owner identity) (id_repo identity)
                flag w4) as (history & w5 & H5).
    unfold bind in H5. rewrite H5. cbv beta iota.
    eexists. reflexivity.
Qed.

(** *** C3 *)


(** *** C8 *)

Lemma fetchGitHubBranches_fails (owner repo : jsstring) (w : World) :
  branchListingFails remote owner repo w = true ->
  exists w', fetchGitHubBranches remote owner repo w = (Normal [], w').
Proof.
  unfold branchListingFails, fetchGitHubBranches, tryCatch, bind, json.
  destruct (fetch_branches remote _ w) as [[response|e] w'].
  - destruct (negb (ok response)); cbn [orb].
    + intros _. exists w'. reflexivity.
    + destruct (body response); [discriminate|].
      intros _. exists w'. reflexivity.
  - intros _. exists w'. reflexivity.
Qed.

Lemma harvest_without_branches (owner repo : jsstring) (w : World) :
  branchListingFails remote owner repo w = true ->
  exists w',
    getAllFilesFromAllBranches remote localeCompare owner repo w =
      (Normal ([], 0%nat), w').
Proof.
  intros Hfails.
  destruct (fetchGitHubBranches_fails _ _ _ Hfails) as (w' & Hb).
  exists w'. unfold getAllFilesFromAllBranches, bind. rewrite Hb.
  reflexivity.
Qed.

(** C8, amended.  When the request for the branch list fails,
    [fetchGitHubBranches] does not throw: the harvest degrades to zero
    branches and no file ([totalBranches = 0]).  With no file to
    analyze the run then stops at the guard for zero analyzable files
    and throws [nothingToAnalyze]; no report is produced. *)
Theorem branch_listing_failure_leaves_nothing_to_analyze
    (repositoryUrl owner repo : jsstring) (includeCommitHistory : bool)
    (w w1 : World) (identity : Identity) :
  matchRepositoryUrl repositoryUrl = Some (owner, repo) ->
  resolveFork remote owner repo w = (Normal identity, w1) ->
  branchListingFails remote (id_owner identity) (id_repo identity) w1 = true ->
  (exists w2,
      getAllFilesFromAllBranches remote localeCompare
        (id_owner identity) (id_repo identity) w1 =
        (Normal ([], 0%nat), w2)) /\
  fst (analyzeGitHubRepository remote Date_getTime localeCompare
         repositoryUrl includeCommitHistory w) = Throw nothingToAnalyze.
Proof.
  intros Hurl Hfork Hfails.
  destruct (harvest_without_branches _ _ _ Hfails) as (w2 & Hharvest).
  split; [exists w2; exact Hharvest|].
  destruct (@run_stages repositoryUrl owner repo includeCommitHistory w Hurl)
    as (allFiles & Hfiles & Hnone & _).
  apply Hnone.
  unfold harvestedFiles in Hfiles. rewrite Hurl in Hfiles.
  unfold bind in Hfiles. rewrite Hfork in Hfiles.
  cbv beta iota in Hfiles. rewrite Hharvest in Hfiles.
  inversion Hfiles. reflexivity.
Qed.
End Run.


Example run_on_flakyHost :
  fst (fetchGitHubRepo flakyHost (js "owner") (js "repo") tt) =
    Throw (Rejection (js "Failed to fetch")) /\
  fst (getAllFiles flakyHost 4 (js "owner") (js "repo") [] (js "dev") tt) =
    Throw (Error (js "GitHub API error: 500 Internal Server Error")) /\
  fst (fetchFileContent flakyHost (js "https://raw.example/README.md") tt) =
    Throw (Rejection (js "Failed to fetch")) /\
  fst (fetchGitHubCommits flakyHost (js "owner") (js "repo") tt) =
    Throw (Rejection (js "Failed to fetch")) /\
  exists report,
    fst (analyzeGitHubRepository flakyHost IsoDate.getTime compareUnits
           (js "https://github.com/owner/repo") true tt) = Normal report /\
    totalBranches report = 2%nat /\ totalFiles report = 1%nat /\
    analyzedFiles report = 0%nat /\ files report = [] /\
    commitAnalysis report = None.
Proof.
  repeat split; try (vm_compute; reflexivity).
  eexists. repeat split; vm_compute; reflexivity.
Qed.


(** C8, as stated: when the branch list cannot be fetched the analysis
    still completes and emits a report.  It does not: on a host whose
    branch endpoint is rate limited, and which answers every other
    request, the run throws. *)
Lemma branch_listing_failure_is_fatal :
  let run :=
    fst (analyzeGitHubRepository branchesForbidden IsoDate.getTime
           compareUnits (js "https://github.com/owner/repo") true tt) in
  branchListingFails branchesForbidden (js "owner") (js "repo") tt = true /\
  run = Throw nothingToAnalyze /\
  ~ (exists report, run = Normal report).
Proof.
  cbv zeta. split; [vm_compute; reflexivity|].
  assert (fst (analyzeGitHubRepository branchesForbidden IsoDate.getTime
                 compareUnits (js "https://github.com/owner/repo") true tt) =
          Throw nothingToAnalyze) as H by (vm_compute; reflexivity).
  split; [exact H|]. intros [report Hreport].
  rewrite H in Hreport. discriminate.
Qed.

Lemma branch_listing_failure_leaves_nothing_to_analyze_witness :
  (exists w2,
      getAllFilesFromAllBranches branchesUnreachable compareUnits
        (js "owner") (js "repo") tt = (Normal ([], 0%nat), w2)) /\
  fst (analyzeGitHubRepository branchesUnreachable IsoDate.getTime
         compareUnits (js "https://github.com/owner/repo") false tt) =
    Throw nothingToAnalyze.
Proof.
  apply (@branch_listing_failure_leaves_nothing_to_analyze
           unit branchesUnreachable IsoDate.getTime compareUnits
           (js "https://github.com/owner/repo") (js "owner") (js "repo")
           false tt tt
           {| id_owner := js "owner"; id_repo := js "repo";
              id_originalRepositoryUrl := None; id_isForked := false |});
    vm_compute; reflexivity.
Defined.

(** The same host with a working branch endpoint: the run completes. *)
Example run_with_branches_completes :
  exists report,
    fst (analyzeGitHubRepository twoBranches IsoDate.getTime compareUnits
           (js "https://github.com/owner/repo") true tt) = Normal report /\
    totalBranches report = 2%nat /\ totalFiles report = 1%nat /\
    analyzedFiles report = 1%nat.
Proof. eexists. repeat split; vm_compute; reflexivity. Qed.

(** ** The harvest of a run is a [harvest] *)

Section HarvestOfRun.
Variable World : Type.
Variable remote : Remote World.
Variable localeCompare : jsstring -> jsstring -> float.

Lemma forEach_branch (owner repo : jsstring) (branches : list GitHubBranch) :
  forall (st : list jsstring * list GitHubFile.t) (w : World),
  exists branchFiles w',
    forEach branches st
      (fun st b =>
         tryCatch
           (bind (getAllFiles remote 4 owner repo [] (branch_name b))
                 (fun files => ret (fold_left keepUnseen files st)))
           (fun _ => ret st)) w =
    (Normal (fold_left (fun st files => fold_left keepUnseen files st)
                       branchFiles st), w').
Proof.
  induction branches as [|b bs IH]; intros st w; cbn [forEach].
  - exists [], w. reflexivity.
  - unfold bind at 1, tryCatch at 1, bind at 1.
    destruct (getAllFiles remote 4 owner repo [] (branch_name b) w)
      as [[files|e] w1]; cbn [ret].
    + destruct (IH (fold_left keepUnseen files st) w1)
        as (rest & w' & Hrest).
      exists (files :: rest), w'. exact Hrest.
    + destruct (IH st w1) as (rest & w' & Hrest).
      exists ([] :: rest), w'. exact Hrest.
Qed.

(** The files that [getAllFilesFromAllBranches] returns are the
    [harvest] of the file lists of the branches it could walk. *)
Lemma getAllFilesFromAllBranches_harvest (owner repo : jsstring) (w : World) :
  exists branchFiles n w',
    getAllFilesFromAllBranches remote localeCompare owner repo w =
      (Normal (harvest branchFiles, n), w').
Proof.
  unfold getAllFilesFromAllBranches. unfold bind at 1.
  destruct (settles_fetchGitHubBranches remote owner repo w)
    as (branches & w1 & ->).
  unfold bind at 1.
  destruct (forEach_branch owner repo
              (Array_sort (branchAfter localeCompare) branches) ([], []) w1)
    as (branchFiles & w' & ->).
  exists branchFiles, (List.length branches), w'. reflexivity.
Qed.
End HarvestOfRun.

(** The scenario of C5 on a host: two branches, each with README.md of
    120 bytes, give one harvested file, that of [main]. *)
Example readme_on_two_branches_of_a_host :
  getAllFilesFromAllBranches twoBranches compareUnits
    (js "owner") (js "repo") tt =
  (Normal ([readme (Some (js "main"))], 2%nat), tt).
Proof. vm_compute. reflexivity. Qed.

(** ** The commit history of a run *)

(** The history that [analyzeCommitHistory] returns satisfies the
    invariant of C6, the empty history included. *)
Lemma analyzeCommitHistory_totals (World : Type) (remote : Remote World)
    (Date_getTime : jsstring -> float) (owner repo : jsstring)
    (w w' : World) (history : CommitHistory.t) :
  analyzeCommitHistory remote Date_getTime owner repo w =
    (Normal history, w') ->
  sumTotalCommits (CommitHistory.contributors history) =
  CommitHistory.totalCommits history.
Proof.
  unfold analyzeCommitHistory, bind.
  destruct (fetchGitHubCommits remote owner repo w) as [[commits|e] w1];
    [|discriminate].
  destruct (List.length commits =? 0)%nat; intros H; inversion H.
  - reflexivity.
  - unfold summarize; cbn [CommitHistory.contributors CommitHistory.totalCommits].
    rewrite (sumTotalCommits_perm (Array_sort_perm _ _)).
    unfold contributorMapOf. rewrite sum_finish, sum_fold. reflexivity.
Qed.

(** The scenario of C10 through the commit endpoints of a host. *)
Example login_scenario_of_a_host :
  exists history,
    fst (analyzeCommitHistory loginHost IsoDate.getTime
           (js "owner") (js "repo") tt) = Normal history /\
    CommitHistory.totalCommits history = 2%nat /\
    map isAI (CommitHistory.commits history) = [false; false] /\
    map (fun c => (ContributorStats.totalCommits c,
                   ContributorStats.aiCommitPercentage c,
                   ContributorStats.estimatedHours c))
        (CommitHistory.contributors history) = [(2%nat, 0%float, 4%float)].
Proof. eexists. repeat split; vm_compute; reflexivity. Qed.

(** * Further properties of the code *)

(** ** [analyzeCommitMessage] *)

Lemma score_threshold (emoji long : bool) (m g : nat) :
  (m <= 10)%nat -> (g <= 3)%nat ->
  PrimFloat.ltb 0.5 (score emoji m long g) =
  emoji || (2 <=? m)%nat || long || (0 <? g)%nat.
Proof.
  intros Hm Hg.
  destruct m as [|[|[|[|[|[|[|[|[|[|[|m]]]]]]]]]]]; [..|exfalso; lia];
    (destruct g as [|[|[|[|g]]]]; [..|exfalso; lia]);
    destruct emoji, long; vm_compute; reflexivity.
Qed.

(** X1. A commit message is flagged as AI-written exactly when it holds
    an invisible unit or an emoji, matches at least two of the AI
    patterns, is longer than 100 units, or matches a grammar indicator.  A
    single pattern match on its own never flags a message. *)
Theorem isAI_characterization (message : jsstring) :
  Classifier.isAI (Classifier.analyzeCommitMessage message) =
  existsb invisibleUnit message ||
  RegExp_test Classifier.emojiRegex message ||
  (2 <=? matching Classifier.aiPatterns message)%nat ||
  (100 <? List.length message)%nat ||
  (0 <? matching Classifier.perfectGrammarIndicators message)%nat.
Proof.
  destruct (existsb invisibleUnit message) eqn:Hinv.
  - rewrite (analyzeCommitMessage_invisible _ Hinv). reflexivity.
  - destruct (analyzeCommitMessage_score _ Hinv) as [_ ->].
    cbn [orb]. apply score_threshold.
    + apply (matching_le Classifier.aiPatterns).
    + apply (matching_le Classifier.perfectGrammarIndicators).
Qed.

(** X2. The list of reasons has one entry per triggered signal: one for
    the invisible units alone when there are any, and otherwise one for
    emojis, one per matching AI pattern, one for the length and one per
    matching grammar indicator. *)
Theorem reasons_count (message : jsstring) :
  List.length (Classifier.reasons (Classifier.analyzeCommitMessage message)) =
  if existsb invisibleUnit message then 1%nat
  else (b2n (RegExp_test Classifier.emojiRegex message) +
        matching Classifier.aiPatterns message +
        b2n (100 <? List.length message)%nat +
        matching Classifier.perfectGrammarIndicators message)%nat.
Proof.
  unfold Classifier.analyzeCommitMessage.
  rewrite invisibleChars_test.
  destruct (existsb invisibleUnit message); [reflexivity|].
  destruct (RegExp_test Classifier.emojiRegex message);
    rewrite countMatches_spec;
    destruct (100 <? List.length message)%nat;
    rewrite countMatches_spec; cbn [Classifier.reasons b2n];
    rewrite ?length_app, ?length_map; unfold matching; cbn [List.length];
    lia.
Qed.

(** ** [shouldAnalyzeFile] and [getLanguageFromPath] *)

Lemma RegExp_test_text (src t : string) (s : jsstring) :
  RegExp_test (re src (text t)) s = String_includes s (js t).
Proof. apply searchFrom_text. Qed.

Lemma existsb_false_In {A} (f : A -> bool) (l : list A) (x : A) :
  existsb f l = false -> In x l -> f x = false.
Proof.
  intros H Hin. destruct (f x) eqn:Hfx; [|reflexivity].
  rewrite <- H. symmetry. apply existsb_exists. exists x. auto.
Qed.

Lemma excludePatterns_boilerplate :
  In mainOrIndex excludePatterns /\ In appFile excludePatterns /\
  In (re "node_modules\/" (text "node_modules/")) excludePatterns.
Proof.
  unfold excludePatterns. repeat split;
    repeat (first [left; reflexivity | right]).
Qed.

Lemma shouldAnalyzeFile_eq (filePath : jsstring) :
  shouldAnalyzeFile filePath =
  match matchExtension (String_toLowerCase filePath) with
  | None => false
  | Some ext =>
      Array_includes textExtensions ext &&
      negb (existsb (fun pattern => RegExp_test pattern filePath)
                    excludePatterns)
  end.
Proof.
  unfold shouldAnalyzeFile.
  destruct excludePatterns_boilerplate as (Hmain & Happ & Hnode).
  destruct (existsb (fun pattern => RegExp_test pattern filePath)
                    excludePatterns) eqn:Hex.
  - destruct (String_includes filePath (js "node_modules/"));
      destruct (matchExtension (String_toLowerCase filePath));
      try reflexivity;
      destruct (Array_includes textExtensions j); reflexivity.
  - pose proof (existsb_false_In _ _ _ Hex Hmain) as H1.
    pose proof (existsb_false_In _ _ _ Hex Happ) as H2.
    pose proof (existsb_false_In _ _ _ Hex Hnode) as H3.
    cbv beta in H1, H2, H3. rewrite RegExp_test_text in H3.
    rewrite H1, H2, H3, andb_false_r.
    destruct (matchExtension (String_toLowerCase filePath)); [|reflexivity].
    destruct (Array_includes textExtensions j); reflexivity.
Qed.

(** X3. Whether a file is analysed is decided by its lower-cased
    extension and by [excludePatterns] alone: the test for
    [node_modules/] at the start and the "additional checks" for
    main/index/App files at the end never change the answer, because
    those patterns are members of [excludePatterns]. *)
Theorem shouldAnalyzeFile_decision (filePath : jsstring) :
  shouldAnalyzeFile filePath =
  match matchExtension (String_toLowerCase filePath) with
  | None => false
  | Some ext =>
      Array_includes textExtensions ext &&
      negb (existsb (fun pattern => RegExp_test pattern filePath)
                    excludePatterns)
  end.
Proof.
  apply shouldAnalyzeFile_eq.
Qed.

Lemma excludedTexts_patterns :
  Forall (fun t => exists src, In (re src (text t)) excludePatterns)
         excludedTexts.
Proof.
  unfold excludedTexts, excludePatterns, configFile.
  repeat (apply Forall_cons;
          [eexists; cbn [In];
           repeat (first [left; reflexivity | right])|]).
  apply Forall_nil.
Qed.

(** X4. A path that contains one of the texts of [excludedTexts] (a
    hidden segment [/.], [node_modules/], [dist/], [build/], [/ui/],
    the configuration file name of one of the twelve tools listed, such
    as [vite.config.], and so on) is never analysed, whatever its
    extension.  A [.config.] file of another tool is not excluded. *)
Theorem excluded_text_is_not_analysed (filePath : jsstring) (t : string) :
  In t excludedTexts ->
  String_includes filePath (js t) = true ->
  shouldAnalyzeFile filePath = false.
Proof.
  intros Ht Hinc. rewrite shouldAnalyzeFile_eq.
  destruct (matchExtension (String_toLowerCase filePath)); [|reflexivity].
  replace (existsb (fun pattern => RegExp_test pattern filePath)
                   excludePatterns) with true; [apply andb_false_r|].
  symmetry. apply existsb_exists.
  destruct (proj1 (Forall_forall _ _) excludedTexts_patterns t Ht)
    as [src Hsrc].
  exists (re src (text t)). split; [assumption|].
  rewrite RegExp_test_text. assumption.
Qed.

Lemma excluded_text_is_not_analysed_witness :
  shouldAnalyzeFile (js "packages/app/.storybook/preview.ts") = false.
Proof.
  apply (@excluded_text_is_not_analysed _ "/.").
  - unfold excludedTexts. repeat (first [left; reflexivity | right]).
  - vm_compute. reflexivity.
Defined.

Example other_config_file_is_analysed :
  shouldAnalyzeFile (js "src/app.config.ts") = true.
Proof. vm_compute. reflexivity. Qed.

Lemma matchExtension_last_dot (pre rest : jsstring) :
  ~ In (ch ".") rest ->
  matchExtension (pre ++ ch "." :: rest) = Some (ch "." :: rest).
Proof.
  intros Hrest.
  assert (matchExtension rest = None) as Hnone.
  { induction rest as [|c rest IH]; [reflexivity|].
    cbn [matchExtension]. rewrite IH by (intros H; apply Hrest; right; exact H).
    destruct (N.eqb_spec c (ch ".")); [|reflexivity].
    exfalso. apply Hrest. left. assumption. }
  induction pre as [|c pre IH]; cbn [app matchExtension].
  - rewrite Hnone, N.eqb_refl. reflexivity.
  - rewrite IH. reflexivity.
Qed.

Lemma matchExtension_no_dot (s : jsstring) :
  ~ In (ch ".") s -> matchExtension s = None.
Proof.
  induction s as [|c s IH]; intros H; [reflexivity|].
  cbn [matchExtension]. rewrite IH by (intros H'; apply H; right; exact H').
  destruct (N.eqb_spec c (ch ".")); [|reflexivity].
  exfalso. apply H. left. assumption.
Qed.

Lemma toLowerCaseUnit_dot (c : N) :
  toLowerCaseUnit c = ch "." <-> c = ch ".".
Proof.
  unfold toLowerCaseUnit. change (ch ".") with 46%N.
  destruct ((65 <=? c)%N && (c <=? 90)%N) eqn:Hup.
  - apply andb_true_iff in Hup. rewrite !N.leb_le in Hup. lia.
  - destruct (N.eqb_spec c 8490); lia.
Qed.

Lemma toLowerCase_no_dot (s : jsstring) :
  ~ In (ch ".") s -> ~ In (ch ".") (String_toLowerCase s).
Proof.
  intros H Hin. apply H. unfold String_toLowerCase in Hin.
  apply in_map_iff in Hin. destruct Hin as (c & Hc & Hin).
  apply (proj1 (toLowerCaseUnit_dot c)) in Hc. rewrite <- Hc. assumption.
Qed.

(** X5. The language of a path is looked up by the text from its last
    dot on, lower-cased, so the case of the extension and everything
    before the last dot do not matter; an extension that is not in the
    table, and a path without a dot, give ["text"]. *)
Theorem getLanguageFromPath_by_last_extension (pre rest : jsstring) :
  ~ In (ch ".") rest ->
  getLanguageFromPath (pre ++ ch "." :: rest) =
    match JsMap.get (ch "." :: String_toLowerCase rest) LANGUAGE_MAP with
    | Some language => language
    | None => js "text"
    end /\
  getLanguageFromPath rest = js "text".
Proof.
  intros Hrest. unfold getLanguageFromPath. split.
  - unfold String_toLowerCase. rewrite map_app. cbn [map].
    change (toLowerCaseUnit (ch ".")) with (ch ".").
    rewrite matchExtension_last_dot; [reflexivity|].
    apply toLowerCase_no_dot. assumption.
  - rewrite matchExtension_no_dot; [reflexivity|].
    apply toLowerCase_no_dot. assumption.
Qed.

Lemma getLanguageFromPath_by_last_extension_witness :
  getLanguageFromPath (js "src/lib.v2/Main" ++ ch "." :: js "TSX") =
    match JsMap.get (ch "." :: String_toLowerCase (js "TSX")) LANGUAGE_MAP with
    | Some language => language
    | None => js "text"
    end /\
  getLanguageFromPath (js "TSX") = js "text".
Proof.
  apply getLanguageFromPath_by_last_extension.
  vm_compute. intros H. repeat (destruct H as [H|H]; [discriminate H|]).
  exact H.
Defined.

(** ** [matchRepositoryUrl] *)

Lemma segment_run (run rest : jsstring) :
  ~ In (ch "/") run ->
  match rest with [] => True | c :: _ => c = ch "/" end ->
  segment (run ++ rest) = (run, rest).
Proof.
  intros Hrun Hrest. induction run as [|c run IH]; cbn [app].
  - destruct rest as [|c rest]; [reflexivity|].
    subst c. cbn [segment]. rewrite N.eqb_refl. reflexivity.
  - cbn [segment]. destruct (N.eqb_spec c (ch "/")) as [->|_].
    + exfalso. apply Hrun. left. reflexivity.
    + rewrite IH by (intros H; apply Hrun; right; exact H). reflexivity.
Qed.

Lemma ownerRepoAt_spec (owner repo rest : jsstring) :
  owner <> [] -> repo <> [] ->
  ~ In (ch "/") owner -> ~ In (ch "/") repo ->
  match rest with [] => True | c :: _ => c = ch "/" end ->
  ownerRepoAt (owner ++ ch "/" :: repo ++ rest) = Some (owner, repo).
Proof.
  intros Ho Hr Hno Hnr Hrest. unfold ownerRepoAt.
  rewrite (segment_run owner (ch "/" :: repo ++ rest)) by auto.
  destruct owner as [|o owner]; [congruence|].
  rewrite (segment_run repo rest) by auto.
  destruct repo as [|r repo]; [congruence|]. reflexivity.
Qed.

Lemma matchRepositoryUrl_eq (s : jsstring) :
  matchRepositoryUrl s =
  match
    (if String_startsWith s (js "github.com/")
     then ownerRepoAt (skipn 11 s) else None)
  with
  | Some r => Some r
  | None => match s with [] => None | _ :: s' => matchRepositoryUrl s' end
  end.
Proof. destruct s; reflexivity. Qed.

Lemma String_startsWith_app (p s : jsstring) :
  String_startsWith (p ++ s) p = true.
Proof.
  induction p as [|c p IH]; [destruct s; reflexivity|].
  cbn [app String_startsWith]. rewrite N.eqb_refl, IH. reflexivity.
Qed.

Lemma matchRepositoryUrl_at_host (s : jsstring) (r : jsstring * jsstring) :
  ownerRepoAt s = Some r ->
  matchRepositoryUrl (js "github.com/" ++ s) = Some r.
Proof.
  intros H. rewrite matchRepositoryUrl_eq, String_startsWith_app.
  change (skipn 11 (js "github.com/" ++ s)) with s. rewrite H. reflexivity.
Qed.

Lemma matchRepositoryUrl_skip (c : N) (s : jsstring) :
  N.eqb c (ch "g") = false ->
  matchRepositoryUrl (c :: s) = matchRepositoryUrl s.
Proof.
  intros H. rewrite matchRepositoryUrl_eq.
  change (String_startsWith (c :: s) (js "github.com/"))
    with (N.eqb c (ch "g") && String_startsWith s (js "ithub.com/")).
  rewrite H. reflexivity.
Qed.

(** X6. A URL [https://github.com/<owner>/<repo>], with or without
    further path segments after the repository, parses to that owner and
    repository, provided both are non-empty and free of slashes.  (A
    suffix such as [.git] is part of the repository name.) *)
Theorem matchRepositoryUrl_github (owner repo rest : jsstring) :
  owner <> [] -> repo <> [] ->
  ~ In (ch "/") owner -> ~ In (ch "/") repo ->
  match rest with [] => True | c :: _ => c = ch "/" end ->
  matchRepositoryUrl
    (js "https://github.com/" ++ owner ++ ch "/" :: repo ++ rest) =
  Some (owner, repo).
Proof.
  intros Ho Hr Hno Hnr Hrest.
  pose proof (ownerRepoAt_spec rest Ho Hr Hno Hnr Hrest) as Hat.
  change (js "https://github.com/" ++ owner ++ ch "/" :: repo ++ rest)
    with (104 :: 116 :: 116 :: 112 :: 115 :: 58 :: 47 :: 47 ::
          js "github.com/" ++ owner ++ ch "/" :: repo ++ rest)%N.
  rewrite !matchRepositoryUrl_skip by reflexivity.
  apply matchRepositoryUrl_at_host. exact Hat.
Qed.

Lemma matchRepositoryUrl_github_witness :
  matchRepositoryUrl
    (js "https://github.com/" ++ js "rocq-prover" ++ ch "/" ::
     js "rocq.git" ++ js "/tree/master") =
  Some (js "rocq-prover", js "rocq.git").
Proof.
  apply matchRepositoryUrl_github;
    try (vm_compute; discriminate);
    try (vm_compute; reflexivity);
    vm_compute; intros H;
    repeat (destruct H as [H|H]; [discriminate H|]); exact H.
Defined.

(** ** [fetchGitHubContents], [getAllFiles], [getAllFilesFromAllBranches] *)

Section Loops.
Variable World : Type.

Lemma forEach_invariant {A S} (P : S -> Prop) (xs : list A)
    (body : S -> A -> Async World S) :
  (forall acc x w acc' w',
      In x xs -> P acc -> body acc x w = (Normal acc', w') -> P acc') ->
  forall acc w r w',
    P acc -> forEach xs acc body w = (Normal r, w') -> P r.
Proof.
  induction xs as [|x xs IH]; intros Hbody acc w r w' Hacc Hrun.
  - inversion Hrun. subst. assumption.
  - cbn [forEach] in Hrun. unfold bind in Hrun.
    destruct (body acc x w) as [[acc1|e] w1] eqn:Hstep; [|discriminate].
    apply (IH (fun acc0 x0 w0 acc' w0' Hin =>
                 Hbody acc0 x0 w0 acc' w0' (or_intror Hin))
              acc1 w1 r w'); [|assumption].
    apply (Hbody acc x w acc1 w1); [left; reflexivity | assumption
                                   | assumption].
Qed.
End Loops.

Section Walk.
Variable World : Type.
Variable remote : Remote World.

Lemma fetchGitHubContentsBody_result
    (again : jsstring -> Async World (list GitHubFile.t))
    (owner repo path branch : jsstring) (w w' : World)
    (files : list GitHubFile.t) :
  fetchGitHubContentsBody remote again owner repo path branch w =
    (Normal files, w') ->
  (exists entries, files = map (setBranch branch) entries) \/
  (branch = js "main" /\ exists w1, again (js "master") w1 = (Normal files, w')).
Proof.
  unfold fetchGitHubContentsBody, bind, json.
  destruct (fetch_contents remote _ w) as [[response|e] w1]; [|discriminate].
  destruct (negb (ok response)).
  - destruct (String_eqb branch (js "main")) eqn:Hb; [|discriminate].
    intros H. right. split; [apply String_eqb_eq; assumption|].
    exists w1. assumption.
  - destruct (body response) as [data|e]; [|discriminate].
    intros H. inversion H. left. eexists. reflexivity.
Qed.

Lemma fetchGitHubContents_tagged (owner repo path branch : jsstring)
    (w w' : World) (files : list GitHubFile.t) :
  fetchGitHubContents remote owner repo path branch w = (Normal files, w') ->
  Forall (taggedFor branch) files.
Proof.
  unfold fetchGitHubContents. intros H.
  apply fetchGitHubContentsBody_result in H.
  destruct H as [[entries ->]|[-> [w1 H]]].
  - apply Forall_forall. intros f Hf. apply in_map_iff in Hf.
    destruct Hf as (g & <- & _). left. reflexivity.
  - apply fetchGitHubContentsBody_result in H.
    destruct H as [[entries ->]|[Hmm _]].
    + apply Forall_forall. intros f Hf. apply in_map_iff in Hf.
      destruct Hf as (g & <- & _). right. split; reflexivity.
    + apply String_eqb_eq in Hmm.
      rewrite (proj1 String_main_master) in Hmm. discriminate.
Qed.

Lemma getAllFiles_tagged (maxDepth : nat)
    (owner repo path branch : jsstring) (w w' : World)
    (files : list GitHubFile.t) :
  getAllFiles remote maxDepth owner repo path branch w = (Normal files, w') ->
  Forall (fun f => GitHubFile.type f = file /\ taggedFor branch f) files.
Proof.
  revert path w w' files.
  induction maxDepth as [|depth IH]; intros path w w' files Hrun.
  - inversion Hrun. apply Forall_nil.
  - cbn [getAllFiles] in Hrun. unfold bind at 1 in Hrun.
    destruct (fetchGitHubContents remote owner repo path branch w)
      as [[contents|e] w1] eqn:Hcontents; [|discriminate].
    apply fetchGitHubContents_tagged in Hcontents.
    revert Hrun. apply forEach_invariant; [|apply Forall_nil].
    intros acc item w2 acc' w2' Hin Hacc Hstep.
    destruct (GitHubFile.type item) eqn:Htype.
    + inversion Hstep. apply Forall_app. split; [assumption|].
      apply Forall_cons; [|apply Forall_nil]. split; [assumption|].
      apply (proj1 (Forall_forall _ _) Hcontents). assumption.
    + destruct (negb (shouldSkipDirectory (GitHubFile.path item)
                                          (GitHubFile.name item)));
        [|inversion Hstep; subst; assumption].
      unfold tryCatch, bind in Hstep.
      destruct (getAllFiles remote depth owner repo (GitHubFile.path item)
                            branch w2) as [[subFiles|e] w3] eqn:Hsub.
      * inversion Hstep. apply Forall_app. split; [assumption|].
        apply (IH _ _ _ _ Hsub).
      * inversion Hstep. subst. assumption.
Qed.

(** X7. Every entry that [getAllFiles] returns is a file (directories
    are descended into or skipped, never returned), and it carries the
    branch it was asked for, or ['master'] where a request for ['main']
    fell back. *)
Theorem getAllFiles_returns_tagged_files (maxDepth : nat)
    (owner repo path branch : jsstring) (w w' : World)
    (files : list GitHubFile.t) :
  getAllFiles remote maxDepth owner repo path branch w = (Normal files, w') ->
  Forall (fun f => GitHubFile.type f = file /\ taggedFor branch f) files.
Proof.
  apply getAllFiles_tagged.
Qed.
End Walk.

Lemma getAllFiles_returns_tagged_files_witness :
  Forall (fun f => GitHubFile.type f = file /\ taggedFor (js "main") f)
         [readme (Some (js "main"))].
Proof.
  apply (@getAllFiles_returns_tagged_files unit twoBranches 4
           (js "owner") (js "repo") [] (js "main") tt tt).
  vm_compute. reflexivity.
Defined.

Lemma firstSeen_incl (files : list GitHubFile.t) :
  forall seen f, In f (firstSeen seen files) -> In f files.
Proof.
  induction files as [|g files IH]; intros seen f Hin; [destruct Hin|].
  cbn [firstSeen] in Hin.
  destruct (Array_includes seen (fileKey g)).
  - right. apply (IH _ _ Hin).
  - destruct Hin as [->|Hin]; [left; reflexivity|].
    right. apply (IH _ _ Hin).
Qed.

Lemma firstSeen_NoDup (files : list GitHubFile.t) :
  forall seen,
    NoDup seen -> NoDup (seen ++ map fileKey (firstSeen seen files)).
Proof.
  induction files as [|g files IH]; intros seen Hseen; cbn [firstSeen].
  - cbn. rewrite app_nil_r. assumption.
  - destruct (Array_includes seen (fileKey g)) eqn:Hg.
    + apply IH. assumption.
    + cbn [map].
      replace (seen ++ fileKey g :: map fileKey (firstSeen (seen ++ [fileKey g]) files))
        with ((seen ++ [fileKey g]) ++
              map fileKey (firstSeen (seen ++ [fileKey g]) files))
        by (rewrite <- app_assoc; reflexivity).
      apply IH. apply NoDup_app.
      * assumption.
      * apply NoDup_cons; [intros []|apply NoDup_nil].
      * intros k Hk [<-|[]].
        apply Array_includes_In in Hk. congruence.
Qed.

Lemma harvest_NoDup (branchFiles : list (list GitHubFile.t)) :
  NoDup (map pathAndSize (harvest branchFiles)).
Proof.
  rewrite harvest_firstSeen.
  pose proof (firstSeen_NoDup (List.concat branchFiles) (NoDup_nil _)) as H.
  cbn [app] in H. revert H.
  generalize (firstSeen [] (List.concat branchFiles)). intros l.
  induction l as [|f l IH]; intros H; cbn [map]; [apply NoDup_nil|].
  cbn [map] in H. inversion H as [|k ks Hnotin Hrest]; subst.
  apply NoDup_cons; [|apply IH; assumption].
  intros Hin. apply Hnotin. apply in_map_iff in Hin.
  destruct Hin as (g & Hg & Hin). apply in_map_iff. exists g.
  split; [|assumption]. apply fileKey_inj.
  unfold pathAndSize in Hg. inversion Hg. split; reflexivity.
Qed.

Lemma harvest_incl (branchFiles : list (list GitHubFile.t)) (f : GitHubFile.t) :
  In f (harvest branchFiles) ->
  exists files, In files branchFiles /\ In f files.
Proof.
  rewrite harvest_firstSeen. intros H. apply firstSeen_incl in H.
  apply in_concat in H. exact H.
Qed.

Section HarvestFacts.
Variable World : Type.
Variable remote : Remote World.
Variable localeCompare : jsstring -> jsstring -> float.

Lemma forEach_branch_files (owner repo : jsstring)
    (branches : list GitHubBranch) :
  forall (st : list jsstring * list GitHubFile.t) (w : World),
  exists branchFiles w',
    forEach branches st
      (fun st b =>
         tryCatch
           (bind (getAllFiles remote 4 owner repo [] (branch_name b))
                 (fun files => ret (fold_left keepUnseen files st)))
           (fun _ => ret st)) w =
    (Normal (fold_left (fun st files => fold_left keepUnseen files st)
                       branchFiles st), w') /\
    Forall (Forall (fun f => GitHubFile.type f = file)) branchFiles.
Proof.
  induction branches as [|b bs IH]; intros st w; cbn [forEach].
  - exists [], w. split; [reflexivity | apply Forall_nil].
  - unfold bind at 1, tryCatch at 1, bind at 1.
    destruct (getAllFiles remote 4 owner repo [] (branch_name b) w)
      as [[files|e] w1] eqn:Hwalk; cbn [ret].
    + destruct (IH (fold_left keepUnseen files st) w1)
        as (rest & w' & Hrest & Hfiles).
      exists (files :: rest), w'. split; [exact Hrest|].
      apply Forall_cons; [|assumption].
      apply getAllFiles_tagged in Hwalk.
      apply Forall_forall. intros f Hf.
      apply (proj1 (Forall_forall _ _) Hwalk f Hf).
    + destruct (IH st w1) as (rest & w' & Hrest & Hfiles).
      exists ([] :: rest), w'. split; [exact Hrest|].
      apply Forall_cons; [apply Forall_nil | assumption].
Qed.

(** X8. [getAllFilesFromAllBranches] never throws, whatever request
    fails.  The list it returns holds files only, no two of them with the
    same path and size, and the branch count it returns is the number of
    branches that [fetchGitHubBranches] listed, also when the walk of
    some of them failed. *)
Theorem getAllFilesFromAllBranches_result (owner repo : jsstring)
    (w : World) :
  exists files n w',
    getAllFilesFromAllBranches remote localeCompare owner repo w =
      (Normal (files, n), w') /\
    Forall (fun f => GitHubFile.type f = file) files /\
    NoDup (map pathAndSize files) /\
    exists branches w1,
      fetchGitHubBranches remote owner repo w = (Normal branches, w1) /\
      n = List.length branches.
Proof.
  unfold getAllFilesFromAllBranches. unfold bind at 1.
  destruct (settles_fetchGitHubBranches remote owner repo w)
    as (branches & w1 & Hb).
  rewrite Hb. unfold bind at 1.
  destruct (forEach_branch_files owner repo
              (Array_sort (branchAfter localeCompare) branches) ([], []) w1)
    as (branchFiles & w' & Hrun & Hfiles).
  rewrite Hrun.
  exists (harvest branchFiles), (List.length branches), w'.
  split; [reflexivity|]. split; [|split].
  - apply Forall_forall. intros f Hf.
    destruct (harvest_incl _ _ Hf) as (files & Hin & Hf').
    apply (proj1 (Forall_forall _ _)
                 (proj1 (Forall_forall _ _) Hfiles files Hin) f Hf').
  - apply harvest_NoDup.
  - exists branches, w1. split; reflexivity.
Qed.
End HarvestFacts.

(** ** C5 *)

Section HarvestOfBranches.
Variable World : Type.
Variable remote : Remote World.
Variable localeCompare : jsstring -> jsstring -> float.

Lemma forEach_branchWalks (owner repo : jsstring)
    (branches : list GitHubBranch) :
  forall (st : list jsstring * list GitHubFile.t) (w : World),
    forEach branches st
      (fun st b =>
         tryCatch
           (bind (getAllFiles remote 4 owner repo [] (branch_name b))
                 (fun files => ret (fold_left keepUnseen files st)))
           (fun _ => ret st)) w =
    (Normal (fold_left (fun st files => fold_left keepUnseen files st)
                       (fst (branchWalks remote owner repo branches w)) st),
     snd (branchWalks remote owner repo branches w)).
Proof.
  induction branches as [|b bs IH]; intros st w; cbn [forEach branchWalks].
  - reflexivity.
  - unfold bind at 1, tryCatch at 1, bind at 1.
    destruct (getAllFiles remote 4 owner repo [] (branch_name b) w)
      as [[files|e] w1]; cbn [ret]; rewrite IH;
      destruct (branchWalks remote owner repo bs w1) as [walks w'];
      reflexivity.
Qed.

(** What [getAllFilesFromAllBranches] returns is the [harvest] of the
    walks of the listed branches in sorted order. *)
Lemma getAllFilesFromAllBranches_walks (owner repo : jsstring)
    (w w1 : World) (branches : list GitHubBranch) :
  fetchGitHubBranches remote owner repo w = (Normal branches, w1) ->
  let walked :=
    branchWalks remote owner repo
                (Array_sort (branchAfter localeCompare) branches) w1 in
  getAllFilesFromAllBranches remote localeCompare owner repo w =
    (Normal (harvest (fst walked), List.length branches), snd walked).
Proof.
  intros Hbranches. cbv zeta.
  unfold getAllFilesFromAllBranches. unfold bind at 1. rewrite Hbranches.
  unfold bind at 1. rewrite forEach_branchWalks. reflexivity.
Qed.

(** C5. [getAllFilesFromAllBranches] returns the files found on the
    walks of the listed branches, deduplicated by path and size: of all
    the files found with the path and the size of a file [f], on
    whichever branches, it returns exactly one; a file found with the
    same path and another size has an entry of its own; and the result
    is that of a harvest, which walking a branch again, or all of them
    again, would not change.  The copy returned is the first in the
    order of the walk; where the list names at most one branch [main]
    or [master] that order is the one of "Prioritize main/master
    branch", which does not depend on the sorting algorithm. *)
Theorem getAllFilesFromAllBranches_deduplicates (owner repo : jsstring)
    (w w1 : World) (branches : list GitHubBranch) :
  fetchGitHubBranches remote owner repo w = (Normal branches, w1) ->
  let walks :=
    fst (branchWalks remote owner repo
                     (Array_sort (branchAfter localeCompare) branches) w1) in
  let found := List.concat walks in
  exists files w',
    getAllFilesFromAllBranches remote localeCompare owner repo w =
      (Normal (files, List.length branches), w') /\
    files = harvest walks /\
    (forall f, In f files -> In f found) /\
    (forall f, In f found ->
       (exists kept,
           In kept found /\ samePathSize f kept = true /\
           filter (samePathSize f) files = [kept]) /\
       (forall g,
           In g found ->
           GitHubFile.path g = GitHubFile.path f ->
           GitHubFile.size g <> GitHubFile.size f ->
           exists other,
             filter (samePathSize g) files = [other] /\
             GitHubFile.path other = GitHubFile.path f /\
             GitHubFile.size other = GitHubFile.size g /\
             samePathSize f other = false)) /\
    ((List.length (filter isMainOrMaster branches) <= 1)%nat ->
     forall f, In f found ->
       exists first,
         find (samePathSize f) found = Some first /\
         filter (samePathSize f) files = [first]) /\
    (forall again, In again walks -> harvest (walks ++ [again]) = files) /\
    harvest (walks ++ walks) = files.
Proof.
  intros Hbranches walks found.
  exists (harvest walks),
         (snd (branchWalks remote owner repo
                 (Array_sort (branchAfter localeCompare) branches) w1)).
  split; [apply (getAllFilesFromAllBranches_walks _ _ _ Hbranches)|].
  split; [reflexivity|].
  split; [intros f Hf; apply in_concat; apply harvest_incl; exact Hf|].
  split; [|split].
  - intros f Hf.
    destruct (harvest_by_path_and_size walks f Hf)
      as ((first & Hfind & Hkept) & Hother & _).
    split; [|exact Hother].
    exists first. apply find_some in Hfind. destruct Hfind as [Hin Hsame].
    repeat split; assumption.
  - intros _ f Hf.
    destruct (harvest_by_path_and_size walks f Hf) as (Hfirst & _).
    exact Hfirst.
  - split.
    + intros again Hagain. apply harvest_again.
      intros files' [<-|[]]. assumption.
    + apply harvest_again. intros files' H. exact H.
Qed.
End HarvestOfBranches.

(** The scenario of C5 on a host: two branches, each with README.md of
    120 bytes, give one harvested file, that of [main]. *)
Lemma getAllFilesFromAllBranches_deduplicates_witness :
  exists files w',
    getAllFilesFromAllBranches twoBranches compareUnits
      (js "owner") (js "repo") tt = (Normal (files, 2%nat), w') /\
    In (readme (Some (js "dev")))
       (List.concat
          (fst (branchWalks twoBranches (js "owner") (js "repo")
                  [ {| branch_name := js "main"; commit_sha := js "a1" |};
                    {| branch_name := js "dev"; commit_sha := js "b2" |} ]
                  tt))) /\
    filter (samePathSize (readme (Some (js "dev")))) files =
      [readme (Some (js "main"))].
Proof.
  destruct (@getAllFilesFromAllBranches_deduplicates unit twoBranches
              compareUnits (js "owner") (js "repo") tt tt
              [ {| branch_name := js "main"; commit_sha := js "a1" |};
                {| branch_name := js "dev"; commit_sha := js "b2" |} ]
              eq_refl)
    as (files & w' & Hrun & _ & _ & _ & Hfirst & _).
  exists files, w'. split; [exact Hrun|].
  assert (In (readme (Some (js "dev")))
             (List.concat
                (fst (branchWalks twoBranches (js "owner") (js "repo")
                        (Array_sort (branchAfter compareUnits)
                           [ {| branch_name := js "main";
                                commit_sha := js "a1" |};
                             {| branch_name := js "dev";
                                commit_sha := js "b2" |} ])
                        tt)))) as Hdev
    by (vm_compute; right; left; reflexivity).
  split; [vm_compute; right; left; reflexivity|].
  destruct (Hfirst ltac:(vm_compute; lia) _ Hdev) as (first & Hfind & Hkept).
  rewrite Hkept. f_equal.
  vm_compute in Hfind. inversion Hfind. reflexivity.
Defined.

(** ** [checkForLovableKeyword] *)

Section Keyword.
Variable World : Type.
Variable remote : Remote World.

Lemma mentionsLovable_no_url (f : GitHubFile.t) (w : World) :
  truthy (GitHubFile.download_url f) = false ->
  mentionsLovable remote f w = (Normal false, w).
Proof.
  unfold mentionsLovable, truthy.
  destruct (GitHubFile.download_url f) as [[|c u]|];
    [reflexivity | discriminate | reflexivity].
Qed.

Lemma forEach_stays_false {A} (xs : list A)
    (body : bool -> A -> Async World bool) (w : World) :
  (forall x, In x xs -> body false x w = (Normal false, w)) ->
  forEach xs false body w = (Normal false, w).
Proof.
  induction xs as [|x xs IH]; intros H; cbn [forEach]; [reflexivity|].
  unfold bind. rewrite (H x (or_introl eq_refl)).
  apply IH. intros y Hy. apply H. right. assumption.
Qed.

(** X9. The keyword scan requests only index.html and package.json of
    the root and the files under [src/], and only those with a download
    URL: when the harvest holds no such file the result is [false] and no
    request is made. *)
Theorem checkForLovableKeyword_scans_few_files (owner repo : jsstring)
    (allFiles : list GitHubFile.t) (w : World) :
  existsb scanned allFiles = false ->
  checkForLovableKeyword remote owner repo allFiles w = (Normal false, w).
Proof.
  intros Hnone. unfold checkForLovableKeyword. unfold bind at 1.
  assert (forall f, In f allFiles -> scanned f = false) as Hf
      by (intros f; apply existsb_false_In; assumption).
  rewrite forEach_stays_false.
  - apply forEach_stays_false. intros f Hin.
    apply filter_In in Hin. destruct Hin as [Hin Hsrc].
    apply mentionsLovable_no_url.
    specialize (Hf f Hin). unfold scanned in Hf.
    rewrite Hsrc, orb_true_r in Hf. exact Hf.
  - intros fileName HfileName.
    destruct (find _ allFiles) as [f|] eqn:Hfind; [|reflexivity].
    apply find_some in Hfind. destruct Hfind as [Hin Hnames].
    apply mentionsLovable_no_url.
    specialize (Hf f Hin). unfold scanned in Hf.
    apply andb_true_iff in Hnames. destruct Hnames as [Hn Hp].
    apply String_eqb_eq in Hn, Hp. rewrite Hn, Hp in Hf.
    destruct HfileName as [<-|[<-|[]]];
      rewrite String_eqb_refl in Hf; cbn [andb orb] in Hf;
      rewrite ?orb_true_r in Hf; exact Hf.
Qed.
End Keyword.

Lemma checkForLovableKeyword_scans_few_files_witness :
  checkForLovableKeyword twoBranches (js "owner") (js "repo")
    [readme (Some (js "main"))] tt = (Normal false, tt).
Proof.
  apply checkForLovableKeyword_scans_few_files. vm_compute. reflexivity.
Defined.

(** ** [fetchGitHubCommits] *)

Section Commits.
Variable World : Type.
Variable remote : Remote World.

Lemma mapAll_Forall {A B} (Q : B -> Prop) (f : A -> Async World B)
    (xs : list A) :
  (forall x w y w', f x w = (Normal y, w') -> Q y) ->
  forall w ys w', mapAll f xs w = (Normal ys, w') -> Forall Q ys.
Proof.
  intros Hf. induction xs as [|x xs IH]; intros w ys w' Hrun.
  - inversion Hrun. apply Forall_nil.
  - cbn [mapAll] in Hrun. unfold bind in Hrun.
    destruct (f x w) as [[y|e] w1] eqn:Hx; [|discriminate].
    destruct (mapAll f xs w1) as [[ys'|e] w2] eqn:Hxs; [|discriminate].
    inversion Hrun. apply Forall_cons.
    + apply (Hf _ _ _ _ Hx).
    + apply (IH _ _ _ Hxs).
Qed.

Lemma withStats_result (owner repo : jsstring) (c c' : GitHubCommit)
    (w w' : World) :
  withStats remote owner repo c w = (Normal c', w') ->
  exists st, c' = setStats st c.
Proof.
  unfold withStats, tryCatch, bind, json.
  destruct (fetch_commit remote _ w) as [[response|e] w1].
  - destruct (body response) as [detail|e]; intros H; inversion H;
      eexists; reflexivity.
  - intros H. inversion H. eexists. reflexivity.
Qed.

Lemma commitPages_stats (remaining : nat) :
  forall (page : N) (owner repo : jsstring) (commits result : list GitHubCommit)
         (w w' : World),
    Forall (fun c => exists st, gh_stats c = Some st) commits ->
    commitPages remote remaining page owner repo commits w =
      (Normal result, w') ->
    Forall (fun c => exists st, gh_stats c = Some st) result.
Proof.
  induction remaining as [|remaining IH];
    intros page owner repo commits result w w' Hcommits Hrun.
  - inversion Hrun. subst. assumption.
  - cbn [commitPages] in Hrun. unfold bind at 1 in Hrun.
    destruct (fetch_commits remote _ w) as [[response|e] w1]; [|discriminate].
    destruct (negb (ok response)); [discriminate|].
    unfold bind at 1, json at 1 in Hrun.
    destruct (body response) as [data|e]; [|discriminate].
    destruct (List.length data =? 0)%nat;
      [inversion Hrun; subst; assumption|].
    unfold bind at 1 in Hrun.
    destruct (mapAll (withStats remote owner repo) data w1)
      as [[commitsWithStats|e] w2] eqn:Hmap; [|discriminate].
    assert (Forall (fun c => exists st, gh_stats c = Some st)
                   (commits ++ commitsWithStats)) as Hall.
    { apply Forall_app. split; [assumption|].
      revert Hmap. apply mapAll_Forall.
      intros c w3 c' w3' Hc. apply withStats_result in Hc.
      destruct Hc as [st ->]. exists st. reflexivity. }
    destruct (List.length data <? perPage)%nat.
    + inversion Hrun. subst. assumption.
    + apply (IH _ _ _ _ _ _ _ Hall Hrun).
Qed.

(** X10. Every commit that [fetchGitHubCommits] returns carries stats,
    also where the request for that commit's stats failed or its answer
    had none. *)
Theorem fetchGitHubCommits_all_have_stats (owner repo : jsstring)
    (w w' : World) (commits : list GitHubCommit) :
  fetchGitHubCommits remote owner repo w = (Normal commits, w') ->
  Forall (fun c => exists st, gh_stats c = Some st) commits.
Proof.
  unfold fetchGitHubCommits. apply commitPages_stats. apply Forall_nil.
Qed.
End Commits.

Lemma fetchGitHubCommits_all_have_stats_witness :
  Forall (fun c => exists st, gh_stats c = Some st)
         [ loginCommit "c1" "2024-01-01T10:00:00Z" 20;
           loginCommit "c2" "2024-01-01T11:00:00Z" 5 ].
Proof.
  apply (@fetchGitHubCommits_all_have_stats unit loginHost
           (js "owner") (js "repo") tt tt).
  vm_compute. reflexivity.
Defined.

(** ** The folds of [analyzeCommitHistory] *)

Section MapLookup.
Variable V : Type.

Lemma JsMap_get_set_other (key k : jsstring) (v : V) (m : JsMap.t V) :
  JsMap.get k (JsMap.set key v m) =
  if String_eqb key k then Some v else JsMap.get k m.
Proof.
  induction m as [|[k0 v0] m IH]; cbn [JsMap.set JsMap.get].
  - reflexivity.
  - destruct (String_eqb k0 key) eqn:H0; cbn [JsMap.get].
    + apply String_eqb_eq in H0. subst k0.
      destruct (String_eqb key k); reflexivity.
    + rewrite IH. destruct (String_eqb k0 k) eqn:H1; [|reflexivity].
      apply String_eqb_eq in H1. subst k0.
      rewrite String_eqb_sym, H0. reflexivity.
Qed.

Lemma JsMap_get_update (key k : jsstring) (f : V -> V) (m : JsMap.t V) :
  JsMap.get k (JsMap.update key f m) =
  if String_eqb key k then option_map f (JsMap.get key m)
  else JsMap.get k m.
Proof.
  induction m as [|[k0 v0] m IH]; cbn [JsMap.update JsMap.get].
  - destruct (String_eqb key k); reflexivity.
  - destruct (String_eqb k0 key) eqn:H0; cbn [JsMap.get].
    + apply String_eqb_eq in H0. subst k0.
      destruct (String_eqb key k); reflexivity.
    + rewrite IH. destruct (String_eqb k0 k) eqn:H1; [|reflexivity].
      apply String_eqb_eq in H1. subst k0.
      rewrite String_eqb_sym, H0. reflexivity.
Qed.

Lemma JsMap_keys_update (key : jsstring) (f : V -> V) (m : JsMap.t V) :
  map fst (JsMap.update key f m) = map fst m.
Proof.
  induction m as [|[k0 v0] m IH]; cbn [JsMap.update map]; [reflexivity|].
  destruct (String_eqb k0 key); cbn [map fst]; [reflexivity|].
  rewrite IH. reflexivity.
Qed.

Lemma JsMap_get_None (k : jsstring) (m : JsMap.t V) :
  JsMap.get k m = None <-> ~ In k (map fst m).
Proof.
  induction m as [|[k0 v0] m IH]; cbn [JsMap.get map fst In].
  - split; [intros _ [] | reflexivity].
  - destruct (String_eqb k0 k) eqn:H0.
    + apply String_eqb_eq in H0. split; [discriminate|].
      intros H. exfalso. apply H. left. assumption.
    + apply String_eqb_neq in H0. rewrite IH. tauto.
Qed.

Lemma JsMap_In_get (k : jsstring) (v : V) (m : JsMap.t V) :
  NoDup (map fst m) -> In (k, v) m -> JsMap.get k m = Some v.
Proof.
  induction m as [|[k0 v0] m IH]; intros Hnd Hin; [destruct Hin|].
  cbn [map fst] in Hnd. inversion Hnd as [|x xs Hnotin Hrest]; subst.
  cbn [JsMap.get]. destruct Hin as [Heq|Hin].
  - inversion Heq. subst. rewrite String_eqb_refl. reflexivity.
  - destruct (String_eqb k0 k) eqn:H0.
    + apply String_eqb_eq in H0. subst k0. exfalso. apply Hnotin.
      apply in_map_iff. exists (k, v). split; [reflexivity | assumption].
    + apply IH; assumption.
Qed.

Lemma JsMap_get_In (k : jsstring) (v : V) (m : JsMap.t V) :
  JsMap.get k m = Some v -> In (k, v) m.
Proof.
  induction m as [|[k0 v0] m IH]; cbn [JsMap.get]; [discriminate|].
  destruct (String_eqb k0 k) eqn:H0.
  - apply String_eqb_eq in H0. intros H. inversion H. subst.
    left. reflexivity.
  - intros H. right. apply IH. assumption.
Qed.
End MapLookup.

Section Upsert.
Variables C V : Type.
Variable keyOf : C -> jsstring.
Variable init : C -> V.
Variable step : C -> V -> V.
(** What the entries count, and what stays true of an entry. *)
Variable weight : C -> nat.
Variable measure : V -> nat.
Variable good : jsstring -> V -> Prop.
Hypothesis measure_init : forall c, measure (init c) = 0%nat.
Hypothesis measure_step :
  forall c v, measure (step c v) = (measure v + weight c)%nat.
Hypothesis good_init : forall c, good (keyOf c) (init c).
Hypothesis good_step : forall c k v, good k v -> good k (step c v).

#[local] Abbreviation weightOf := (weightTotal keyOf weight).
#[local] Abbreviation upsertInv := (upsertCounts keyOf weight measure good).

Lemma weightOf_snoc (k : jsstring) (cs : list C) (c : C) :
  weightOf k (cs ++ [c]) =
  (weightOf k cs + if String_eqb (keyOf c) k then weight c else 0)%nat.
Proof.
  unfold weightTotal. rewrite filter_app, map_app, list_sum_app.
  cbn [filter]. destruct (String_eqb (keyOf c) k); cbn; lia.
Qed.

Lemma weightOf_absent (k : jsstring) (cs : list C) :
  ~ In k (map keyOf cs) -> weightOf k cs = 0%nat.
Proof.
  unfold weightTotal. induction cs as [|c cs IH]; intros H; [reflexivity|].
  cbn [filter]. destruct (String_eqb (keyOf c) k) eqn:Hk.
  - apply String_eqb_eq in Hk. exfalso. apply H. left. assumption.
  - apply IH. intros Hin. apply H. right. assumption.
Qed.

Lemma upsert_step (m : JsMap.t V) (cs : list C) (c : C) :
  upsertInv m cs -> upsertInv (upsert keyOf init step m c) (cs ++ [c]).
Proof.
  intros [Hnd Hget]. unfold upsert, JsMap.has.
  pose proof (Hget (keyOf c)) as Hkey.
  split.
  - rewrite JsMap_keys_update.
    destruct (JsMap.get (keyOf c) m) eqn:Hc; cbn [negb]; [assumption|].
    rewrite JsMap_set_absent by (unfold JsMap.has; rewrite Hc; reflexivity).
    rewrite map_app. apply NoDup_app; [assumption | | ].
    + apply NoDup_cons; [intros [] | apply NoDup_nil].
    + intros k Hk [<-|[]]. apply JsMap_get_None in Hc. contradiction.
  - intros k. rewrite JsMap_get_update, weightOf_snoc.
    destruct (String_eqb (keyOf c) k) eqn:Hk.
    + apply String_eqb_eq in Hk. subst k.
      assert (In (keyOf c) (map keyOf (cs ++ [c]))) as Hnow
          by (rewrite map_app; apply in_or_app; right; left; reflexivity).
      destruct (JsMap.get (keyOf c) m) as [v|] eqn:Hc; cbn [negb].
      * rewrite Hc. cbn [option_map].
        destruct Hkey as (Hm & Hin & Hgood).
        rewrite measure_step, Hm. repeat split; auto.
      * rewrite JsMap_get_set_other, String_eqb_refl. cbn [option_map].
        rewrite measure_step, measure_init, (weightOf_absent _ _ Hkey).
        repeat split; auto.
    + apply String_eqb_neq in Hk.
      assert (JsMap.get k
                (if negb match JsMap.get (keyOf c) m with
                         | Some _ => true
                         | None => false
                         end
                 then JsMap.set (keyOf c) (init c) m else m) =
              JsMap.get k m) as ->.
      { destruct (JsMap.get (keyOf c) m); cbn [negb]; [reflexivity|].
        rewrite JsMap_get_set_other.
        destruct (String_eqb (keyOf c) k) eqn:Hk'; [|reflexivity].
        apply String_eqb_eq in Hk'. contradiction. }
      specialize (Hget k). destruct (JsMap.get k m).
      * destruct Hget as (Hm & Hin & Hgood). rewrite Nat.add_0_r.
        repeat split; auto.
        rewrite map_app. apply in_or_app. left. assumption.
      * rewrite map_app. intros Hin. apply in_app_or in Hin.
        destruct Hin as [Hin|[Heq|[]]]; [contradiction | congruence].
Qed.

Lemma upsert_fold (cs : list C) :
  forall (m : JsMap.t V) (done : list C),
    upsertInv m done ->
    upsertInv (fold_left (upsert keyOf init step) cs m) (done ++ cs).
Proof.
  induction cs as [|c cs IH]; intros m done Hinv; cbn [fold_left].
  - rewrite app_nil_r. assumption.
  - replace (done ++ c :: cs) with ((done ++ [c]) ++ cs)
      by (rewrite <- app_assoc; reflexivity).
    apply IH. apply upsert_step. assumption.
Qed.

Lemma upsert_all (cs : list C) :
  upsertInv (fold_left (upsert keyOf init step) cs []) cs.
Proof.
  apply (@upsert_fold cs [] []). split; [apply NoDup_nil|].
  intros k. cbn. intros [].
Qed.
End Upsert.

(** ** The contributor aggregates *)

Lemma list_sum_ones {A} (l : list A) :
  list_sum (map (fun _ => 1%nat) l) = List.length l.
Proof.
  induction l as [|x l IH]; [reflexivity|].
  cbn [map list_sum List.length fold_right Nat.add]. f_equal. exact IH.
Qed.

Lemma contributor_entries (Date_getTime : jsstring -> float)
    (commits : list CommitAnalysis) :
  let m := fold_left (foldContributor Date_getTime) commits [] in
  NoDup (map fst m) /\
  (forall k st, In (k, st) m ->
     aggregateKey st = k /\
     ContributorStats.totalCommits st = List.length (commitsOf k commits) /\
     In k (map contributorKey commits)) /\
  (forall c, In c commits -> exists st, In (contributorKey c, st) m).
Proof.
  cbv zeta.
  pose proof (@upsert_all CommitAnalysis ContributorStats.t
                contributorKey newContributor (countCommit Date_getTime)
                (fun _ => 1%nat) ContributorStats.totalCommits
                (fun k st => aggregateKey st = k)
                (fun c => eq_refl)
                (fun c v => eq_sym (Nat.add_1_r _))
                (fun c => eq_refl)
                (fun c k v H => H)
                commits) as [Hnd Hget].
  change (upsert contributorKey newContributor (countCommit Date_getTime))
    with (foldContributor Date_getTime) in Hnd, Hget.
  split; [exact Hnd|]. split.
  - intros k st Hin. apply (JsMap_In_get _ _ _ Hnd) in Hin.
    specialize (Hget k). rewrite Hin in Hget.
    destruct Hget as (Hm & Hk & Hgood).
    unfold weightTotal in Hm. rewrite list_sum_ones in Hm.
    repeat split; assumption.
  - intros c Hc. specialize (Hget (contributorKey c)).
    destruct (JsMap.get (contributorKey c) _) as [st|] eqn:Hst.
    + exists st. apply JsMap_get_In. assumption.
    + exfalso. apply Hget. apply in_map. assumption.
Qed.

(** X11. The contributor list has exactly one aggregate per key
    [name-email] that occurs among the commits.  Each aggregate counts
    the commits with its key, and its AI percentage and its hours are
    those of exactly these commits. *)
Theorem contributors_one_per_key (Date_getTime : jsstring -> float)
    (commits : list CommitAnalysis) :
  let cs := CommitHistory.contributors (summarize Date_getTime commits) in
  NoDup (map aggregateKey cs) /\
  (forall c, In c commits ->
             exists st, In st cs /\ aggregateKey st = contributorKey c) /\
  (forall st, In st cs ->
     let own := commitsOf (aggregateKey st) commits in
     own <> [] /\
     ContributorStats.totalCommits st = List.length own /\
     ContributorStats.aiCommitPercentage st =
       percentage (countAI own) (List.length own) /\
     ContributorStats.estimatedHours st =
       estimateWorkHours Date_getTime own defaultTimeWindow).
Proof.
  cbv zeta. unfold summarize; cbn [CommitHistory.contributors].
  destruct (contributor_entries Date_getTime commits)
    as (Hnd & Hentries & Hcover).
  set (m := fold_left (foldContributor Date_getTime) commits []) in *.
  assert (forall st,
             In st (JsMap.values (contributorMapOf Date_getTime commits)) ->
             exists k st0, In (k, st0) m /\
               st = snd (finishContributor Date_getTime commits (k, st0)))
    as Hvalues.
  { intros st Hin. unfold JsMap.values, contributorMapOf in Hin.
    rewrite map_map in Hin. apply in_map_iff in Hin.
    destruct Hin as ([k st0] & <- & Hin). exists k, st0. split; auto. }
  assert (map aggregateKey
              (JsMap.values (contributorMapOf Date_getTime commits)) =
          map fst m) as Hkeys.
  { unfold JsMap.values, contributorMapOf. fold m. rewrite !map_map.
    apply map_ext_in. intros [k st0] Hin.
    destruct (Hentries k st0 Hin) as (Hk & _). exact Hk. }
  split; [|split].
  - apply (Permutation_NoDup (l := map fst m)); [|assumption].
    rewrite <- Hkeys. apply Permutation_map. symmetry.
    apply Array_sort_perm.
  - intros c Hc. destruct (Hcover c Hc) as [st0 Hst0].
    exists (snd (finishContributor Date_getTime commits
                   (contributorKey c, st0))).
    split.
    + apply (Permutation_in _ (Permutation_sym (Array_sort_perm _ _))).
      unfold JsMap.values, contributorMapOf. fold m. rewrite map_map.
      apply in_map_iff. exists (contributorKey c, st0). split; auto.
    + destruct (Hentries _ _ Hst0) as (Hk & _). exact Hk.
  - intros st Hst.
    apply (Permutation_in _ (Array_sort_perm _ _)) in Hst.
    destruct (Hvalues st Hst) as (k & st0 & Hin & ->).
    destruct (Hentries k st0 Hin) as (Hk & Hcount & Hpresent).
    cbn [finishContributor snd].
    unfold aggregateKey in *; cbn [ContributorStats.name ContributorStats.email
                                   ContributorStats.totalCommits
                                   ContributorStats.aiCommitPercentage
                                   ContributorStats.estimatedHours].
    rewrite Hk. fold (commitsOf k commits). rewrite Hcount.
    repeat split.
    apply in_map_iff in Hpresent. destruct Hpresent as (c & Hc & Hin').
    intros Hempty.
    assert (In c (commitsOf k commits)) as Hc'.
    { apply filter_In. split; [assumption|]. rewrite Hc.
      apply String_eqb_refl. }
    rewrite Hempty in Hc'. destruct Hc'.
Qed.

(** ** What [Array_sort] does with a comparison that is an order *)

Section SortOrder.
Variable A : Type.
Variable after : A -> A -> bool.
Hypothesis after_asym : forall a b, after a b = true -> after b a = false.
Hypothesis after_trans :
  forall a b c, after a b = false -> after b c = false -> after a c = false.

Lemma Array_insert_sorted (x : A) (l : list A) :
  StronglySorted (fun a b => after a b = false) l ->
  StronglySorted (fun a b => after a b = false) (Array_insert after x l).
Proof.
  induction l as [|y l IH]; intros Hs; cbn [Array_insert].
  - apply SSorted_cons; [apply SSorted_nil | apply Forall_nil].
  - inversion Hs as [|y' l' Hl Hy]; subst.
    destruct (after y x) eqn:Hyx.
    + apply SSorted_cons; [assumption|].
      apply after_asym in Hyx. apply Forall_cons; [assumption|].
      apply Forall_forall. intros z Hz.
      apply (after_trans Hyx).
      apply (proj1 (Forall_forall _ _) Hy z Hz).
    + apply SSorted_cons; [apply IH; assumption|].
      apply Forall_forall. intros z Hz.
      apply (Permutation_in _ (Array_insert_perm after x l)) in Hz.
      destruct Hz as [<-|Hz]; [assumption|].
      apply (proj1 (Forall_forall _ _) Hy z Hz).
Qed.

Lemma Array_sort_sorted (l : list A) :
  StronglySorted (fun a b => after a b = false) (Array_sort after l).
Proof.
  unfold Array_sort.
  enough (forall acc,
             StronglySorted (fun a b => after a b = false) acc ->
             StronglySorted (fun a b => after a b = false)
               (fold_left (fun acc x => Array_insert after x acc) l acc))
    as H by (apply H; apply SSorted_nil).
  induction l as [|x l IH]; intros acc Hacc; cbn [fold_left];
    [assumption|].
  apply IH. apply Array_insert_sorted. assumption.
Qed.
End SortOrder.

Lemma filter_none {A} (f : A -> bool) (l : list A) :
  (forall x, In x l -> f x = false) -> filter f l = [].
Proof.
  induction l as [|x l IH]; intros H; [reflexivity|].
  cbn [filter]. rewrite (H x (or_introl eq_refl)).
  apply IH. intros y Hy. apply H. right. assumption.
Qed.

Section SortByRank.
Variable A : Type.
Variable rank : A -> nat.

Let higherLater (a b : A) : bool := (rank a <? rank b)%nat.

Lemma rank_sorted (l : list A) :
  StronglySorted (fun a b => (rank b <= rank a)%nat)
                 (Array_sort higherLater l).
Proof.
  assert (StronglySorted (fun a b => higherLater a b = false)
                         (Array_sort higherLater l)) as H.
  { apply Array_sort_sorted; unfold higherLater.
    - intros a b Hab. apply Nat.ltb_lt in Hab. apply Nat.ltb_ge. lia.
    - intros a b c Hab Hbc. apply Nat.ltb_ge in Hab, Hbc.
      apply Nat.ltb_ge. lia. }
  induction H as [|a l' Hl IH Ha]; [apply SSorted_nil|].
  apply SSorted_cons; [assumption|].
  apply Forall_forall. intros b Hb.
  apply (proj1 (Forall_forall _ _) Ha) in Hb. unfold higherLater in Hb.
  apply Nat.ltb_ge. assumption.
Qed.

Lemma rank_insert_filter (n : nat) (x : A) (l : list A) :
  StronglySorted (fun a b => (rank b <= rank a)%nat) l ->
  filter (fun a => (rank a =? n)%nat) (Array_insert higherLater x l) =
  filter (fun a => (rank a =? n)%nat) l ++
  (if (rank x =? n)%nat then [x] else []).
Proof.
  induction l as [|y l IH]; intros Hs; cbn [Array_insert filter].
  - destruct (rank x =? n)%nat; reflexivity.
  - inversion Hs as [|y' l' Hl Hy]; subst. unfold higherLater at 1.
    destruct (Nat.ltb_spec (rank y) (rank x)) as [Hlt|Hge].
    + cbn [filter].
      destruct (Nat.eqb_spec (rank x) n) as [Hx|Hx];
        [|rewrite app_nil_r; reflexivity].
      assert (filter (fun a => (rank a =? n)%nat) (y :: l) = []) as Hnone.
      { apply filter_none. intros z Hz.
        apply Nat.eqb_neq. destruct Hz as [<-|Hz]; [lia|].
        apply (proj1 (Forall_forall _ _) Hy) in Hz. lia. }
      cbn [filter] in Hnone. rewrite Hnone. reflexivity.
    + cbn [filter]. rewrite IH by assumption.
      destruct (rank y =? n)%nat; reflexivity.
Qed.

Lemma rank_insert_sorted (x : A) (acc : list A) :
  StronglySorted (fun a b => (rank b <= rank a)%nat) acc ->
  StronglySorted (fun a b => (rank b <= rank a)%nat)
                 (Array_insert higherLater x acc).
Proof.
  induction acc as [|y acc IH]; intros Hacc; cbn [Array_insert].
  - apply SSorted_cons; [apply SSorted_nil | apply Forall_nil].
  - inversion Hacc as [|y' l' Hl Hy]; subst. unfold higherLater at 1.
    destruct (Nat.ltb_spec (rank y) (rank x)) as [Hlt|Hge].
    + apply SSorted_cons; [assumption|].
      apply Forall_cons; [lia|].
      apply Forall_forall. intros z Hz.
      apply (proj1 (Forall_forall _ _) Hy) in Hz. lia.
    + apply SSorted_cons; [apply IH; assumption|].
      apply Forall_forall. intros z Hz.
      apply (Permutation_in _ (Array_insert_perm higherLater x acc)) in Hz.
      destruct Hz as [<-|Hz]; [assumption|].
      apply (proj1 (Forall_forall _ _) Hy z Hz).
Qed.

Lemma rank_sort_stable (n : nat) (l : list A) :
  filter (fun a => (rank a =? n)%nat) (Array_sort higherLater l) =
  filter (fun a => (rank a =? n)%nat) l.
Proof.
  unfold Array_sort.
  enough (forall acc,
             StronglySorted (fun a b => (rank b <= rank a)%nat) acc ->
             filter (fun a => (rank a =? n)%nat)
                    (fold_left (fun acc x => Array_insert higherLater x acc)
                               l acc) =
             filter (fun a => (rank a =? n)%nat) acc ++
             filter (fun a => (rank a =? n)%nat) l)
    as H by (apply (H [] (SSorted_nil _))).
  induction l as [|x l IH]; intros acc Hacc; cbn [fold_left filter].
  - rewrite app_nil_r. reflexivity.
  - rewrite IH by (apply rank_insert_sorted; assumption).
    rewrite rank_insert_filter by assumption.
    rewrite <- app_assoc. destruct (rank x =? n)%nat; reflexivity.
Qed.
End SortByRank.

(** X12. The contributor list is in descending order of [totalCommits],
    and contributors with the same number of commits keep the order in
    which they were first seen. *)
Theorem contributors_sorted_and_stable (Date_getTime : jsstring -> float)
    (commits : list CommitAnalysis) :
  let cs := CommitHistory.contributors (summarize Date_getTime commits) in
  StronglySorted
    (fun a b => (ContributorStats.totalCommits b <=
                 ContributorStats.totalCommits a)%nat) cs /\
  forall n,
    filter (fun st => (ContributorStats.totalCommits st =? n)%nat) cs =
    filter (fun st => (ContributorStats.totalCommits st =? n)%nat)
           (JsMap.values (contributorMapOf Date_getTime commits)).
Proof.
  cbv zeta. unfold summarize; cbn [CommitHistory.contributors]. split.
  - apply (rank_sorted ContributorStats.totalCommits).
  - intros n. apply (rank_sort_stable ContributorStats.totalCommits).
Qed.

(** ** The timeline *)

Lemma list_sum_flags {A} (f : A -> bool) (l : list A) :
  list_sum (map (fun x => b2n (f x)) l) = List.length (filter f l).
Proof.
  induction l as [|x l IH]; [reflexivity|].
  cbn [map list_sum fold_right filter]. fold (list_sum (map (fun x => b2n (f x)) l)).
  rewrite IH. destruct (f x); reflexivity.
Qed.

Lemma timeline_entries (commits : list CommitAnalysis) :
  let m := fold_left foldTimeline commits [] in
  NoDup (map fst m) /\
  (forall k tl, In (k, tl) m ->
     TimelineStats.date tl = k /\
     TimelineStats.commits tl = List.length (commitsOn k commits) /\
     TimelineStats.aiCommits tl = countAI (commitsOn k commits) /\
     In k (map commitDay commits)) /\
  (forall c, In c commits -> exists tl, In (commitDay c, tl) m).
Proof.
  cbv zeta.
  pose proof (@upsert_all CommitAnalysis TimelineStats.t
                commitDay (fun c => newDay (commitDay c)) countOnDay
                (fun _ => 1%nat) TimelineStats.commits
                (fun k tl => TimelineStats.date tl = k)
                (fun c => eq_refl)
                (fun c v => eq_sym (Nat.add_1_r _))
                (fun c => eq_refl)
                (fun c k v H => H)
                commits) as [Hnd Hget].
  assert (forall c v,
             TimelineStats.aiCommits (countOnDay c v) =
             (TimelineStats.aiCommits v + b2n (isAI c))%nat) as Hai.
  { intros c v. cbn [countOnDay TimelineStats.aiCommits].
    destruct (isAI c); cbn [b2n]; lia. }
  pose proof (@upsert_all CommitAnalysis TimelineStats.t
                commitDay (fun c => newDay (commitDay c)) countOnDay
                (fun c => b2n (isAI c)) TimelineStats.aiCommits
                (fun _ _ => True)
                (fun c => eq_refl) Hai
                (fun c => I)
                (fun c k v H => H)
                commits) as [_ Hget'].
  change (upsert commitDay (fun c => newDay (commitDay c)) countOnDay)
    with foldTimeline in Hnd, Hget, Hget'.
  split; [exact Hnd|]. split.
  - intros k tl Hin. apply (JsMap_In_get _ _ _ Hnd) in Hin.
    specialize (Hget k). specialize (Hget' k). rewrite Hin in Hget, Hget'.
    destruct Hget as (Hm & Hk & Hgood). destruct Hget' as (Hm' & _).
    unfold weightTotal in Hm, Hm'.
    rewrite list_sum_ones in Hm. rewrite list_sum_flags in Hm'.
    repeat split; assumption.
  - intros c Hc. specialize (Hget (commitDay c)).
    destruct (JsMap.get (commitDay c) _) as [tl|] eqn:Htl.
    + exists tl. apply JsMap_get_In. assumption.
    + exfalso. apply Hget. apply in_map. assumption.
Qed.

(** X13. The timeline has exactly one bucket per calendar day (the text
    of the author date before its ['T']) that occurs among the commits, so
    every commit falls into exactly one bucket.  Each bucket counts the
    commits and the AI commits of its day, and its hours are those of
    exactly these commits. *)
Theorem timeline_one_bucket_per_day (Date_getTime : jsstring -> float)
    (commits : list CommitAnalysis) :
  let tl := CommitHistory.timeline (summarize Date_getTime commits) in
  NoDup (map TimelineStats.date tl) /\
  (forall c, In c commits ->
             exists b, In b tl /\ TimelineStats.date b = commitDay c) /\
  (forall b, In b tl ->
     let day := commitsOn (TimelineStats.date b) commits in
     day <> [] /\
     TimelineStats.commits b = List.length day /\
     TimelineStats.aiCommits b = countAI day /\
     TimelineStats.estimatedHours b =
       estimateWorkHours Date_getTime day defaultTimeWindow).
Proof.
  cbv zeta. unfold summarize; cbn [CommitHistory.timeline].
  destruct (timeline_entries commits) as (Hnd & Hentries & Hcover).
  set (m := fold_left foldTimeline commits []) in *.
  assert (map TimelineStats.date
              (JsMap.values (timelineMapOf Date_getTime commits)) =
          map fst m) as Hkeys.
  { unfold JsMap.values, timelineMapOf. fold m. rewrite !map_map.
    apply map_ext_in. intros [k b0] Hin.
    destruct (Hentries k b0 Hin) as (Hk & _). exact Hk. }
  split; [|split].
  - apply (Permutation_NoDup (l := map fst m)); [|assumption].
    rewrite <- Hkeys. apply Permutation_map. symmetry.
    apply Array_sort_perm.
  - intros c Hc. destruct (Hcover c Hc) as [b0 Hb0].
    exists (snd (finishDay Date_getTime commits (commitDay c, b0))).
    split.
    + apply (Permutation_in _ (Permutation_sym (Array_sort_perm _ _))).
      unfold JsMap.values, timelineMapOf. fold m. rewrite map_map.
      apply in_map_iff. exists (commitDay c, b0). split; auto.
    + destruct (Hentries _ _ Hb0) as (Hk & _). exact Hk.
  - intros b Hb.
    apply (Permutation_in _ (Array_sort_perm _ _)) in Hb.
    unfold JsMap.values, timelineMapOf in Hb. fold m in Hb.
    rewrite map_map in Hb. apply in_map_iff in Hb.
    destruct Hb as ([k b0] & <- & Hin).
    destruct (Hentries k b0 Hin) as (Hk & Hcount & Hai & Hpresent).
    cbn [finishDay snd TimelineStats.date TimelineStats.commits
         TimelineStats.aiCommits TimelineStats.estimatedHours].
    rewrite Hk. fold (commitsOn k commits). rewrite Hcount, Hai.
    repeat split.
    apply in_map_iff in Hpresent. destruct Hpresent as (c & Hc & Hin').
    intros Hempty.
    assert (In c (commitsOn k commits)) as Hc'.
    { apply filter_In. split; [assumption|]. rewrite Hc.
      apply String_eqb_refl. }
    rewrite Hempty in Hc'. destruct Hc'.
Qed.

(** ** The days of a contributor and the contributors of a day *)

Section UpsertOwn.
Variables C V : Type.
Variable keyOf : C -> jsstring.
Variable init : C -> V.
Variable step : C -> V -> V.
Variable P : list C -> V -> Prop.
Hypothesis P_init : forall c, P [] (init c).
Hypothesis P_step : forall c own v, P own v -> P (own ++ [c]) (step c v).

Lemma upsertOwn_step (m : JsMap.t V) (cs : list C) (c : C) :
  upsertOwn keyOf P m cs ->
  upsertOwn keyOf P (upsert keyOf init step m c) (cs ++ [c]).
Proof.
  intros Hinv k. unfold upsert, JsMap.has.
  rewrite JsMap_get_update, filter_app. cbn [filter].
  pose proof (Hinv (keyOf c)) as Hkey.
  destruct (String_eqb (keyOf c) k) eqn:Hk.
  - apply String_eqb_eq in Hk. subst k.
    destruct (JsMap.get (keyOf c) m) as [v|] eqn:Hc; cbn [negb].
    + rewrite Hc. cbn [option_map]. apply P_step. assumption.
    + rewrite JsMap_get_set_other, String_eqb_refl. cbn [option_map].
      rewrite Hkey. apply (P_step c (P_init c)).
  - rewrite app_nil_r.
    assert (JsMap.get k
              (if negb match JsMap.get (keyOf c) m with
                       | Some _ => true
                       | None => false
                       end
               then JsMap.set (keyOf c) (init c) m else m) =
            JsMap.get k m) as ->.
    { destruct (JsMap.get (keyOf c) m); cbn [negb]; [reflexivity|].
      rewrite JsMap_get_set_other, Hk. reflexivity. }
    apply Hinv.
Qed.

Lemma upsertOwn_all (cs : list C) :
  upsertOwn keyOf P (fold_left (upsert keyOf init step) cs []) cs.
Proof.
  enough (forall m done,
             upsertOwn keyOf P m done ->
             upsertOwn keyOf P (fold_left (upsert keyOf init step) cs m)
                       (done ++ cs)) as H.
  { apply (H [] []). intros k. reflexivity. }
  induction cs as [|c cs IH]; intros m done Hinv; cbn [fold_left].
  - rewrite app_nil_r. assumption.
  - replace (done ++ c :: cs) with ((done ++ [c]) ++ cs)
      by (rewrite <- app_assoc; reflexivity).
    apply IH. apply upsertOwn_step. assumption.
Qed.
End UpsertOwn.

Lemma pushNew_fold (l : list jsstring) :
  forall seen,
    NoDup seen ->
    NoDup (fold_left pushNew l seen) /\
    forall s, In s (fold_left pushNew l seen) <-> In s seen \/ In s l.
Proof.
  induction l as [|x l IH]; intros seen Hseen; cbn [fold_left].
  - split; [assumption|]. intros s. cbn [In]. tauto.
  - assert (NoDup (pushNew seen x) /\
            forall s, In s (pushNew seen x) <-> In s seen \/ s = x)
      as [Hnd Hin].
    { unfold pushNew. destruct (Array_includes seen x) eqn:Hx; cbn [negb].
      - split; [assumption|]. intros s. split; [tauto|].
        intros [H|H]; [assumption|]. subst s.
        apply Array_includes_In. assumption.
      - split.
        + apply NoDup_app; [assumption | | ].
          * apply NoDup_cons; [intros [] | apply NoDup_nil].
          * intros s Hs [<-|[]]. apply Array_includes_In in Hs. congruence.
        + intros s. rewrite in_app_iff. cbn [In]. intuition congruence. }
    destruct (IH _ Hnd) as [Hnd' Hin']. split; [assumption|].
    intros s. rewrite Hin', Hin. cbn [In]. intuition congruence.
Qed.

Lemma distinct_spec (l : list jsstring) :
  NoDup (distinct l) /\ forall s, In s (distinct l) <-> In s l.
Proof.
  destruct (pushNew_fold l (NoDup_nil _)) as [Hnd Hin].
  split; [assumption|]. intros s. rewrite (Hin s). cbn [In]. tauto.
Qed.

Lemma distinct_snoc (l : list jsstring) (s : jsstring) :
  distinct (l ++ [s]) = pushNew (distinct l) s.
Proof. unfold distinct. rewrite fold_left_app. reflexivity. Qed.

Lemma commitDays_step (Date_getTime : jsstring -> float)
    (c : CommitAnalysis) (own : list CommitAnalysis)
    (v : ContributorStats.t) :
  ContributorStats.commitDays v = distinct (map commitDay own) ->
  ContributorStats.commitDays (countCommit Date_getTime c v) =
  distinct (map commitDay (own ++ [c])).
Proof.
  intros H. rewrite map_app. cbn [map]. rewrite distinct_snoc.
  cbn [countCommit ContributorStats.commitDays]. rewrite H. reflexivity.
Qed.

(** X14. The [commitDays] of a contributor are the calendar days of the
    commits with the contributor's key, each day once, in the order in
    which the days first occur. *)
Theorem commitDays_are_the_distinct_days (Date_getTime : jsstring -> float)
    (commits : list CommitAnalysis) (st : ContributorStats.t) :
  In st (CommitHistory.contributors (summarize Date_getTime commits)) ->
  let own := commitsOf (aggregateKey st) commits in
  ContributorStats.commitDays st = distinct (map commitDay own) /\
  NoDup (ContributorStats.commitDays st) /\
  (forall day, In day (ContributorStats.commitDays st) <->
               exists c, In c own /\ commitDay c = day).
Proof.
  intros Hst. cbv zeta.
  assert (ContributorStats.commitDays st =
          distinct (map commitDay (commitsOf (aggregateKey st) commits)))
    as Hdays.
  { unfold summarize in Hst; cbn [CommitHistory.contributors] in Hst.
    apply (Permutation_in _ (Array_sort_perm _ _)) in Hst.
    unfold JsMap.values, contributorMapOf in Hst.
    rewrite map_map in Hst. apply in_map_iff in Hst.
    destruct Hst as ([k st0] & <- & Hin).
    destruct (contributor_entries Date_getTime commits)
      as (Hnd & Hentries & _).
    destruct (Hentries k st0 Hin) as (Hk & _).
    apply (JsMap_In_get _ _ _ Hnd) in Hin.
    pose proof (@upsertOwn_all CommitAnalysis ContributorStats.t
                  contributorKey newContributor (countCommit Date_getTime)
                  (fun own v => ContributorStats.commitDays v =
                                distinct (map commitDay own))
                  (fun c => eq_refl) (commitDays_step Date_getTime)
                  commits k) as Hown.
    change (upsert contributorKey newContributor (countCommit Date_getTime))
      with (foldContributor Date_getTime) in Hown.
    rewrite Hin in Hown.
    cbn [finishContributor snd]. unfold aggregateKey in *.
    cbn [ContributorStats.name ContributorStats.email
         ContributorStats.commitDays].
    rewrite Hk. exact Hown. }
  split; [exact Hdays|]. rewrite Hdays.
  destruct (distinct_spec
              (map commitDay (commitsOf (aggregateKey st) commits)))
    as [Hnd Hin].
  split; [assumption|]. intros day. rewrite Hin, in_map_iff.
  split; intros (c & H1 & H2); exists c; auto.
Qed.

Lemma commitDays_are_the_distinct_days_witness :
  let st := hd (newContributor (commitBy "Ada" "ada@example.org"))
               (CommitHistory.contributors
                  (summarize IsoDate.getTime loginCommits)) in
  let own := commitsOf (aggregateKey st) loginCommits in
  ContributorStats.commitDays st = distinct (map commitDay own) /\
  NoDup (ContributorStats.commitDays st) /\
  (forall day, In day (ContributorStats.commitDays st) <->
               exists c, In c own /\ commitDay c = day).
Proof.
  apply (@commitDays_are_the_distinct_days IsoDate.getTime loginCommits).
  vm_compute. left. reflexivity.
Defined.

Lemma dayContributors_step (c : CommitAnalysis) (own : list CommitAnalysis)
    (v : TimelineStats.t) :
  TimelineStats.contributors v =
    distinct (map (fun c => name (author c)) own) ->
  TimelineStats.contributors (countOnDay c v) =
  distinct (map (fun c => name (author c)) (own ++ [c])).
Proof.
  intros H. rewrite map_app. cbn [map]. rewrite distinct_snoc.
  cbn [countOnDay TimelineStats.contributors]. rewrite H. reflexivity.
Qed.

(** X15. The [contributors] of a timeline bucket are the author names
    of the commits of its day, each name once, in the order in which the
    names first occur; authors are told apart by name only, not by
    e-mail. *)
Theorem day_contributors_are_the_distinct_names
    (Date_getTime : jsstring -> float) (commits : list CommitAnalysis)
    (b : TimelineStats.t) :
  In b (CommitHistory.timeline (summarize Date_getTime commits)) ->
  let day := commitsOn (TimelineStats.date b) commits in
  TimelineStats.contributors b =
    distinct (map (fun c => name (author c)) day) /\
  NoDup (TimelineStats.contributors b) /\
  (forall who, In who (TimelineStats.contributors b) <->
               exists c, In c day /\ name (author c) = who).
Proof.
  intros Hb. cbv zeta.
  assert (TimelineStats.contributors b =
          distinct (map (fun c => name (author c))
                        (commitsOn (TimelineStats.date b) commits)))
    as Hnames.
  { unfold summarize in Hb; cbn [CommitHistory.timeline] in Hb.
    apply (Permutation_in _ (Array_sort_perm _ _)) in Hb.
    unfold JsMap.values, timelineMapOf in Hb.
    rewrite map_map in Hb. apply in_map_iff in Hb.
    destruct Hb as ([k b0] & <- & Hin).
    destruct (timeline_entries commits) as (Hnd & Hentries & _).
    destruct (Hentries k b0 Hin) as (Hk & _).
    apply (JsMap_In_get _ _ _ Hnd) in Hin.
    pose proof (@upsertOwn_all CommitAnalysis TimelineStats.t
                  commitDay (fun c => newDay (commitDay c)) countOnDay
                  (fun own v => TimelineStats.contributors v =
                                distinct (map (fun c => name (author c)) own))
                  (fun c => eq_refl) dayContributors_step
                  commits k) as Hown.
    change (upsert commitDay (fun c => newDay (commitDay c)) countOnDay)
      with foldTimeline in Hown.
    rewrite Hin in Hown.
    cbn [finishDay snd TimelineStats.date TimelineStats.contributors].
    rewrite Hk. exact Hown. }
  split; [exact Hnames|]. rewrite Hnames.
  destruct (distinct_spec
              (map (fun c => name (author c))
                   (commitsOn (TimelineStats.date b) commits)))
    as [Hnd Hin].
  split; [assumption|]. intros who. rewrite Hin, in_map_iff.
  split; intros (c & H1 & H2); exists c; auto.
Qed.

Lemma day_contributors_are_the_distinct_names_witness :
  let b := hd (newDay (js "2024-01-01"))
              (CommitHistory.timeline
                 (summarize IsoDate.getTime loginCommits)) in
  let day := commitsOn (TimelineStats.date b) loginCommits in
  TimelineStats.contributors b =
    distinct (map (fun c => name (author c)) day) /\
  NoDup (TimelineStats.contributors b) /\
  (forall who, In who (TimelineStats.contributors b) <->
               exists c, In c day /\ name (author c) = who).
Proof.
  apply (@day_contributors_are_the_distinct_names IsoDate.getTime
           loginCommits).
  vm_compute. left. reflexivity.
Defined.

(** ** The first and the last date of the project *)

Lemma String_ltb_irrefl (a : jsstring) : String_ltb a a = false.
Proof.
  induction a as [|x a IH]; [reflexivity|].
  cbn [String_ltb]. rewrite N.ltb_irrefl, N.eqb_refl, IH. reflexivity.
Qed.

Lemma String_ltb_asym (a b : jsstring) :
  String_ltb a b = true -> String_ltb b a = false.
Proof.
  revert b. induction a as [|x a IH]; intros [|y b] H; cbn [String_ltb] in *;
    try reflexivity; try discriminate.
  destruct (N.lt_trichotomy x y) as [Hlt|[Heq|Hgt]].
  - replace (y <? x)%N with false by (symmetry; apply N.ltb_ge; lia).
    replace (y =? x)%N with false by (symmetry; apply N.eqb_neq; lia).
    reflexivity.
  - subst y. rewrite N.ltb_irrefl, N.eqb_refl in *. cbn [orb andb] in *.
    apply IH. assumption.
  - replace (x <? y)%N with false in H by (symmetry; apply N.ltb_ge; lia).
    replace (x =? y)%N with false in H by (symmetry; apply N.eqb_neq; lia).
    discriminate.
Qed.

Lemma String_leb_trans (a b c : jsstring) :
  String_ltb b a = false -> String_ltb c b = false ->
  String_ltb c a = false.
Proof.
  revert b c. induction a as [|x a IH]; intros b c Hba Hcb.
  - destruct c; reflexivity.
  - destruct b as [|y b]; [discriminate|].
    destruct c as [|z c]; [discriminate|].
    cbn [String_ltb] in *.
    apply orb_false_iff in Hba, Hcb. destruct Hba as [Hyx Hba], Hcb as [Hzy Hcb].
    apply N.ltb_ge in Hyx, Hzy. apply orb_false_iff. split.
    + apply N.ltb_ge. lia.
    + destruct (N.eqb_spec z x) as [->|]; [|reflexivity].
      assert (y = x) as -> by lia.
      rewrite N.eqb_refl in Hba, Hcb. cbn [andb] in *.
      apply (IH _ _ Hba Hcb).
Qed.

Lemma sorted_ends (l : list jsstring) :
  StronglySorted (fun a b => String_ltb b a = false) l ->
  forall s, In s l ->
            String_ltb s (hd [] l) = false /\ String_ltb (last l []) s = false.
Proof.
  induction 1 as [|x l Hl IH Hx]; intros s Hs; [destruct Hs|].
  cbn [hd]. split.
  - destruct Hs as [<-|Hs]; [apply String_ltb_irrefl|].
    apply (proj1 (Forall_forall _ _) Hx s Hs).
  - destruct l as [|y l].
    + destruct Hs as [<-|[]]. apply String_ltb_irrefl.
    + change (last (x :: y :: l) []) with (last (y :: l) []).
      destruct Hs as [<-|Hs]; [|apply (IH s Hs)].
      apply (proj1 (Forall_forall _ _) Hx).
      clear. revert y. induction l as [|z l IHl]; intros y.
      * left. reflexivity.
      * right. apply (IHl z).
Qed.

(** X16. [projectStartDate] and [projectEndDate] are the least and the
    greatest author date of the commits in the order of their text (code
    unit by code unit), and both are dates of commits. *)
Theorem project_dates_are_extremes (Date_getTime : jsstring -> float)
    (commits : list CommitAnalysis) (c : CommitAnalysis) :
  In c commits ->
  let h := summarize Date_getTime commits in
  String_ltb (date (author c)) (CommitHistory.projectStartDate h) = false /\
  String_ltb (CommitHistory.projectEndDate h) (date (author c)) = false /\
  In (CommitHistory.projectStartDate h)
     (map (fun c => date (author c)) commits) /\
  In (CommitHistory.projectEndDate h)
     (map (fun c => date (author c)) commits).
Proof.
  intros Hc. cbv zeta. unfold summarize.
  cbn [CommitHistory.projectStartDate CommitHistory.projectEndDate].
  set (dates := map (fun c => date (author c)) commits).
  set (sorted := Array_sort (fun a b => String_ltb b a) dates).
  assert (Permutation sorted dates) as Hperm by apply Array_sort_perm.
  assert (StronglySorted (fun a b => String_ltb b a = false) sorted) as Hs.
  { apply Array_sort_sorted.
    - intros a b. apply String_ltb_asym.
    - intros a b d. apply String_leb_trans. }
  assert (In (date (author c)) sorted) as Hin.
  { apply (Permutation_in _ (Permutation_sym Hperm)).
    unfold dates. apply in_map_iff. exists c. split; auto. }
  destruct (sorted_ends Hs _ Hin) as [Hfirst Hlast].
  split; [assumption|]. split; [assumption|].
  destruct sorted as [|x rest] eqn:Hsorted; [destruct Hin|].
  split; apply (Permutation_in _ Hperm).
  - left. reflexivity.
  - clear. revert x. induction rest as [|y rest IH]; intros x.
    + left. reflexivity.
    + right. apply (IH y).
Qed.

Lemma project_dates_are_extremes_witness :
  let c := classify (loginCommit "c2" "2024-01-01T11:00:00Z" 5) in
  let h := summarize IsoDate.getTime loginCommits in
  String_ltb (date (author c)) (CommitHistory.projectStartDate h) = false /\
  String_ltb (CommitHistory.projectEndDate h) (date (author c)) = false /\
  In (CommitHistory.projectStartDate h)
     (map (fun c => date (author c)) loginCommits) /\
  In (CommitHistory.projectEndDate h)
     (map (fun c => date (author c)) loginCommits).
Proof.
  apply (@project_dates_are_extremes IsoDate.getTime loginCommits).
  right. left. reflexivity.
Defined.

(** ** The report of [analyzeGitHubRepository] *)

Section Report.
Variable World : Type.
Variable remote : Remote World.
Variable Date_getTime : jsstring -> float.
Variable localeCompare : jsstring -> jsstring -> float.

Lemma resolveFork_result (owner repo : jsstring) (w w' : World)
    (identity : Identity) :
  resolveFork remote owner repo w = (Normal identity, w') ->
  (id_isForked identity = false /\ id_owner identity = owner /\
   id_repo identity = repo /\ id_originalRepositoryUrl identity = None) \/
  (id_isForked identity = true /\
   exists parentUrl, id_originalRepositoryUrl identity = Some parentUrl).
Proof.
  unfold resolveFork, tryCatch, bind.
  destruct (fetchGitHubRepo remote owner repo w) as [[repoInfo|e] w1].
  - destruct (fork repoInfo); [destruct (parent repoInfo) as [p|]|];
      try (intros H; inversion H; left; repeat split; reflexivity).
    destruct (matchOwnerRepo (full_name p)) as [[o r]|];
      intros H; inversion H; right; split; try reflexivity;
      eexists; reflexivity.
  - intros H. inversion H. left. repeat split; reflexivity.
Qed.

Lemma analyzeFile_result (acc acc' : Totals) (f : GitHubFile.t)
    (w w' : World) :
  analyzeFile remote acc f w = (Normal acc', w') ->
  acc' = acc \/
  exists result,
    fileAnalyses acc' =
    fileAnalyses acc ++
    [{| fa_path := GitHubFile.path f;
        language := getLanguageFromPath (GitHubFile.path f);
        analysis := result;
        fa_size := GitHubFile.size f |}].
Proof.
  unfold analyzeFile, tryCatch, bind.
  destruct (fetchFileContent remote _ w) as [[content|e] w1].
  - destruct (String_isBlank content).
    + intros H. inversion H. left. reflexivity.
    + destruct (analyzeCode remote content _ w1) as [[result|e] w2];
        intros H; inversion H; [right | left; reflexivity].
      exists result. reflexivity.
  - intros H. inversion H. left. reflexivity.
Qed.

Lemma analyzeFiles_result (todo : list GitHubFile.t) :
  forall (acc acc' : Totals) (w w' : World),
    forEach todo acc (analyzeFile remote) w = (Normal acc', w') ->
    exists added,
      fileAnalyses acc' = fileAnalyses acc ++ added /\
      (List.length added <= List.length todo)%nat /\
      Forall (fun fa =>
                exists f, In f todo /\
                  fa_path fa = GitHubFile.path f /\
                  fa_size fa = GitHubFile.size f /\
                  language fa = getLanguageFromPath (GitHubFile.path f))
             added.
Proof.
  induction todo as [|f todo IH]; intros acc acc' w w' Hrun.
  - inversion Hrun. exists []. rewrite app_nil_r.
    repeat split; [apply Nat.le_refl | apply Forall_nil].
  - cbn [forEach] in Hrun. unfold bind in Hrun.
    destruct (analyzeFile remote acc f w) as [[acc1|e] w1] eqn:Hstep;
      [|discriminate].
    destruct (IH _ _ _ _ Hrun) as (added & Heq & Hlen & Hall).
    assert (Forall (fun fa =>
                exists f0, In f0 (f :: todo) /\
                  fa_path fa = GitHubFile.path f0 /\
                  fa_size fa = GitHubFile.size f0 /\
                  language fa = getLanguageFromPath (GitHubFile.path f0))
              added) as Hall'.
    { apply Forall_forall. intros fa Hfa.
      destruct (proj1 (Forall_forall _ _) Hall fa Hfa) as (f0 & Hf0 & H).
      exists f0. split; [right; assumption | assumption]. }
    apply analyzeFile_result in Hstep. destruct Hstep as [->|[result Hone]].
    + exists added. repeat split; try assumption. cbn [List.length]. lia.
    + eexists (_ :: added). rewrite Heq, Hone, <- app_assoc.
      split; [reflexivity|]. split; [cbn [List.length]; lia|].
      apply Forall_cons; [|assumption].
      exists f. repeat split. left. reflexivity.
Qed.

(** The stages a run that returns a report went through. *)
Lemma run_report_shape (repositoryUrl : jsstring) (flag : bool)
    (w w' : World) (report : RepositoryAnalysis) :
  analyzeGitHubRepository remote Date_getTime localeCompare
    repositoryUrl flag w = (Normal report, w') ->
  exists owner repo identity w1 allFiles n w2 has w3 acc w4 history,
    matchRepositoryUrl repositoryUrl = Some (owner, repo) /\
    resolveFork remote owner repo w = (Normal identity, w1) /\
    getAllFilesFromAllBranches remote localeCompare
      (id_owner identity) (id_repo identity) w1 =
      (Normal (allFiles, n), w2) /\
    checkForLovableKeyword remote (id_owner identity) (id_repo identity)
      allFiles w2 = (Normal has, w3) /\
    forEach (filter analyzeable allFiles) noTotals (analyzeFile remote) w3 =
      (Normal acc, w4) /\
    (flag = false -> history = None) /\
    report =
    {| repositoryUrl :=
         if id_isForked identity
         then match id_originalRepositoryUrl identity with
              | Some original => original
              | None => repositoryUrl
              end
         else repositoryUrl;
       originalRepositoryUrl :=
         if id_isForked identity
         then id_originalRepositoryUrl identity else None;
       isForked := id_isForked identity;
       totalFiles := List.length allFiles;
       analyzedFiles := List.length (fileAnalyses acc);
       totalBranches := n;
       files := Array_sort reportAfter (fileAnalyses acc);
       overallStats := overallStatsOf acc;
       hasLovableLabel := has;
       commitAnalysis := history |}.
Proof.
  unfold analyzeGitHubRepository.
  destruct (matchRepositoryUrl repositoryUrl) as [[owner repo]|];
    [|discriminate].
  unfold bind.
  destruct (resolveFork remote owner repo w) as [[identity|e] w1] eqn:H1;
    [|discriminate].
  destruct (getAllFilesFromAllBranches remote localeCompare
              (id_owner identity) (id_repo identity) w1)
    as [[[allFiles n]|e] w2] eqn:H2; [|discriminate].
  destruct (checkForLovableKeyword remote (id_owner identity)
              (id_repo identity) allFiles w2) as [[has|e] w3] eqn:H3;
    [|discriminate].
  destruct (List.length (filter analyzeable allFiles) =? 0)%nat;
    [discriminate|].
  destruct (forEach (filter analyzeable allFiles) noTotals
                    (analyzeFile remote) w3) as [[acc|e] w4] eqn:H4;
    [|discriminate].
  destruct flag.
  - unfold tryCatch, ret.
    destruct (analyzeCommitHistory remote Date_getTime (id_owner identity)
                (id_repo identity) w4) as [[h|e] w5];
      intros H; inversion H;
      exists owner, repo, identity, w1, allFiles, n, w2, has, w3, acc, w4;
      [exists (Some h) | exists None];
      repeat split; try assumption; intros Hf; discriminate Hf.
  - unfold ret. intros H. inversion H.
    exists owner, repo, identity, w1, allFiles, n, w2, has, w3, acc, w4, None.
    repeat split; try assumption; reflexivity.
Qed.
End Report.

Section ReportFacts.
Variable World : Type.
Variable remote : Remote World.
Variable Date_getTime : jsstring -> float.
Variable localeCompare : jsstring -> jsstring -> float.

(** X17. In a report, [analyzedFiles] is the length of [files] and is at
    most [totalFiles]; every file of the report passed
    [shouldAnalyzeFile], has a size above 0 and below 1 MiB, and carries
    the language of its path. *)
Theorem report_files (repositoryUrl : jsstring) (includeCommitHistory : bool)
    (w w' : World) (report : RepositoryAnalysis) :
  analyzeGitHubRepository remote Date_getTime localeCompare
    repositoryUrl includeCommitHistory w = (Normal report, w') ->
  analyzedFiles report = List.length (files report) /\
  (analyzedFiles report <= totalFiles report)%nat /\
  forall fa, In fa (files report) ->
    shouldAnalyzeFile (fa_path fa) = true /\
    (0 < fa_size fa < 1024 * 1024)%N /\
    language fa = getLanguageFromPath (fa_path fa).
Proof.
  intros Hrun. apply run_report_shape in Hrun.
  destruct Hrun as (owner & repo & identity & w1 & allFiles & n & w2 & has &
                    w3 & acc & w4 & history & _ & _ & _ & _ & Hfiles & _ & ->).
  cbn [analyzedFiles files totalFiles].
  apply analyzeFiles_result in Hfiles.
  destruct Hfiles as (added & Heq & Hlen & Hall).
  cbn [noTotals fileAnalyses app] in Heq. rewrite Heq.
  pose proof (Array_sort_perm reportAfter added) as Hperm.
  split; [symmetry; apply Permutation_length; assumption|].
  split.
  - pose proof (filter_length_le analyzeable allFiles). lia.
  - intros fa Hfa. apply (Permutation_in _ Hperm) in Hfa.
    destruct (proj1 (Forall_forall _ _) Hall fa Hfa)
      as (f & Hf & Hpath & Hsize & Hlang).
    apply filter_In in Hf. destruct Hf as [_ Hf].
    unfold analyzeable in Hf.
    apply andb_true_iff in Hf. destruct Hf as [Hf _].
    apply andb_true_iff in Hf. destruct Hf as [Hf Hlt].
    apply andb_true_iff in Hf. destruct Hf as [Hshould Hpos].
    apply negb_true_iff, N.eqb_neq in Hpos. apply N.ltb_lt in Hlt.
    rewrite Hpath, Hsize, Hlang. repeat split; try assumption. lia.
Qed.

Lemma resolveFork_by_metadata (owner repo : jsstring) (w w' : World)
    (identity : Identity) :
  resolveFork remote owner repo w = (Normal identity, w') ->
  let unchanged :=
    {| id_owner := owner; id_repo := repo;
       id_originalRepositoryUrl := None; id_isForked := false |} in
  match fetchGitHubRepo remote owner repo w with
  | (Normal repoInfo, _) =>
      match fork repoInfo, parent repoInfo with
      | true, Some p =>
          id_isForked identity = true /\
          id_originalRepositoryUrl identity = Some (html_url p)
      | _, _ => identity = unchanged
      end
  | (Throw _, _) => identity = unchanged
  end.
Proof.
  unfold resolveFork, tryCatch, bind.
  destruct (fetchGitHubRepo remote owner repo w) as [[repoInfo|e] w1].
  - destruct (fork repoInfo); [destruct (parent repoInfo) as [p|]|].
    + destruct (matchOwnerRepo (full_name p)) as [[o r]|];
        intros H; inversion H; split; reflexivity.
    + intros H. inversion H. reflexivity.
    + intros H. inversion H. reflexivity.
  - intros H. inversion H. reflexivity.
Qed.

(** X18. In a report, [commitAnalysis] is absent when the commit history
    was not asked for.  The report is marked as forked exactly when the
    metadata of the repository named by the URL were answered with
    [fork] set and a parent; then [repositoryUrl] and
    [originalRepositoryUrl] both are the [html_url] of that parent.
    Otherwise the report carries the URL that was passed in and no
    original URL. *)
Theorem report_identity (repositoryUrl : jsstring)
    (includeCommitHistory : bool) (w w' : World)
    (report : RepositoryAnalysis) :
  analyzeGitHubRepository remote Date_getTime localeCompare
    repositoryUrl includeCommitHistory w = (Normal report, w') ->
  exists owner repo,
    matchRepositoryUrl repositoryUrl = Some (owner, repo) /\
    (includeCommitHistory = false -> commitAnalysis report = None) /\
    (isForked report = false ->
     reportUrl report = repositoryUrl /\
     originalRepositoryUrl report = None) /\
    (isForked report = true <->
     exists repoInfo p w1,
       fetchGitHubRepo remote owner repo w = (Normal repoInfo, w1) /\
       fork repoInfo = true /\ parent repoInfo = Some p) /\
    (forall repoInfo p w1,
       fetchGitHubRepo remote owner repo w = (Normal repoInfo, w1) ->
       fork repoInfo = true -> parent repoInfo = Some p ->
       originalRepositoryUrl report = Some (html_url p) /\
       reportUrl report = html_url p).
Proof.
  intros Hrun. apply run_report_shape in Hrun.
  destruct Hrun as (owner & repo & identity & w1 & allFiles & n & w2 & has &
                    w3 & acc & w4 & history & Hurl & Hfork & _ & _ & _ &
                    Hhistory & ->).
  exists owner, repo.
  cbn [commitAnalysis isForked originalRepositoryUrl]. unfold reportUrl.
  split; [exact Hurl|]. split; [exact Hhistory|].
  apply resolveFork_by_metadata in Hfork. cbv zeta in Hfork.
  destruct (fetchGitHubRepo remote owner repo w) as [[repoInfo|e] w5].
  - destruct (fork repoInfo) eqn:Hflag;
      [destruct (parent repoInfo) as [p|] eqn:Hparent|].
    + destruct Hfork as [Hf Ho]. rewrite Hf, Ho.
      split; [discriminate|]. split.
      * split; [intros _|reflexivity].
        exists repoInfo, p, w5. repeat split; assumption.
      * intros repoInfo' p' w6 Heq _ Hp. inversion Heq. subst.
        rewrite Hparent in Hp. inversion Hp. subst. split; reflexivity.
    + subst identity. cbn [id_isForked id_originalRepositoryUrl].
      split; [intros _; split; reflexivity|]. split.
      * split; [discriminate|].
        intros (repoInfo' & p & w6 & Heq & _ & Hp).
        inversion Heq. subst. rewrite Hparent in Hp. discriminate.
      * intros repoInfo' p w6 Heq _ Hp. inversion Heq. subst.
        rewrite Hparent in Hp. discriminate.
    + subst identity. cbn [id_isForked id_originalRepositoryUrl].
      split; [intros _; split; reflexivity|]. split.
      * split; [discriminate|].
        intros (repoInfo' & p & w6 & Heq & Hf & _).
        inversion Heq. subst. rewrite Hflag in Hf. discriminate.
      * intros repoInfo' p w6 Heq Hf _. inversion Heq. subst.
        rewrite Hflag in Hf. discriminate.
  - subst identity. cbn [id_isForked id_originalRepositoryUrl].
    split; [intros _; split; reflexivity|]. split.
    + split; [discriminate|].
      intros (repoInfo' & p & w6 & Heq & _). discriminate.
    + intros repoInfo' p w6 Heq. discriminate.
Qed.
End ReportFacts.

Lemma report_files_witness :
  exists report,
    fst (analyzeGitHubRepository twoBranches IsoDate.getTime compareUnits
           (js "https://github.com/owner/repo") false tt) = Normal report /\
    (analyzedFiles report = List.length (files report) /\
     (analyzedFiles report <= totalFiles report)%nat /\
     forall fa, In fa (files report) ->
       shouldAnalyzeFile (fa_path fa) = true /\
       (0 < fa_size fa < 1024 * 1024)%N /\
       language fa = getLanguageFromPath (fa_path fa)).
Proof.
  eexists. split; [vm_compute; reflexivity|].
  apply (@report_files unit twoBranches IsoDate.getTime compareUnits
           (js "https://github.com/owner/repo") false tt tt).
  vm_compute. reflexivity.
Defined.

(** A run on a fork: the report names the parent. *)
Lemma report_identity_witness :
  exists report,
    fst (analyzeGitHubRepository forkHost IsoDate.getTime compareUnits
           (js "https://github.com/owner/tool") false tt) = Normal report /\
    isForked report = true /\
    originalRepositoryUrl report = Some (html_url upstream) /\
    reportUrl report = html_url upstream.
Proof.
  eexists. split; [vm_compute; reflexivity|].
  split; [vm_compute; reflexivity|].
  destruct (@report_identity unit forkHost IsoDate.getTime compareUnits
              (js "https://github.com/owner/tool") false tt tt _
              ltac:(vm_compute; reflexivity))
    as (owner & repo & Hurl & _ & _ & _ & Hparent).
  vm_compute in Hurl. inversion Hurl. subst owner repo.
  apply (Hparent {| fork := true; parent := Some upstream |} upstream tt);
    vm_compute; reflexivity.
Defined.

(** ** The order of the report and of the branch walk *)

Section SortByClass.
Variable A : Type.
Variable after : A -> A -> bool.
Variable class : A -> nat.
Hypothesis after_higher :
  forall x y, (class x < class y)%nat -> after y x = true.
Hypothesis after_lower :
  forall x y, (class y < class x)%nat -> after y x = false.

Lemma class_insert_sorted (x : A) (l : list A) :
  StronglySorted (fun a b => (class a <= class b)%nat) l ->
  StronglySorted (fun a b => (class a <= class b)%nat)
                 (Array_insert after x l).
Proof.
  induction l as [|y l IH]; intros Hs; cbn [Array_insert].
  - apply SSorted_cons; [apply SSorted_nil | apply Forall_nil].
  - inversion Hs as [|y' l' Hl Hy]; subst.
    destruct (after y x) eqn:Hyx.
    + assert (class x <= class y)%nat as Hxy.
      { destruct (Nat.le_gt_cases (class x) (class y)) as [H|H];
          [assumption|].
        rewrite (after_lower H) in Hyx. discriminate. }
      apply SSorted_cons; [assumption|].
      apply Forall_cons; [assumption|].
      apply Forall_forall. intros z Hz.
      apply (proj1 (Forall_forall _ _) Hy) in Hz. lia.
    + assert (class y <= class x)%nat as Hxy.
      { destruct (Nat.le_gt_cases (class y) (class x)) as [H|H];
          [assumption|].
        rewrite (after_higher H) in Hyx. discriminate. }
      apply SSorted_cons; [apply IH; assumption|].
      apply Forall_forall. intros z Hz.
      apply (Permutation_in _ (Array_insert_perm after x l)) in Hz.
      destruct Hz as [<-|Hz]; [assumption|].
      apply (proj1 (Forall_forall _ _) Hy z Hz).
Qed.

Lemma class_sort_sorted (l : list A) :
  StronglySorted (fun a b => (class a <= class b)%nat) (Array_sort after l).
Proof.
  unfold Array_sort.
  enough (forall acc,
             StronglySorted (fun a b => (class a <= class b)%nat) acc ->
             StronglySorted (fun a b => (class a <= class b)%nat)
               (fold_left (fun acc x => Array_insert after x acc) l acc))
    as H by (apply H; apply SSorted_nil).
  induction l as [|x l IH]; intros acc Hacc; cbn [fold_left];
    [assumption|].
  apply IH. apply class_insert_sorted. assumption.
Qed.
End SortByClass.

Lemma reportAfter_tiers (x y : FileAnalysis) :
  ((tier x < tier y)%nat -> reportAfter y x = true) /\
  ((tier y < tier x)%nat -> reportAfter y x = false).
Proof.
  unfold tier, reportAfter.
  destruct (hasEvidence "invisible Unicode" x),
    (hasEvidence "invisible Unicode" y),
    (hasEvidence "emojis" x), (hasEvidence "emojis" y);
    cbn [andb negb Nat.add]; split; intros H;
    try reflexivity; exfalso; lia.
Qed.

(** X19. The files of a report are ordered by evidence: a file with a
    line flagged for invisible characters never comes after one without,
    and among files that agree on that, a file with a line flagged for
    emojis never comes after one without. *)
Theorem report_files_ordered_by_evidence (World : Type)
    (remote : Remote World) (Date_getTime : jsstring -> float)
    (localeCompare : jsstring -> jsstring -> float)
    (repositoryUrl : jsstring) (includeCommitHistory : bool)
    (w w' : World) (report : RepositoryAnalysis) :
  analyzeGitHubRepository remote Date_getTime localeCompare
    repositoryUrl includeCommitHistory w = (Normal report, w') ->
  StronglySorted (fun a b => (tier a <= tier b)%nat) (files report).
Proof.
  intros Hrun. apply run_report_shape in Hrun.
  destruct Hrun as (owner & repo & identity & w1 & allFiles & n & w2 & has &
                    w3 & acc & w4 & history & _ & _ & _ & _ & _ & _ & ->).
  cbn [files]. apply class_sort_sorted.
  - intros x y. apply (proj1 (reportAfter_tiers x y)).
  - intros x y. apply (proj2 (reportAfter_tiers x y)).
Qed.

(** A run on [evidenceHost]: the files are listed and analysed in the
    order plain, emoji, hidden, and reported in the order hidden, emoji,
    plain. *)
Lemma report_files_ordered_by_evidence_witness :
  exists report,
    fst (analyzeGitHubRepository evidenceHost IsoDate.getTime compareUnits
           (js "https://github.com/owner/repo") false tt) = Normal report /\
    map fa_path (files report) =
      [js "hidden.ts"; js "emoji.ts"; js "plain.ts"] /\
    map tier (files report) = [1; 2; 3]%nat /\
    StronglySorted (fun a b => (tier a <= tier b)%nat) (files report).
Proof.
  eexists. split; [vm_compute; reflexivity|].
  split; [vm_compute; reflexivity|].
  split; [vm_compute; reflexivity|].
  apply (@report_files_ordered_by_evidence unit evidenceHost IsoDate.getTime
           compareUnits (js "https://github.com/owner/repo") false tt tt).
  vm_compute. reflexivity.
Defined.

Lemma existsb_perm {A} (f : A -> bool) (l l' : list A) :
  Permutation l l' -> existsb f l = existsb f l'.
Proof.
  induction 1 as [|x l l' Hp IH|x y l|l l' l'' H1 IH1 H2 IH2];
    cbn [existsb].
  - reflexivity.
  - rewrite IH. reflexivity.
  - destruct (f x), (f y); reflexivity.
  - rewrite IH1. assumption.
Qed.

Section MainFirst.
Variable localeCompare : jsstring -> jsstring -> float.

Lemma branch_insert_main_first (x : GitHubBranch) (acc : list GitHubBranch) :
  (existsb isMainOrMaster acc = true ->
   exists b rest, acc = b :: rest /\ isMainOrMaster b = true) ->
  existsb isMainOrMaster (x :: acc) = true ->
  exists b rest,
    Array_insert (branchAfter localeCompare) x acc = b :: rest /\
    isMainOrMaster b = true.
Proof.
  intros Hacc Hsome. cbn [existsb] in Hsome.
  destruct acc as [|y acc]; cbn [Array_insert].
  - exists x, []. cbn [existsb] in Hsome. rewrite orb_false_r in Hsome.
    split; [reflexivity | assumption].
  - unfold branchAfter at 1.
    destruct (isMainOrMaster y) eqn:Hy.
    + eexists y, _. split; [reflexivity | assumption].
    + destruct (isMainOrMaster x) eqn:Hx.
      * eexists x, _. split; [reflexivity | assumption].
      * cbn [orb] in Hsome. destruct (Hacc Hsome) as (b & rest & Heq & Hb).
        inversion Heq. subst. congruence.
Qed.

(** X20. When the branch list holds a branch named [main] or [master],
    the walk starts with such a branch, so that of the copies of a file
    the one of [main] or [master] is the first seen. *)
Theorem main_or_master_is_walked_first (branches : list GitHubBranch) :
  existsb isMainOrMaster branches = true ->
  exists b rest,
    Array_sort (branchAfter localeCompare) branches = b :: rest /\
    isMainOrMaster b = true.
Proof.
  unfold Array_sort.
  enough (forall acc,
             (existsb isMainOrMaster acc = true ->
              exists b rest, acc = b :: rest /\ isMainOrMaster b = true) ->
             existsb isMainOrMaster (acc ++ branches) = true ->
             exists b rest,
               fold_left (fun acc x =>
                            Array_insert (branchAfter localeCompare) x acc)
                         branches acc = b :: rest /\
               isMainOrMaster b = true) as H.
  { intros Hsome. apply (H []); [discriminate | exact Hsome]. }
  induction branches as [|x branches IH]; intros acc Hacc Hsome;
    cbn [fold_left].
  - rewrite app_nil_r in Hsome. apply Hacc. assumption.
  - pose proof (existsb_perm isMainOrMaster
                  (Array_insert_perm (branchAfter localeCompare) x acc))
      as Hins.
    apply IH.
    + intros Hsome'. apply branch_insert_main_first; [assumption|].
      rewrite <- Hins. assumption.
    + rewrite existsb_app in *. rewrite Hins. cbn [existsb] in *.
      rewrite <- Hsome.
      destruct (isMainOrMaster x), (existsb isMainOrMaster acc),
        (existsb isMainOrMaster branches); reflexivity.
Qed.
End MainFirst.

Lemma main_or_master_is_walked_first_witness :
  exists b rest,
    Array_sort (branchAfter compareUnits)
      [ {| branch_name := js "dev"; commit_sha := js "b2" |};
        {| branch_name := js "main"; commit_sha := js "a1" |} ] = b :: rest /\
    isMainOrMaster b = true.
Proof.
  apply main_or_master_is_walked_first. vm_compute. reflexivity.
Defined.

(** ** The history of a run and the classifier *)

Lemma countAI_perm (l l' : list CommitAnalysis) :
  Permutation l l' -> countAI l = countAI l'.
Proof.
  unfold countAI.
  induction 1 as [|x l l' Hp IH|x y l|l l' l'' H1 IH1 H2 IH2];
    cbn [filter].
  - reflexivity.
  - destruct (isAI x); cbn [List.length]; rewrite IH; reflexivity.
  - destruct (isAI x), (isAI y); reflexivity.
  - rewrite IH1. assumption.
Qed.

(** X21. In the history of a run every commit carries the verdict of
    [analyzeCommitMessage] on its message, [totalCommits] is the number
    of commits listed, and the overall [aiCommitPercentage] is that of
    the commits flagged among them, recomputed from the list. *)
Theorem history_is_classified (World : Type) (remote : Remote World)
    (Date_getTime : jsstring -> float) (owner repo : jsstring)
    (w w' : World) (history : CommitHistory.t) :
  analyzeCommitHistory remote Date_getTime owner repo w =
    (Normal history, w') ->
  List.length (CommitHistory.commits history) =
    CommitHistory.totalCommits history /\
  CommitHistory.aiCommitPercentage history =
    percentage (countAI (CommitHistory.commits history))
               (CommitHistory.totalCommits history) /\
  Forall (fun c =>
            let verdict := Classifier.analyzeCommitMessage (message c) in
            isAI c = Classifier.isAI verdict /\
            confidence c = Classifier.confidence verdict /\
            reasons c = Classifier.reasons verdict)
         (CommitHistory.commits history).
Proof.
  unfold analyzeCommitHistory, bind.
  destruct (fetchGitHubCommits remote owner repo w) as [[ghs|e] w1];
    [|discriminate].
  destruct (List.length ghs =? 0)%nat; intros H; inversion H.
  - repeat split. apply Forall_nil.
  - unfold summarize.
    cbn [CommitHistory.commits CommitHistory.totalCommits
         CommitHistory.aiCommitPercentage].
    pose proof (Array_sort_perm (byDateDescending Date_getTime)
                                (map classify ghs)) as Hperm.
    split; [apply Permutation_length; assumption|].
    split; [rewrite (countAI_perm Hperm); reflexivity|].
    apply Forall_forall. intros c Hc.
    apply (Permutation_in _ Hperm) in Hc. apply in_map_iff in Hc.
    destruct Hc as (gh & <- & _). repeat split.
Qed.

Lemma history_is_classified_witness :
  exists history,
    fst (analyzeCommitHistory loginHost IsoDate.getTime
           (js "owner") (js "repo") tt) = Normal history /\
    (List.length (CommitHistory.commits history) =
       CommitHistory.totalCommits history /\
     CommitHistory.aiCommitPercentage history =
       percentage (countAI (CommitHistory.commits history))
                  (CommitHistory.totalCommits history) /\
     Forall (fun c =>
               let verdict := Classifier.analyzeCommitMessage (message c) in
               isAI c = Classifier.isAI verdict /\
               confidence c = Classifier.confidence verdict /\
               reasons c = Classifier.reasons verdict)
            (CommitHistory.commits history)).
Proof.
  eexists. split; [vm_compute; reflexivity|].
  apply (@history_is_classified unit loginHost IsoDate.getTime
           (js "owner") (js "repo") tt tt).
  vm_compute. reflexivity.
Defined.

(** ** Directories that are not descended into, and forks *)

Section Descent.
Variable World : Type.
Variable remote : Remote World.

Lemma getAllFiles_loop_without_descent (depth : nat)
    (owner repo branch : jsstring) (contents : list GitHubFile.t) :
  (depth = O \/
   forall item, In item contents -> GitHubFile.type item = dir ->
     shouldSkipDirectory (GitHubFile.path item) (GitHubFile.name item) = true) ->
  forall (allFiles : list GitHubFile.t) (w : World),
    forEach contents allFiles
      (fun allFiles item =>
         match GitHubFile.type item with
         | file => ret (allFiles ++ [item])
         | dir =>
             if negb (shouldSkipDirectory (GitHubFile.path item)
                                          (GitHubFile.name item))
             then
               tryCatch
                 (bind (getAllFiles remote depth owner repo
                          (GitHubFile.path item) branch)
                       (fun subFiles => ret (allFiles ++ subFiles)))
                 (fun _ => ret allFiles)
             else ret allFiles
         end) w =
    (Normal (allFiles ++ filter isFile contents), w).
Proof.
  intros Hno. induction contents as [|item contents IH]; intros allFiles w;
    cbn [forEach filter].
  - rewrite app_nil_r. reflexivity.
  - assert (depth = O \/
            forall item0, In item0 contents ->
              GitHubFile.type item0 = dir ->
              shouldSkipDirectory (GitHubFile.path item0)
                                  (GitHubFile.name item0) = true) as Hrest
        by (destruct Hno as [H|H]; [left; assumption|];
            right; intros i Hi; apply H; right; assumption).
    unfold bind at 1. unfold isFile at 1.
    destruct (GitHubFile.type item) eqn:Htype.
    + cbn [ret]. rewrite (IH Hrest), <- app_assoc. reflexivity.
    + destruct (shouldSkipDirectory (GitHubFile.path item)
                                    (GitHubFile.name item)) eqn:Hskip;
        cbn [negb ret].
      * apply (IH Hrest).
      * destruct Hno as [->|Hno].
        -- cbn [getAllFiles]. unfold tryCatch, bind, ret.
           rewrite app_nil_r. apply (IH Hrest).
        -- rewrite (Hno item (or_introl eq_refl) Htype) in Hskip.
           discriminate.
Qed.

(** X22. A directory on the skip list, and any directory at the depth
    limit, is not requested: when [getAllFiles] has one level left, or
    every directory of a listing is to be skipped, it returns the files of
    that listing after that single request. *)
Theorem getAllFiles_without_descent (depth : nat)
    (owner repo path branch : jsstring) (w w1 : World)
    (contents : list GitHubFile.t) :
  fetchGitHubContents remote owner repo path branch w =
    (Normal contents, w1) ->
  (depth = O \/
   forall item, In item contents -> GitHubFile.type item = dir ->
     shouldSkipDirectory (GitHubFile.path item) (GitHubFile.name item) = true) ->
  getAllFiles remote (S depth) owner repo path branch w =
    (Normal (filter isFile contents), w1).
Proof.
  intros Hcontents Hno. cbn [getAllFiles]. unfold bind at 1.
  rewrite Hcontents.
  apply (@getAllFiles_loop_without_descent depth owner repo branch contents
           Hno [] w1).
Qed.

(** X23. When the metadata say that the repository is a fork of
    [parentOwner/parentRepo], the analysis is switched to that parent and
    the parent's URL is recorded as the original. *)
Theorem resolveFork_switches_to_parent (owner repo : jsstring)
    (w w1 : World) (p : GitHubParent) (parentOwner parentRepo : jsstring) :
  fetchGitHubRepo remote owner repo w =
    (Normal {| fork := true; parent := Some p |}, w1) ->
  full_name p = parentOwner ++ ch "/" :: parentRepo ->
  parentOwner <> [] -> parentRepo <> [] ->
  ~ In (ch "/") parentOwner -> ~ In (ch "/") parentRepo ->
  resolveFork remote owner repo w =
    (Normal {| id_owner := parentOwner; id_repo := parentRepo;
               id_originalRepositoryUrl := Some (html_url p);
               id_isForked := true |}, w1).
Proof.
  intros Hrepo Hname Ho Hr Hno Hnr.
  unfold resolveFork, tryCatch, bind. rewrite Hrepo. cbn [fork parent].
  assert (matchOwnerRepo (full_name p) = Some (parentOwner, parentRepo))
    as ->; [|reflexivity].
  rewrite Hname.
  pose proof (@ownerRepoAt_spec parentOwner parentRepo [] Ho Hr Hno Hnr I)
    as Hat.
  rewrite app_nil_r in Hat.
  destruct (parentOwner ++ ch "/" :: parentRepo);
    cbn [matchOwnerRepo]; rewrite Hat; reflexivity.
Qed.
End Descent.

(** On hosts that log their requests: with one level left the
    directory [lib] of the listing is not requested, and with four levels
    left the directories [node_modules] and [.git] are not; in both
    cases the log holds the one request for the listing. *)
Lemma getAllFiles_without_descent_witness :
  let root := contentsUrl (js "owner") (js "repo") [] (js "dev") in
  getAllFiles (listingHost [readme None; directory "lib"]) 1
              (js "owner") (js "repo") [] (js "dev") [] =
    (Normal [readme (Some (js "dev"))], [root]) /\
  getAllFiles (listingHost [directory "node_modules"; readme None;
                            directory ".git"]) 4
              (js "owner") (js "repo") [] (js "dev") [] =
    (Normal [readme (Some (js "dev"))], [root]).
Proof.
  cbv zeta. split.
  - apply (@getAllFiles_without_descent Log
             (listingHost [readme None; directory "lib"]) 0
             (js "owner") (js "repo") [] (js "dev") []
             [contentsUrl (js "owner") (js "repo") [] (js "dev")]
             [readme (Some (js "dev"));
              setBranch (js "dev") (directory "lib")]).
    + vm_compute. reflexivity.
    + left. reflexivity.
  - apply (@getAllFiles_without_descent Log
             (listingHost [directory "node_modules"; readme None;
                           directory ".git"]) 3
             (js "owner") (js "repo") [] (js "dev") []
             [contentsUrl (js "owner") (js "repo") [] (js "dev")]
             [setBranch (js "dev") (directory "node_modules");
              readme (Some (js "dev"));
              setBranch (js "dev") (directory ".git")]).
    + vm_compute. reflexivity.
    + right. intros item [<-|[<-|[<-|[]]]] Htype;
        try (vm_compute; reflexivity).
      vm_compute in Htype. discriminate Htype.
Defined.

(** Without the limit and the skip list the same listings are descended
    into: with two levels left [lib] is requested too. *)
Example getAllFiles_descends_otherwise :
  snd (getAllFiles (listingHost [readme None; directory "lib"]) 2
                   (js "owner") (js "repo") [] (js "dev") []) =
  [ contentsUrl (js "owner") (js "repo") [] (js "dev");
    contentsUrl (js "owner") (js "repo") (js "lib") (js "dev") ].
Proof. vm_compute. reflexivity. Qed.


Lemma resolveFork_switches_to_parent_witness :
  resolveFork forkHost (js "owner") (js "tool") tt =
  (Normal {| id_owner := js "upstream"; id_repo := js "tool";
             id_originalRepositoryUrl := Some (html_url upstream);
             id_isForked := true |}, tt).
Proof.
  apply (@resolveFork_switches_to_parent unit forkHost (js "owner")
           (js "tool") tt tt upstream (js "upstream") (js "tool")).
  - vm_compute. reflexivity.
  - vm_compute. reflexivity.
  - discriminate.
  - discriminate.
  - vm_compute. intuition discriminate.
  - vm_compute. intuition discriminate.
Defined.


(** ** The overall figures of a report *)

Section ReportTotals.
Variable World : Type.
Variable remote : Remote World.

Lemma sumOver_snoc (figure : AnalysisResult -> float)
    (analysed : list FileAnalysis) (fa : FileAnalysis) :
  sumOver figure (analysed ++ [fa]) =
  (sumOver figure analysed + figure (analysis fa))%float.
Proof.
  unfold sumOver. rewrite fold_left_app. reflexivity.
Qed.

Lemma analyzeFile_totalsAgree (acc acc' : Totals) (f : GitHubFile.t)
    (w w' : World) :
  totalsAgree acc ->
  analyzeFile remote acc f w = (Normal acc', w') ->
  totalsAgree acc'.
Proof.
  intros Hacc. unfold analyzeFile, tryCatch, bind.
  destruct (fetchFileContent remote _ w) as [[content|e] w1].
  - destruct (String_isBlank content).
    + intros H. inversion H. subst. assumption.
    + destruct (analyzeCode remote content _ w1) as [[result|e] w2];
        intros H; inversion H; subst; [|assumption].
      destruct Hacc as (H1 & H2 & H3 & H4 & H5).
      unfold totalsAgree.
      cbn [fileAnalyses sumLines sumAiLines sumHumanLines sumConfidence
           analyzedCount].
      rewrite !sumOver_snoc, length_app, <- H1, <- H2, <- H3, <- H4, <- H5.
      cbn [analysis List.length]. repeat split. lia.
  - intros H. inversion H. subst. assumption.
Qed.

Lemma analyzeFiles_totalsAgree (todo : list GitHubFile.t) :
  forall (acc acc' : Totals) (w w' : World),
    totalsAgree acc ->
    forEach todo acc (analyzeFile remote) w = (Normal acc', w') ->
    totalsAgree acc'.
Proof.
  induction todo as [|f todo IH]; intros acc acc' w w' Hacc Hrun.
  - inversion Hrun. subst. assumption.
  - cbn [forEach] in Hrun. unfold bind in Hrun.
    destruct (analyzeFile remote acc f w) as [[acc1|e] w1] eqn:Hstep;
      [|discriminate].
    apply (IH _ _ _ _ (@analyzeFile_totalsAgree _ _ _ _ _ Hacc Hstep) Hrun).
Qed.

(** X24. The overall figures of a report are those of exactly the files
    it lists: the line totals are the sums of the files' figures, added
    up in the order in which the files were analysed (the order before
    the report is sorted by evidence), and the overall confidence is the
    mean of the files' confidences.  A file that was skipped or failed
    contributes to none of them. *)
Theorem report_totals (Date_getTime : jsstring -> float)
    (localeCompare : jsstring -> jsstring -> float)
    (repositoryUrl : jsstring) (includeCommitHistory : bool)
    (w w' : World) (report : RepositoryAnalysis) :
  analyzeGitHubRepository remote Date_getTime localeCompare
    repositoryUrl includeCommitHistory w = (Normal report, w') ->
  exists analysed,
    files report = Array_sort reportAfter analysed /\
    Permutation (files report) analysed /\
    os_totalLines (overallStats report) = sumOver totalLines analysed /\
    os_aiLines (overallStats report) = sumOver aiLines analysed /\
    os_humanLines (overallStats report) = sumOver humanLines analysed /\
    os_overallConfidence (overallStats report) =
      if (0 <? List.length analysed)%nat
      then (sumOver overallConfidence analysed /
            Number_ofNat (List.length analysed))%float
      else 0%float.
Proof.
  intros Hrun. apply run_report_shape in Hrun.
  destruct Hrun as (owner & repo & identity & w1 & allFiles & n & w2 & has &
                    w3 & acc & w4 & history & _ & _ & _ & _ & Hloop & _ & ->).
  assert (totalsAgree acc) as (H1 & H2 & H3 & H4 & H5).
  { revert Hloop. apply analyzeFiles_totalsAgree.
    unfold totalsAgree, sumOver, noTotals. cbn. repeat split. }
  exists (fileAnalyses acc).
  cbn [files overallStats]. unfold overallStatsOf.
  cbn [os_totalLines os_aiLines os_humanLines os_overallConfidence].
  rewrite <- H1, <- H2, <- H3, <- H4, <- H5.
  repeat split. apply Array_sort_perm.
Qed.
End ReportTotals.

Lemma report_totals_witness :
  exists report,
    fst (analyzeGitHubRepository twoBranches IsoDate.getTime compareUnits
           (js "https://github.com/owner/repo") false tt) = Normal report /\
    exists analysed,
      files report = Array_sort reportAfter analysed /\
      Permutation (files report) analysed /\
      os_totalLines (overallStats report) = sumOver totalLines analysed /\
      os_aiLines (overallStats report) = sumOver aiLines analysed /\
      os_humanLines (overallStats report) = sumOver humanLines analysed /\
      os_overallConfidence (overallStats report) =
        if (0 <? List.length analysed)%nat
        then (sumOver overallConfidence analysed /
              Number_ofNat (List.length analysed))%float
        else 0%float.
Proof.
  eexists. split; [vm_compute; reflexivity|].
  apply (@report_totals unit twoBranches IsoDate.getTime compareUnits
           (js "https://github.com/owner/repo") false tt tt).
  vm_compute. reflexivity.
Defined.
